(** * Survey backend: answer engine, validator pipelines and statistics

    A shallow embedding of the [survey] Django application
    (models.py, services/*.py, api/views.py) together with the
    properties claimed about it.

    The relational store is a record of tables; a table is the list of
    its rows in insertion order.  A queryset is the list of rows it
    yields.  Primary keys ([uuid.uuid4] defaults) are drawn from a
    counter kept in the store, so that a created row never reuses a
    key.  Timestamps are integers and the clock is an argument of the
    operations that read it. *)

From Stdlib Require Import ZArith NArith QArith Qround Lia Lqa.
From stdpp Require Import base decidable option list sorting gmap strings.

Close Scope Q_scope.
Local Open Scope string_scope.
Local Open Scope list_scope.
Local Open Scope nat_scope.

(** ** Values *)

Definition uuid := N.
Definition user_id := N.
Definition datetime := Z.
Bind Scope N_scope with uuid user_id.
Bind Scope Z_scope with datetime.

(** Python truthiness of a [str | None] value. *)
Definition truthy (s : option string) : bool :=
  match s with
  | Some s => bool_decide (s ≠ "")
  | None => false
  end.

(** ** models.py

    Rows carry the columns that the services read or write.  The
    [created_at]/[updated_at] stamps of [TimeStampedBaseModel] and
    [UserAnswer.created_at] are left out: no query, ordering or update
    below refers to them.  [UserResponse.created_at] is kept, since
    the model's default ordering is by it. *)

Inductive SurveyStatus := DRAFT | ACTIVE | CLOSED | ARCHIVED.
Inductive QuestionType := SINGLE_CHOICE | MULTIPLE_CHOICE | TEXT.
Inductive UserResponseStatus := IN_PROGRESS | COMPLETED.

Record Survey := mkSurvey {
  s_uuid : uuid;
  s_name : string;
  s_status : SurveyStatus;
  s_owner_user_ids : list user_id;
  s_end_date : option datetime;
  s_is_anonymous : bool
}.

Record Question := mkQuestion {
  q_uuid : uuid;
  q_survey : uuid;
  q_seq_id : Z;
  q_name : string;
  q_type : QuestionType;
  q_is_active : bool
}.

Record AnswerOption := mkAnswerOption {
  ao_uuid : uuid;
  ao_question : uuid;
  ao_seq_id : Z;
  ao_name : string;
  ao_is_active : bool
}.

Record UserResponse := mkUserResponse {
  ur_uuid : uuid;
  ur_survey : uuid;
  ur_user : option user_id;
  ur_created_at : datetime;
  ur_completed_at : option datetime;
  ur_status : UserResponseStatus
}.

Record UserAnswer := mkUserAnswer {
  ua_uuid : uuid;
  ua_user_response : uuid;
  ua_question : uuid;
  ua_answer_option : option uuid;
  ua_text_answer : option string
}.

#[global] Instance SurveyStatus_eq_dec : EqDecision SurveyStatus.
Proof. solve_decision. Defined.
#[global] Instance QuestionType_eq_dec : EqDecision QuestionType.
Proof. solve_decision. Defined.
#[global] Instance UserResponseStatus_eq_dec : EqDecision UserResponseStatus.
Proof. solve_decision. Defined.
#[global] Instance Survey_eq_dec : EqDecision Survey.
Proof. solve_decision. Defined.
#[global] Instance Question_eq_dec : EqDecision Question.
Proof. solve_decision. Defined.
#[global] Instance AnswerOption_eq_dec : EqDecision AnswerOption.
Proof. solve_decision. Defined.
#[global] Instance UserResponse_eq_dec : EqDecision UserResponse.
Proof. solve_decision. Defined.
#[global] Instance UserAnswer_eq_dec : EqDecision UserAnswer.
Proof. solve_decision. Defined.

(** The data store. *)
Record DB := mkDB {
  surveys : list Survey;
  questions : list Question;
  answer_options : list AnswerOption;
  user_responses : list UserResponse;
  user_answers : list UserAnswer;
  next_uuid : N
}.

Definition set_user_answers (rows : list UserAnswer) (db : DB) : DB :=
  mkDB (surveys db) (questions db) (answer_options db) (user_responses db)
       rows (next_uuid db).

(** ** UserAnswer manager primitives *)

(** [UserAnswer.objects.create(...)]: INSERT with a fresh primary key. *)
Definition UserAnswer_create (user_response question : uuid)
    (answer_option : option uuid) (text_answer : option string) (db : DB) : DB :=
  mkDB (surveys db) (questions db) (answer_options db) (user_responses db)
       (user_answers db ++
          [mkUserAnswer (next_uuid db) user_response question
                        answer_option text_answer])
       (N.succ (next_uuid db)).

(** [answer.delete()]: DELETE ... WHERE uuid = pk. *)
Definition UserAnswer_delete (pk : uuid) (db : DB) : DB :=
  set_user_answers (filter (λ a, ua_uuid a ≠ pk) (user_answers db)) db.

(** [answer.save(update_fields=["text_answer"])]. *)
Definition UserAnswer_save_text_answer (pk : uuid) (text : option string)
    (db : DB) : DB :=
  set_user_answers
    ((λ a, if decide (ua_uuid a = pk)
           then mkUserAnswer (ua_uuid a) (ua_user_response a) (ua_question a)
                             (ua_answer_option a) text
           else a) <$> user_answers db) db.

(** [answer.save(update_fields=["answer_option"])]. *)
Definition UserAnswer_save_answer_option (pk : uuid) (opt : option uuid)
    (db : DB) : DB :=
  set_user_answers
    ((λ a, if decide (ua_uuid a = pk)
           then mkUserAnswer (ua_uuid a) (ua_user_response a) (ua_question a)
                             opt (ua_text_answer a)
           else a) <$> user_answers db) db.

(** [UserAnswer.objects.filter(user_response=r, question=q)].  The
    default ordering of the model is [question__seq_id]; all rows of
    this queryset share one question, so they come in table order. *)
Definition answers_of (db : DB) (r q : uuid) : list UserAnswer :=
  filter (λ a, ua_user_response a = r ∧ ua_question a = q) (user_answers db).

(** [... .filter(answer_option=o)]; [None] is matched by IS NULL. *)
Definition answers_of_option (db : DB) (r q : uuid) (o : option uuid)
    : list UserAnswer :=
  filter (λ a, ua_answer_option a = o) (answers_of db r q).

(** ** domain/entities.py *)

Record UserAnswerUpdate := mkUserAnswerUpdate {
  uau_user_response : UserResponse;
  uau_question : Question;
  uau_answer_option : option AnswerOption;
  uau_text_answer : option string
}.

(** ** services/answer_update.py *)

Module TextQuestionStrategy.
Definition _perform_answer_update (answer : UserAnswer)
    (text_answer : option string) (db : DB) : DB :=
  if truthy text_answer
  then UserAnswer_save_text_answer (ua_uuid answer) text_answer db
  else UserAnswer_delete (ua_uuid answer) db.

Definition _perform_answer_create (u : UserAnswerUpdate) (db : DB) : DB :=
  if truthy (uau_text_answer u)
  then UserAnswer_create (ur_uuid (uau_user_response u))
         (q_uuid (uau_question u)) None (uau_text_answer u) db
  else db.

Definition handle_answer (u : UserAnswerUpdate) (db : DB) : DB :=
  let user_answers :=
    answers_of db (ur_uuid (uau_user_response u)) (q_uuid (uau_question u)) in
  match head user_answers with
  | Some answer => _perform_answer_update answer (uau_text_answer u) db
  | None => _perform_answer_create u db
  end.
End TextQuestionStrategy.

Module SingleChoiceQuestionStrategy.
Definition handle_answer (u : UserAnswerUpdate) (db : DB) : DB :=
  let user_answers :=
    answers_of db (ur_uuid (uau_user_response u)) (q_uuid (uau_question u)) in
  match head user_answers with
  | Some answer =>
      UserAnswer_save_answer_option (ua_uuid answer)
        (ao_uuid <$> uau_answer_option u) db
  | None =>
      UserAnswer_create (ur_uuid (uau_user_response u))
        (q_uuid (uau_question u)) (ao_uuid <$> uau_answer_option u) None db
  end.
End SingleChoiceQuestionStrategy.

Module MultipleChoiceQuestionStrategy.
Definition handle_answer (u : UserAnswerUpdate) (db : DB) : DB :=
  let existing_answer :=
    head (answers_of_option db (ur_uuid (uau_user_response u))
            (q_uuid (uau_question u)) (ao_uuid <$> uau_answer_option u)) in
  match existing_answer with
  | Some existing_answer => UserAnswer_delete (ua_uuid existing_answer) db
  | None =>
      UserAnswer_create (ur_uuid (uau_user_response u))
        (q_uuid (uau_question u)) (ao_uuid <$> uau_answer_option u) None db
  end.
End MultipleChoiceQuestionStrategy.

Module QuestionHandlerFactory.
(** The registry has an entry for each member of [QuestionType], so
    the lookup never takes the [ValueError] branch. *)
Definition get_strategy (question_type : QuestionType)
    : UserAnswerUpdate → DB → DB :=
  match question_type with
  | TEXT => TextQuestionStrategy.handle_answer
  | SINGLE_CHOICE => SingleChoiceQuestionStrategy.handle_answer
  | MULTIPLE_CHOICE => MultipleChoiceQuestionStrategy.handle_answer
  end.
End QuestionHandlerFactory.

(** [UserAnswerViewSet._handle_answer] (api/views.py). *)
Definition _handle_answer (question : Question)
    (answer_option : option AnswerOption) (text_answer : option string)
    (user_response : UserResponse) (db : DB) : DB :=
  let handler := QuestionHandlerFactory.get_strategy (q_type question) in
  handler (mkUserAnswerUpdate user_response question answer_option text_answer) db.

(** Successive choice submissions of one respondent to one question. *)
Definition submit_options (question : Question) (user_response : UserResponse)
    (os : list (option AnswerOption)) (db : DB) : DB :=
  foldl (λ db o, _handle_answer question o None user_response db) db os.

(** Primary keys of the answer table are pairwise distinct and were
    all handed out by the key counter. *)
Definition answers_pk_ok (db : DB) : Prop :=
  NoDup (ua_uuid <$> user_answers db) ∧
  Forall (λ a, (ua_uuid a < next_uuid db)%N) (user_answers db).

(** ** Query helpers *)

(** [ORDER BY]: a stable insertion sort under a boolean "comes no
    later than" test. *)
Fixpoint insert_sorted {A} (le : A → A → bool) (x : A) (l : list A) : list A :=
  match l with
  | [] => [x]
  | y :: l' => if le x y then x :: y :: l' else y :: insert_sorted le x l'
  end.

Definition order_by {A} (le : A → A → bool) (l : list A) : list A :=
  foldr (insert_sorted le) [] l.

(** NULL sorts first in ascending order (the behaviour of the SQLite
    backend the test-suite runs on). *)
Definition nullable_leb (a b : option Z) : bool :=
  match a, b with
  | None, _ => true
  | Some _, None => false
  | Some x, Some y => (x <=? y)%Z
  end.

(** Lookup by primary key. *)
Definition find_survey (db : DB) (pk : uuid) : option Survey :=
  head (filter (λ s, s_uuid s = pk) (surveys db)).
Definition find_question (db : DB) (pk : uuid) : option Question :=
  head (filter (λ q, q_uuid q = pk) (questions db)).
Definition find_answer_option (db : DB) (pk : uuid) : option AnswerOption :=
  head (filter (λ o, ao_uuid o = pk) (answer_options db)).
Definition find_user_response (db : DB) (pk : uuid) : option UserResponse :=
  head (filter (λ r, ur_uuid r = pk) (user_responses db)).

(** [SurveyManager.get_user_response]; [UserResponse.Meta.ordering] is
    [-created_at], so [first()] is the most recently created match. *)
Definition get_user_response (db : DB) (survey : Survey)
    (user : option user_id) (user_response_uuid : option uuid)
    : option UserResponse :=
  let user_responses :=
    order_by (λ a b, (ur_created_at b <=? ur_created_at a)%Z)
      (filter (λ r, ur_survey r = s_uuid survey) (user_responses db)) in
  if s_is_anonymous survey
  then head (filter (λ r, Some (ur_uuid r) = user_response_uuid) user_responses)
  else head (filter (λ r, ur_user r = user) user_responses).

(** [Survey.is_user_owner]. *)
Definition is_user_owner (survey : Survey) (user : user_id) : bool :=
  bool_decide (user ∈ s_owner_user_ids survey).

(** ** exceptions.py *)

(** [exc_args] is the positional argument tuple kept by
    [BaseException]; the source raises with either one positional
    message or keyword arguments only.  [str(e)] renders it. *)
Record ValidateAnswerError := mkValidateAnswerError {
  exc_args : option string;
  message : option string;
  question_error_map : option (gmap uuid string)
}.

Definition ValidateAnswerError_msg (msg : string) : ValidateAnswerError :=
  mkValidateAnswerError (Some msg) (Some msg) None.

Definition str_exc (e : ValidateAnswerError) : string :=
  default "" (exc_args e).

Inductive result (A : Type) : Type :=
  | Ok (a : A)
  | Raise (e : ValidateAnswerError).
Arguments Ok {A} a.
Arguments Raise {A} e.

(** ** domain/entities.py: the request context *)

Record UserAnswerRequest := mkUserAnswerRequest {
  uar_user : option user_id;
  uar_survey : Survey;
  uar_question : option uuid;
  uar_answer_option : option string;
  uar_text_answer : option string;
  uar_user_response_uuid : option uuid
}.

(** ** services/validators.py *)

(** [AnswerValidatorMixin.get_question_type]. *)
Definition get_question_type (db : DB) (question : option uuid)
    : option QuestionType :=
  q_type <$> (question ≫= find_question db).

(** A question together with its prefetched [answers] relation. *)
Record PrefetchedQuestion := mkPrefetchedQuestion {
  pq_question : Question;
  pq_answers : list UserAnswer
}.

#[global] Instance PrefetchedQuestion_eq_dec : EqDecision PrefetchedQuestion.
Proof. solve_decision. Defined.

Module TextQuestionAnswerValidatorExtended.
Definition _check_answer_exists (answer : option UserAnswer) : result unit :=
  match answer with
  | None => Raise (ValidateAnswerError_msg "Ответ отсутствует")
  | Some _ => Ok tt
  end.

Definition _check_answer_text (answer : UserAnswer) : result unit :=
  if truthy (ua_text_answer answer) then Ok tt
  else Raise (ValidateAnswerError_msg "Отсутствует текст в поле").

Definition check (question : PrefetchedQuestion) : result unit :=
  let answer := head (pq_answers question) in
  match _check_answer_exists answer, answer with
  | Raise e, _ => Raise e
  | Ok _, Some answer => _check_answer_text answer
  | Ok _, None => Ok tt
  end.
End TextQuestionAnswerValidatorExtended.

Module SingleChoiceQuestionAnswerValidatorExtended.
Definition _check_answer_exists (answers : list UserAnswer) : result unit :=
  if bool_decide (answers = [])
  then Raise (ValidateAnswerError_msg "Ответ отсутствует")
  else Ok tt.

Definition _check_answer_text (answers : list UserAnswer) : result unit :=
  let count := length answers in
  if bool_decide (count = 0)
  then Raise (ValidateAnswerError_msg "Отсутствует ответ в поле")
  else if bool_decide (1 < count)
  then Raise (ValidateAnswerError_msg "Несколько ответов для единичнго поля")
  else Ok tt.

Definition check (question : PrefetchedQuestion) : result unit :=
  let answers := pq_answers question in
  match _check_answer_exists answers with
  | Raise e => Raise e
  | Ok _ => _check_answer_text answers
  end.
End SingleChoiceQuestionAnswerValidatorExtended.

Module MultipleChoiceValidatorExtendedQuestion.
Definition _check_answer_exists (answers : list UserAnswer) : result unit :=
  if bool_decide (answers = [])
  then Raise (ValidateAnswerError_msg "Ответ отсутствует")
  else Ok tt.

Definition check (question : PrefetchedQuestion) : result unit :=
  _check_answer_exists (pq_answers question).
End MultipleChoiceValidatorExtendedQuestion.

(** The filter on the respondent: [Q(...__user=user)] for a user,
    [Q(...__uuid=user_response)] otherwise.  No stored session has a
    NULL key, so without a user and without a cookie no session
    matches. *)
Definition session_matches (user : option user_id) (user_response : option uuid)
    (r : UserResponse) : bool :=
  match user with
  | Some u => bool_decide (ur_user r = Some u)
  | None => bool_decide (Some (ur_uuid r) = user_response)
  end.

Definition prefetch_answers (db : DB) (user : option user_id)
    (user_response : option uuid) (q : Question) : list UserAnswer :=
  filter (λ a, bool_decide (ua_question a = q_uuid q) &&
               match find_user_response db (ua_user_response a) with
               | Some r => session_matches user user_response r
               | None => false
               end)
         (user_answers db).

(** The rows that the join of a question with the sessions of its
    survey leaves after the filter on the respondent.  With neither a
    user nor a cookie the filter is [uuid=None], which the ORM
    compiles to [IS NULL] over a LEFT OUTER JOIN: it keeps the one
    NULL-extended row of a question whose survey has no session, and
    no row otherwise. *)
Definition joined_sessions (db : DB) (q : Question) (user : option user_id)
    (user_response : option uuid) : list (option UserResponse) :=
  let sessions := filter (λ r, ur_survey r = q_survey q) (user_responses db) in
  match user, user_response with
  | None, None => if decide (sessions = []) then [None] else []
  | _, _ => Some <$> filter (λ r, session_matches user user_response r) sessions
  end.

(** [QuestionManager.get_survey_questions]: the questions of the
    survey joined with the respondent's sessions on it (one row per
    joined session, ordered by [seq_id]), each with the respondent's
    answers to it prefetched. *)
Definition get_survey_questions (db : DB) (survey : Survey)
    (user : option user_id) (user_response : option uuid)
    : list PrefetchedQuestion :=
  q ← order_by (λ a b, (q_seq_id a <=? q_seq_id b)%Z)
        (filter (λ q, q_survey q = s_uuid survey) (questions db));
  _ ← joined_sessions db q user user_response;
  [mkPrefetchedQuestion q (prefetch_answers db user user_response q)].

Module QuestionAnswersValidator.
Definition _validator_map (t : QuestionType)
    : PrefetchedQuestion → result unit :=
  match t with
  | TEXT => TextQuestionAnswerValidatorExtended.check
  | SINGLE_CHOICE => SingleChoiceQuestionAnswerValidatorExtended.check
  | MULTIPLE_CHOICE => MultipleChoiceValidatorExtendedQuestion.check
  end.

(** One iteration of the loop.  The key of the map is
    [str(question.uuid)], which is one-to-one with the uuid. *)
Definition loop_body (question_error_map : gmap uuid string)
    (question : PrefetchedQuestion) : gmap uuid string :=
  let validator := _validator_map (q_type (pq_question question)) in
  match validator question with
  | Ok _ => question_error_map
  | Raise e =>
      <[q_uuid (pq_question question) := str_exc e]> question_error_map
  end.

Definition collect (questions_qs : list PrefetchedQuestion)
    : gmap uuid string :=
  foldl loop_body ∅ questions_qs.

Definition check (req : UserAnswerRequest) (db : DB) : result unit :=
  let questions_qs :=
    get_survey_questions db (uar_survey req) (uar_user req)
      (uar_user_response_uuid req) in
  let question_error_map := collect questions_qs in
  if bool_decide (question_error_map = ∅) then Ok tt
  else Raise (mkValidateAnswerError None (Some "Ошибка валидации ответов")
                (Some question_error_map)).
End QuestionAnswersValidator.

(** ** UserAnswerManager.get_survey_stat (models.py) *)

(** [Round(x, 2)]: the quotient [answer_count * 100.0 / total_count]
    is computed exactly and rounded half-up to two decimals. *)
Definition Round2 (x : Q) : Q :=
  Qmake (Qfloor (x * 100 + (1 # 2))%Q) 100.

(** One row of the [values(...)] queryset with its annotations. *)
Record StatRow := mkStatRow {
  question_id__survey_id__uuid : uuid;
  question_id__survey_id__name : string;
  question_id__survey_id__status : SurveyStatus;
  question_id__uuid : uuid;
  question_id__name : string;
  question_id__type : QuestionType;
  answer_option_id__uuid : option uuid;
  answer_option_id__name : option string;
  answer_count : nat;
  total_count : nat;
  percentage : Q
}.

(** [user_response__survey__uuid=survey_uuid,
     user_response__status=COMPLETED]. *)
Definition of_completed_response (db : DB) (survey_uuid : uuid)
    (a : UserAnswer) : bool :=
  match find_user_response db (ua_user_response a) with
  | Some r => bool_decide (ur_survey r = survey_uuid ∧ ur_status r = COMPLETED)
  | None => false
  end.

Definition completed_answers (db : DB) (survey_uuid : uuid) : list UserAnswer :=
  filter (λ a, of_completed_response db survey_uuid a) (user_answers db).

(** The columns an answer row contributes after the joins on its
    question, the question's survey (inner joins) and its answer
    option (outer join): the eight [values] columns followed by the
    two [order_by] columns. *)
Definition StatKey : Type :=
  (uuid * string * SurveyStatus) * (uuid * string * QuestionType) *
  (option uuid * option string) * (Z * option Z).

Definition stat_key (db : DB) (a : UserAnswer) : option StatKey :=
  q ← find_question db (ua_question a);
  s ← find_survey db (q_survey q);
  let o := ua_answer_option a ≫= find_answer_option db in
  Some ((s_uuid s, s_name s, s_status s),
        (q_uuid q, q_name q, q_type q),
        (ao_uuid <$> o, ao_name <$> o),
        (q_seq_id q, ao_seq_id <$> o)).

Definition stat_key_leb (a b : StatKey) : bool :=
  let '(_, _, _, (qa, oa)) := a in
  let '(_, _, _, (qb, ob)) := b in
  (qa <? qb)%Z || ((qa =? qb)%Z && nullable_leb oa ob).

(** The correlated subquery [total_counts]: the number of answer rows
    of completed sessions of the survey that bear on the question. *)
Definition total_counts (db : DB) (survey_uuid question_id : uuid) : nat :=
  length (filter (λ a, ua_question a = question_id)
            (completed_answers db survey_uuid)).

Definition stat_row (db : DB) (survey_uuid : uuid) (keys : list StatKey)
    (k : StatKey) : StatRow :=
  let '((su, sn, ss), (qu, qn, qt), (ou, on), _) := k in
  let answer_count := length (filter (λ k', k' = k) keys) in
  let total_count := total_counts db survey_uuid qu in
  mkStatRow su sn ss qu qn qt ou on answer_count total_count
    (Round2 (inject_Z (Z.of_nat answer_count) * 100
             / inject_Z (Z.of_nat total_count))%Q).

(** One row per group of the [values(...)] columns, ordered by
    (question seq_id, option seq_id).  The [order_by] does not
    separate two groups that tie on both; their relative order is the
    database's choice, and here tied groups keep the order in which
    [remove_dups] lists them.  What is proved of this query is stated
    by membership, counts and sums, and holds for any order of ties. *)
Definition get_survey_stat (db : DB) (survey_uuid : uuid) : list StatRow :=
  let keys := omap (stat_key db) (completed_answers db survey_uuid) in
  stat_row db survey_uuid keys <$> order_by stat_key_leb (remove_dups keys).

(** ** services/validators.py: request validators and pipelines *)

(** An [ISurveyValidator] object: its class name and its [check]. *)
Record ISurveyValidator := mkValidator {
  validator_name : string;
  check : UserAnswerRequest → DB → result unit
}.

Definition TextAnswerValidator : ISurveyValidator :=
  mkValidator "TextAnswerValidator" (λ req db,
    let question_type := get_question_type db (uar_question req) in
    if bool_decide (question_type = Some TEXT) && truthy (uar_answer_option req)
    then Raise (ValidateAnswerError_msg "Ответ должен содержать текст")
    else Ok tt).

Definition ChoiceAnswerValidator : ISurveyValidator :=
  mkValidator "ChoiceAnswerValidator" (λ req db,
    let question_type := get_question_type db (uar_question req) in
    if bool_decide (question_type ≠ Some TEXT) && truthy (uar_text_answer req)
    then Raise (ValidateAnswerError_msg "Ответ должен содержать выбранный вариант")
    else Ok tt).

Definition _is_survey_completed (req : UserAnswerRequest) (db : DB) : bool :=
  match get_user_response db (uar_survey req) (uar_user req)
          (uar_user_response_uuid req) with
  | Some user_response => bool_decide (ur_status user_response = COMPLETED)
  | None => false
  end.

Definition CompletedSurveyValidator : ISurveyValidator :=
  mkValidator "CompletedSurveyValidator" (λ req db,
    if _is_survey_completed req db
    then Raise (ValidateAnswerError_msg "Опрос уже пройден")
    else Ok tt).

Definition IsSurveyActiveValidator : ISurveyValidator :=
  mkValidator "IsSurveyActiveValidator" (λ req db,
    if bool_decide (s_status (uar_survey req) ≠ ACTIVE)
    then Raise (ValidateAnswerError_msg "Опрос не активен")
    else Ok tt).

Definition OwnerSurveyValidator : ISurveyValidator :=
  mkValidator "OwnerSurveyValidator" (λ req db,
    match uar_user req with
    | Some user =>
        if negb (is_user_owner (uar_survey req) user)
        then Raise (ValidateAnswerError_msg "Не являетесь владельцем опроса")
        else Ok tt
    | None => Ok tt
    end).

Definition IsSurveyStatValidator : ISurveyValidator :=
  mkValidator "IsSurveyStatValidator" (λ req db,
    let answer_count := get_survey_stat db (s_uuid (uar_survey req)) in
    if bool_decide (answer_count = [])
    then Raise (ValidateAnswerError_msg "Статистика по опросу отсутствует")
    else Ok tt).

(** [RequestBaseValidator.validate], returning along with the outcome
    the names of the validators whose [check] was called. *)
Fixpoint run_validators (validators : list ISurveyValidator)
    (req : UserAnswerRequest) (db : DB) : list string * result unit :=
  match validators with
  | [] => ([], Ok tt)
  | validator :: rest =>
      match check validator req db with
      | Raise e => ([validator_name validator], Raise e)
      | Ok _ =>
          let '(called, r) := run_validators rest req db in
          (validator_name validator :: called, r)
      end
  end.

Definition validate (validators : list ISurveyValidator)
    (req : UserAnswerRequest) (db : DB) : result unit :=
  (run_validators validators req db).2.

Definition UserAnswerChecker : list ISurveyValidator :=
  [IsSurveyActiveValidator; ChoiceAnswerValidator;
   CompletedSurveyValidator; TextAnswerValidator].

Definition SurveyStatChecker : list ISurveyValidator :=
  [OwnerSurveyValidator; IsSurveyStatValidator].

(** ** Python dictionaries where iteration order matters

    A [dict] is the list of its items in insertion order.  Assigning
    to a present key keeps its position; a new key goes last. *)
Module PyDict.
Definition t (V : Type) : Type := list (string * V).

Definition get {V} (k : string) (d : t V) : option V :=
  snd <$> head (filter (λ kv, kv.1 = k) d).

Fixpoint set {V} (k : string) (v : V) (d : t V) : t V :=
  match d with
  | [] => [(k, v)]
  | (k', v') :: d' =>
      if decide (k' = k) then (k, v) :: d' else (k', v') :: set k v d'
  end.

Definition values {V} (d : t V) : list V := snd <$> d.
End PyDict.

(** ** services/factories.py and services/complete_survey.py *)

Record AnswerStat := mkAnswerStat {
  as_uuid : option uuid;
  as_name : option string;
  as_count : nat;
  as_percentage : Q
}.

(** [QuestionStatDict] while the tree is being built; the factory
    value has the empty string in [uuid] and [type], rendered [None]. *)
Record QuestionStatDict := mkQuestionStatDict {
  qsd_uuid : option uuid;
  qsd_name : string;
  qsd_type : option QuestionType;
  qsd_total_count : nat;
  qsd_answers : list AnswerStat
}.

Record SurveyStatDict := mkSurveyStatDict {
  ssd_uuid : option uuid;
  ssd_name : string;
  ssd_status : option SurveyStatus;
  ssd_questions : PyDict.t QuestionStatDict
}.

Module StatSurveyFactory.
Definition _question_factory : QuestionStatDict :=
  mkQuestionStatDict None "" None 0 [].
Definition survey_factory : SurveyStatDict :=
  mkSurveyStatDict None "" None [].
End StatSurveyFactory.

(** The serialized survey statistics: questions as a list. *)
Record SurveyStat := mkSurveyStat {
  st_uuid : option uuid;
  st_name : string;
  st_status : option SurveyStatus;
  st_questions : list QuestionStatDict
}.

Inductive StopIteration := StopIteration_raised.

Module StatSurveyService.
(** Body of the loop of [stat_survey].  [result[name]] on a
    [defaultdict] inserts the factory value for a missing key; the
    in-place updates of the nested dictionaries are written back. *)
Definition loop_body (result : PyDict.t SurveyStatDict) (item : StatRow)
    : PyDict.t SurveyStatDict :=
  let answer_data :=
    mkAnswerStat (answer_option_id__uuid item) (answer_option_id__name item)
                 (answer_count item) (percentage item) in
  let survey :=
    default StatSurveyFactory.survey_factory
      (PyDict.get (question_id__survey_id__name item) result) in
  let questions := ssd_questions survey in
  let question :=
    default StatSurveyFactory._question_factory
      (PyDict.get (question_id__name item) questions) in
  let question :=
    match qsd_uuid question with
    | None =>
        mkQuestionStatDict (Some (question_id__uuid item))
          (question_id__name item) (Some (question_id__type item))
          (total_count item) (qsd_answers question)
    | Some _ => question
    end in
  let question :=
    mkQuestionStatDict (qsd_uuid question) (qsd_name question)
      (qsd_type question) (qsd_total_count question)
      (qsd_answers question ++ [answer_data]) in
  PyDict.set (question_id__survey_id__name item)
    (mkSurveyStatDict (Some (question_id__survey_id__uuid item))
       (question_id__survey_id__name item)
       (Some (question_id__survey_id__status item))
       (PyDict.set (question_id__name item) question questions))
    result.

Definition accumulate (answer_counts : list StatRow)
    : PyDict.t SurveyStatDict :=
  foldl loop_body [] answer_counts.

(** [next(iter(result.values()))] raises [StopIteration] on an empty
    accumulator. *)
Definition stat_survey (answer_counts : list StatRow)
    : StopIteration + SurveyStat :=
  let result := accumulate answer_counts in
  match PyDict.values result with
  | [] => inl StopIteration_raised
  | final_survey :: _ =>
      inr (mkSurveyStat (ssd_uuid final_survey) (ssd_name final_survey)
             (ssd_status final_survey)
             (PyDict.values (ssd_questions final_survey)))
  end.

(** The zero rows appended to one question: its answer options in
    [AnswerOption.Meta.ordering] ([seq_id]), minus those whose uuid
    is among the answers already listed. *)
Definition null_options (db : DB) (question : QuestionStatDict)
    : list AnswerOption :=
  let answers_uuid := omap as_uuid (qsd_answers question) in
  filter (λ o, ao_uuid o ∉ answers_uuid)
    (order_by (λ a b, (ao_seq_id a <=? ao_seq_id b)%Z)
       (filter (λ o, Some (ao_question o) = qsd_uuid question)
          (answer_options db))).

Definition null_answer (o : AnswerOption) : AnswerStat :=
  mkAnswerStat (Some (ao_uuid o)) (Some (ao_name o)) 0 0%Q.

Definition add_null_answers (db : DB) (question : QuestionStatDict)
    : QuestionStatDict :=
  mkQuestionStatDict (qsd_uuid question) (qsd_name question)
    (qsd_type question) (qsd_total_count question)
    (qsd_answers question ++ (null_answer <$> null_options db question)).

Definition add_null_answer_options (db : DB) (survey_stat : SurveyStat)
    : SurveyStat :=
  mkSurveyStat (st_uuid survey_stat) (st_name survey_stat)
    (st_status survey_stat)
    (add_null_answers db <$> st_questions survey_stat).
End StatSurveyService.

(** [SurveyViewSet.stat] after the access check: query, fold, fill. *)
Definition stat_view (db : DB) (survey_uuid : uuid)
    : StopIteration + SurveyStat :=
  match StatSurveyService.stat_survey (get_survey_stat db survey_uuid) with
  | inl e => inl e
  | inr survey_stat =>
      inr (StatSurveyService.add_null_answer_options db survey_stat)
  end.

(** ** Survey.save (models.py) *)

(** The columns of the survey table that [Model.save] writes, the key
    apart: those of the record, and [col_inherited] for the columns
    that [TimeStampedBaseModel] adds, whose values the record does not
    carry.  A name in [update_fields] either names such a column or
    does not: the key, the many-to-many field [owner_user_ids] and
    unknown names do not. *)
Inductive SurveyColumn :=
  col_name | col_status | col_end_date | col_is_anonymous | col_inherited.

Inductive FieldName := column (c : SurveyColumn) | not_a_column.

#[global] Instance SurveyColumn_eq_dec : EqDecision SurveyColumn.
Proof. solve_decision. Defined.
#[global] Instance FieldName_eq_dec : EqDecision FieldName.
Proof. solve_decision. Defined.

(** The arguments that [Survey.save] forwards, by position or by
    keyword, to both calls of [super().save]: [force_insert],
    [force_update] and [update_fields] ([using] selects the database,
    of which there is one). *)
Record SaveArgs := mkSaveArgs {
  force_insert : bool;
  force_update : bool;
  update_fields : option (list FieldName)
}.

(** [save()] without arguments. *)
Definition plain_save : SaveArgs := mkSaveArgs false false None.

Inductive SaveError := ValueError | IntegrityError | DatabaseError.

(** Whether an UPDATE writes a column: all columns without
    [update_fields], the listed ones with it. *)
Definition writes (update_fields : option (list FieldName)) (c : SurveyColumn)
    : bool :=
  match update_fields with
  | None => true
  | Some names => bool_decide (column c ∈ names)
  end.

(** The row an UPDATE leaves: the written columns from the instance,
    the others as stored.  The owners are a relation of their own,
    which [save] does not write. *)
Definition updated_row (update_fields : option (list FieldName))
    (self stored : Survey) : Survey :=
  mkSurvey (s_uuid stored)
    (if writes update_fields col_name then s_name self else s_name stored)
    (if writes update_fields col_status then s_status self else s_status stored)
    (s_owner_user_ids stored)
    (if writes update_fields col_end_date then s_end_date self
     else s_end_date stored)
    (if writes update_fields col_is_anonymous then s_is_anonymous self
     else s_is_anonymous stored).

(** The row an INSERT adds: every column from the instance; a new key
    has no owners yet. *)
Definition inserted_row (self : Survey) : Survey :=
  mkSurvey (s_uuid self) (s_name self) (s_status self) []
           (s_end_date self) (s_is_anonymous self).

(** [UPDATE ... WHERE uuid = self.uuid] and [INSERT]. *)
Definition update_rows (update_fields : option (list FieldName))
    (self : Survey) (rows : list Survey) : list Survey :=
  (λ row, if decide (s_uuid row = s_uuid self)
          then updated_row update_fields self row
          else row) <$> rows.

Definition insert_row (self : Survey) (rows : list Survey) : list Survey :=
  rows ++ [inserted_row self].

(** [super().save] with the forwarded arguments, that is [Model.save], on the
    survey table.  [adding] is [self._state.adding]: true for an
    instance built by the constructor and not saved yet, false for one
    loaded from the table.  In order:
    - [force_insert] together with [force_update] or a non-empty
      [update_fields] raises [ValueError];
    - an empty [update_fields] returns at once, writing nothing;
    - a name in [update_fields] that is no column raises [ValueError];
    - when [force_insert] is given, or the instance is being added
      and no update is forced (the key has a default, so no UPDATE is
      tried), the row is inserted, and a stored row with the same key
      makes the INSERT raise [IntegrityError];
    - otherwise the stored row is updated; when there is none, a
      forced update or a non-empty [update_fields] raises
      [DatabaseError], and else the row is inserted.
    A call that wrote leaves [adding] false.  The result is the error
    raised, or the new [adding] and the table. *)
Definition Model_save (args : SaveArgs) (self : Survey) (adding : bool)
    (rows : list Survey) : SaveError + bool * list Survey :=
  let given :=
    match update_fields args with
    | Some (_ :: _) => true
    | _ => false
    end in
  if force_insert args && (force_update args || given) then inl ValueError
  else if bool_decide (update_fields args = Some []) then inr (adding, rows)
  else if bool_decide (not_a_column ∈ default [] (update_fields args))
  then inl ValueError
  else
    let stored := bool_decide (s_uuid self ∈ s_uuid <$> rows) in
    if force_insert args || (adding && negb (force_update args)) then
      if stored then inl IntegrityError
      else inr (false, insert_row self rows)
    else if stored then inr (false, update_rows (update_fields args) self rows)
    else if force_update args || given then inl DatabaseError
    else inr (false, insert_row self rows).

Definition set_end_date (end_date : option datetime) (self : Survey) : Survey :=
  mkSurvey (s_uuid self) (s_name self) (s_status self)
           (s_owner_user_ids self) end_date (s_is_anonymous self).

(** How a call of [Survey.save] ends: it returns or it raises, and in
    both cases leaves an instance, its [adding] flag and a table.
    Each write is committed on its own: an error raised by the second
    write leaves the first in the table. *)
Inductive SaveOutcome :=
  | Returned (self : Survey) (adding : bool) (rows : list Survey)
  | Raised (e : SaveError) (self : Survey) (adding : bool) (rows : list Survey).

Definition outcome_self (o : SaveOutcome) : Survey :=
  match o with Returned self _ _ | Raised _ self _ _ => self end.
Definition outcome_rows (o : SaveOutcome) : list Survey :=
  match o with Returned _ _ rows | Raised _ _ _ rows => rows end.

(** [Survey.save] with its arguments; [now] is the value of
    [timezone.now()]. *)
Definition Survey_save (args : SaveArgs) (self : Survey) (adding : bool)
    (now : datetime) (rows : list Survey) : SaveOutcome :=
  match Model_save args self adding rows with
  | inl e => Raised e self adding rows
  | inr (adding, rows) =>
      if decide (s_status self = CLOSED) then
        let self := set_end_date (Some now) self in
        match Model_save args self adding rows with
        | inl e => Raised e self adding rows
        | inr (adding, rows) => Returned self adding rows
        end
      else Returned self adding rows
  end.

Definition set_status (status : SurveyStatus) (self : Survey) : Survey :=
  mkSurvey (s_uuid self) (s_name self) status
           (s_owner_user_ids self) (s_end_date self) (s_is_anonymous self).

(** ** UserAnswerViewSet._get_or_create_user_response (api/views.py) *)

(** [UserResponse.Meta] declares an index on (survey, user) and an
    ordering, and no uniqueness constraint: an INSERT is accepted
    whatever rows the table holds. *)
Definition UserResponse_create (user : option user_id) (survey : Survey)
    (now : datetime) (db : DB) : UserResponse * DB :=
  let obj := mkUserResponse (next_uuid db) (s_uuid survey) user now None
                            IN_PROGRESS in
  (obj,
   mkDB (surveys db) (questions db) (answer_options db)
        (user_responses db ++ [obj]) (user_answers db)
        (N.succ (next_uuid db))).

(** The lookup half of [get_or_create]: the queryset
    [filter(filters)] narrowed by [get(user=user, survey=survey)]. *)
Definition get_or_create_lookup (user : option user_id) (survey : Survey)
    (user_response_uuid : option uuid) (db : DB) : list UserResponse :=
  filter (λ r, ur_user r = user ∧ ur_survey r = s_uuid survey)
    (filter (λ r, session_matches user user_response_uuid r)
       (user_responses db)).

Inductive GetOrCreate :=
  | Got (obj : UserResponse) (created : bool) (db : DB)
  | MultipleObjectsReturned.

Definition _get_or_create_user_response (user : option user_id)
    (survey : Survey) (user_response_uuid : option uuid) (now : datetime)
    (db : DB) : GetOrCreate :=
  match get_or_create_lookup user survey user_response_uuid db with
  | [obj] => Got obj false db
  | [] => let '(obj, db') := UserResponse_create user survey now db in
          Got obj true db'
  | _ => MultipleObjectsReturned
  end.

(** Two first submissions in flight at once.  Each request runs its
    lookup, then, if the lookup found nothing, its insert; the store
    executes these statements one at a time in any interleaving. *)
Record Submission := mkSubmission {
  sub_user : option user_id;
  sub_survey : Survey;
  sub_user_response_uuid : option uuid;
  sub_now : datetime
}.

Inductive Progress :=
  | Pending
  | Missed
  | Finished (obj : UserResponse) (created : bool)
  | Failed.

Definition submission_step (s : Submission) (p : Progress) (db : DB)
    : option (Progress * DB) :=
  match p with
  | Pending =>
      match get_or_create_lookup (sub_user s) (sub_survey s)
              (sub_user_response_uuid s) db with
      | [obj] => Some (Finished obj false, db)
      | [] => Some (Missed, db)
      | _ => Some (Failed, db)
      end
  | Missed =>
      let '(obj, db') :=
        UserResponse_create (sub_user s) (sub_survey s) (sub_now s) db in
      Some (Finished obj true, db')
  | Finished _ _ | Failed => None
  end.

Inductive concurrent_step (s1 s2 : Submission)
    : Progress * Progress * DB → Progress * Progress * DB → Prop :=
  | step_first p1 p1' p2 db db' :
      submission_step s1 p1 db = Some (p1', db') →
      concurrent_step s1 s2 (p1, p2, db) (p1', p2, db')
  | step_second p1 p2 p2' db db' :
      submission_step s2 p2 db = Some (p2', db') →
      concurrent_step s1 s2 (p1, p2, db) (p1, p2', db').

(** At most one session per (survey, user) for identified users. *)
Definition sessions_unique (db : DB) : Prop :=
  ∀ (survey : uuid) (user : user_id),
    length (filter (λ r, ur_survey r = survey ∧ ur_user r = Some user)
              (user_responses db)) ≤ 1.

(** ** Per-question sufficiency *)

(** The check that [QuestionAnswersValidator] applies to a question. *)
Definition question_check (question : PrefetchedQuestion) : result unit :=
  QuestionAnswersValidator._validator_map (q_type (pq_question question))
    question.

(** Outcome table of the three per-type checks: the failure message,
    if any, as a function of the question type and of the answers. *)
Definition sufficiency_error (question : PrefetchedQuestion) : option string :=
  match q_type (pq_question question), pq_answers question with
  | TEXT, [] => Some "Ответ отсутствует"
  | TEXT, answer :: _ =>
      if truthy (ua_text_answer answer) then None
      else Some "Отсутствует текст в поле"
  | SINGLE_CHOICE, [] => Some "Ответ отсутствует"
  | SINGLE_CHOICE, [_] => None
  | SINGLE_CHOICE, _ :: _ :: _ => Some "Несколько ответов для единичнго поля"
  | MULTIPLE_CHOICE, [] => Some "Ответ отсутствует"
  | MULTIPLE_CHOICE, _ :: _ => None
  end.

(** Sufficiency in the words of the specification: a text question
    needs exactly one answer, with non-empty text; a single-choice
    question exactly one answer; a multiple-choice question at least
    one. *)
Definition spec_sufficient (question : PrefetchedQuestion) : Prop :=
  match q_type (pq_question question) with
  | TEXT =>
      ∃ answer, pq_answers question = [answer]
                ∧ truthy (ua_text_answer answer) = true
  | SINGLE_CHOICE => length (pq_answers question) = 1
  | MULTIPLE_CHOICE => 1 ≤ length (pq_answers question)
  end.

(** ** The Submit-Answer pipeline in the words of the specification *)

(** Step (2) of the specification: the answer's shape matches the
    question type, both directions in one step. *)
Definition spec_AnswerShapeValidator : ISurveyValidator :=
  mkValidator "AnswerShapeValidator" (λ req db,
    match check TextAnswerValidator req db with
    | Raise e => Raise e
    | Ok _ => check ChoiceAnswerValidator req db
    end).

Definition spec_UserAnswerChecker : list ISurveyValidator :=
  [IsSurveyActiveValidator; spec_AnswerShapeValidator; CompletedSurveyValidator].

(** The row of the survey table with a given primary key. *)
Definition stored_survey (rows : list Survey) (pk : uuid) : option Survey :=
  head (filter (λ s, s_uuid s = pk) rows).

(** ** Aggregate statistics in the words of the specification *)

(** The number of completed respondents who answered the question at
    all. *)
Definition spec_respondents_who_answered (db : DB) (survey_uuid question_id : uuid)
    : nat :=
  length (remove_dups
            (ua_user_response <$>
               filter (λ a, ua_question a = question_id)
                 (completed_answers db survey_uuid))).

(** The [seq_id]s of the answer options listed for a question. *)
Definition listed_seq_ids (db : DB) (answers : list AnswerStat) : list Z :=
  omap (λ a, ao_seq_id <$> (as_uuid a ≫= find_answer_option db)) answers.

(** * Further code of the application *)

(** ** Exceptions and querysets *)

(** The exceptions that the code below can let escape or catch. *)
Inductive PyException :=
  | Exc_ValidateAnswerError (e : ValidateAnswerError)
  | Exc_DoesNotExist
  | Exc_MultipleObjectsReturned
  | Exc_AttributeError.

Inductive outcome (A : Type) : Type :=
  | Returns (a : A)
  | Throws (e : PyException).
Arguments Returns {A} a.
Arguments Throws {A} e.

Definition lift_result {A} (r : result A) : outcome A :=
  match r with
  | Ok a => Returns a
  | Raise e => Throws (Exc_ValidateAnswerError e)
  end.

(** [QuerySet.get()]: the single row of the queryset. *)
Definition queryset_get {A} (qs : list A) : outcome A :=
  match qs with
  | [] => Throws Exc_DoesNotExist
  | [x] => Returns x
  | _ :: _ :: _ => Throws Exc_MultipleObjectsReturned
  end.

(** A [for] loop whose body may raise. *)
Fixpoint for_each {A} (l : list A) (body : A → outcome unit) : outcome unit :=
  match l with
  | [] => Returns tt
  | x :: l' =>
      match body x with
      | Returns _ => for_each l' body
      | Throws e => Throws e
      end
  end.

(** [survey.questions.all()] and [question.answer_options.all()], in
    the models' default ordering by [seq_id]. *)
Definition survey_questions (db : DB) (survey_uuid : uuid) : list Question :=
  order_by (λ a b, (q_seq_id a <=? q_seq_id b)%Z)
    (filter (λ q, q_survey q = survey_uuid) (questions db)).

Definition question_answer_options (db : DB) (question : Question)
    : list AnswerOption :=
  order_by (λ a b, (ao_seq_id a <=? ao_seq_id b)%Z)
    (filter (λ o, ao_question o = q_uuid question) (answer_options db)).

(** [Survey.objects.get(uuid=...)]. *)
Definition Survey_objects_get (db : DB) (pk : uuid) : outcome Survey :=
  queryset_get (filter (λ s, s_uuid s = pk) (surveys db)).

(** ** services/validators.py: the remaining validators *)

(** A validator whose [check] may let other exceptions escape. *)
Definition Validator : Type := UserAnswerRequest → DB → outcome unit.

Definition as_validator (v : ISurveyValidator) : Validator :=
  λ req db, lift_result (check v req db).

Definition raise_error {A} (msg : string) : outcome A :=
  Throws (Exc_ValidateAnswerError (ValidateAnswerError_msg msg)).

(** [SurveyNotStartedValidator]: [DoesNotExist] is caught and turned
    into a validation error, [MultipleObjectsReturned] is not. *)
Definition SurveyNotStartedValidator : Validator :=
  λ req db,
    match queryset_get
            (filter (λ r, session_matches (uar_user req)
                            (uar_user_response_uuid req) r
                          ∧ ur_survey r = s_uuid (uar_survey req))
               (user_responses db)) with
    | Returns _ => Returns tt
    | Throws Exc_DoesNotExist =>
        raise_error "Пользователь не начал проходить опрос"
    | Throws e => Throws e
    end.

Definition OwnerCompletedSurveyValidator : ISurveyValidator :=
  mkValidator "OwnerCompletedSurveyValidator" (λ req db,
    let survey := uar_survey req in
    match uar_user req with
    | Some user =>
        if negb (s_is_anonymous survey) && negb (is_user_owner survey user)
        then check CompletedSurveyValidator req db
        else Ok tt
    | None => Ok tt
    end).

Definition UniqueQuestionsValidator : Validator :=
  λ req db,
    let questions := survey_questions db (s_uuid (uar_survey req)) in
    let unique_questions : gset string := list_to_set (q_name <$> questions) in
    if bool_decide (length questions ≠ size unique_questions)
    then raise_error "Вопросы не должны повторяться"
    else Returns tt.

Definition UniqueAnswerOptionsQuestionValidator : Validator :=
  λ req db,
    let questions := survey_questions db (s_uuid (uar_survey req)) in
    for_each questions (λ question,
      let answer_options := question_answer_options db question in
      let unique_answer_options : gset string :=
        list_to_set (ao_name <$> answer_options) in
      if bool_decide (length answer_options ≠ size unique_answer_options)
      then raise_error "Варианты ответов не должны повторяться"
      else Returns tt).

Definition SurveyNameValidator : Validator :=
  λ req db,
    match Survey_objects_get db (s_uuid (uar_survey req)) with
    | Throws e => Throws e
    | Returns survey =>
        if bool_decide (s_name survey = "")
        then raise_error "У опроса отсутствует название"
        else Returns tt
    end.

Definition SurveyQuestionsValidator : Validator :=
  λ req db,
    match Survey_objects_get db (s_uuid (uar_survey req)) with
    | Throws e => Throws e
    | Returns survey =>
        let questions := survey_questions db (s_uuid survey) in
        if bool_decide (questions = [])
        then raise_error "В опросе должен быть хотя бы один вопрос"
        else for_each questions (λ question,
               if bool_decide (q_name question = "")
               then raise_error "В опросе присутствует вопрос с пустым названием"
               else Returns tt)
    end.

Definition SurveyAnswersValidator : Validator :=
  λ req db,
    match Survey_objects_get db (s_uuid (uar_survey req)) with
    | Throws e => Throws e
    | Returns survey =>
        let questions :=
          order_by (λ a b, (q_seq_id a <=? q_seq_id b)%Z)
            (filter (λ q, q_survey q = s_uuid survey ∧ q_type q ≠ TEXT)
               (questions db)) in
        for_each questions (λ question,
          let answer_options := question_answer_options db question in
          if bool_decide (answer_options = [])
          then raise_error ("Для вопроса '" +:+ q_name question +:+
                            "' должен быть хотя бы один вариант ответа")
          else for_each answer_options (λ answer,
                 if bool_decide (ao_name answer = "")
                 then raise_error ("Для вопроса '" +:+ q_name question +:+
                                   "' должны быть заполнены все ответы")
                 else Returns tt))
    end.

(** [RequestBaseValidator.validate] for validators of this kind. *)
Definition validate_all (validators : list Validator) : Validator :=
  λ req db, for_each validators (λ validator, validator req db).

Definition UserResponseChecker : list ISurveyValidator :=
  [OwnerCompletedSurveyValidator].

Definition CompletedSurveyChecker : list Validator :=
  [as_validator CompletedSurveyValidator;
   SurveyNotStartedValidator;
   λ req db, lift_result (QuestionAnswersValidator.check req db)].

Definition CreateSurveyChecker : list Validator :=
  [SurveyNameValidator; SurveyQuestionsValidator; SurveyAnswersValidator;
   UniqueQuestionsValidator; UniqueAnswerOptionsQuestionValidator].

(** ** services/checkers.py *)

Module CanFinishChecker.
Definition check (db : DB) (user_response : option UserResponse) : bool :=
  match user_response with
  | Some user_response =>
      let unique_questions :=
        length (remove_dups
                  (ua_question <$>
                     filter (λ a, ua_user_response a = ur_uuid user_response)
                       (user_answers db))) in
      bool_decide
        (length (filter (λ q, q_survey q = ur_survey user_response)
                   (questions db))
         = unique_questions)
  | None => false
  end.
End CanFinishChecker.

Module IsCompletedChecker.
Definition check (user_response : option UserResponse) : bool :=
  match user_response with
  | Some user_response => bool_decide (ur_status user_response = COMPLETED)
  | None => false
  end.
End IsCompletedChecker.

(** ** services/complete_survey.py: CompleteSurveyService *)

(** [user_response.save()]: write the instance to its row. *)
Fixpoint UserResponse_save (self : UserResponse) (rows : list UserResponse)
    : list UserResponse :=
  match rows with
  | [] => [self]
  | row :: rows' =>
      if decide (ur_uuid row = ur_uuid self) then self :: rows'
      else row :: UserResponse_save self rows'
  end.

Definition set_user_responses (rows : list UserResponse) (db : DB) : DB :=
  mkDB (surveys db) (questions db) (answer_options db) rows
       (user_answers db) (next_uuid db).

Module CompleteSurveyService.
(** Setting an attribute of [None] raises [AttributeError]. *)
Definition complete_survey (survey : Survey) (user : option user_id)
    (user_response_uuid : option uuid) (now : datetime) (db : DB)
    : outcome DB :=
  match get_user_response db survey user user_response_uuid with
  | None => Throws Exc_AttributeError
  | Some user_response =>
      let user_response :=
        mkUserResponse (ur_uuid user_response) (ur_survey user_response)
          (ur_user user_response) (ur_created_at user_response)
          (Some now) COMPLETED in
      Returns (set_user_responses
                 (UserResponse_save user_response (user_responses db)) db)
  end.
End CompleteSurveyService.

(** The row that [complete_survey] writes for the session with key
    [pk], as a function on rows. *)
Definition completed_row (pk : uuid) (now : datetime) (x : UserResponse)
    : UserResponse :=
  if decide (ur_uuid x = pk)
  then mkUserResponse (ur_uuid x) (ur_survey x) (ur_user x) (ur_created_at x)
         (Some now) COMPLETED
  else x.

(** ** services/complete_survey.py: StatSurveyService.stat_survey *)

(** The [answer_data] dictionary the loop of [stat_survey] builds
    from one row. *)
Definition answer_data (item : StatRow) : AnswerStat :=
  mkAnswerStat (answer_option_id__uuid item) (answer_option_id__name item)
               (answer_count item) (percentage item).

(** The entry the loop of [stat_survey] holds under a question name
    after it has read [rows]: none while no row bears the name, else
    the first such row's question columns and one answer per row. *)
Definition question_entry (name : string) (rows : list StatRow)
    : option QuestionStatDict :=
  match filter (λ row, question_id__name row = name) rows with
  | [] => None
  | first :: others =>
      Some (mkQuestionStatDict (Some (question_id__uuid first)) name
              (Some (question_id__type first)) (total_count first)
              (answer_data <$> first :: others))
  end.

(** ** api/views.py: UserAnswerViewSet._build_response *)

(** A response: its status code and the cookies it sets. *)
Record Response := mkResponse {
  status_code : nat;
  set_cookies : list (string * uuid)
}.

Definition HTTP_204_NO_CONTENT : nat := 204.

Definition _build_response (user : option user_id) (created : bool)
    (user_response : UserResponse) : Response :=
  let response := mkResponse HTTP_204_NO_CONTENT [] in
  if negb (bool_decide (is_Some user)) && created
  then mkResponse (status_code response)
         (set_cookies response ++ [("user_response_uuid", ur_uuid user_response)])
  else response.

(** [request.COOKIES.get("user_response_uuid")] of the request that
    follows a response, sent by a client that held [cookie] before. *)
Definition next_cookie (cookie : option uuid) (response : Response)
    : option uuid :=
  match last (filter (λ kv, kv.1 = "user_response_uuid") (set_cookies response)) with
  | Some kv => Some kv.2
  | None => cookie
  end.

(** ** services/complete_survey.py: StatSurveyService.stat_user_survey *)

(** A Python dict with keys of any hashable type, in insertion order. *)
Module Dict.
Definition t (K V : Type) : Type := list (K * V).

Definition get {K V} `{EqDecision K} (k : K) (d : t K V) : option V :=
  snd <$> head (filter (λ kv, kv.1 = k) d).

Fixpoint set {K V} `{EqDecision K} (k : K) (v : V) (d : t K V) : t K V :=
  match d with
  | [] => [(k, v)]
  | (k', v') :: d' =>
      if decide (k' = k) then (k, v) :: d' else (k', v') :: set k v d'
  end.

Definition values {K V} (d : t K V) : list V := snd <$> d.
End Dict.

(** One object of the queryset of [get_survey_user_stat]: an answer
    row with the annotations the fold reads. *)
Record UserStatRow := mkUserStatRow {
  usr_survey_uuid : uuid;
  usr_survey_name : string;
  usr_survey_status : SurveyStatus;
  usr_user_id : user_id;
  usr_first_name : string;
  usr_last_name : string;
  usr_photo : option string;
  usr_completed_at : option datetime;
  usr_question_uuid : uuid;
  usr_question_name : string;
  usr_question_type : QuestionType;
  usr_answer_uuid : option uuid;
  usr_answer_name : option string;
  usr_text_answer : option string
}.

(** The two shapes of an answer entry: [{"name": ...}] for a text
    question, [{"uuid": ..., "name": ...}] otherwise. *)
Inductive AnswerUserStat :=
  | AnswerName (name : option string)
  | AnswerUuidName (uuid : option uuid) (name : option string).

Record QuestionUserStatDict := mkQuestionUserStatDict {
  qus_uuid : uuid;
  qus_name : string;
  qus_type : QuestionType;
  qus_answers : list AnswerUserStat
}.

(** [UserStatDict]; the factory value has the empty string in [uuid],
    [photo] and [user_completed_at], rendered [None]. *)
Record UserStatDict := mkUserStatDict {
  usd_uuid : option user_id;
  usd_name : string;
  usd_photo : option string;
  usd_user_completed_at : option datetime;
  usd_questions : list QuestionUserStatDict
}.

Record SurveyUserStatDict := mkSurveyUserStatDict {
  susd_uuid : option uuid;
  susd_name : string;
  susd_status : option SurveyStatus;
  susd_users : Dict.t user_id UserStatDict
}.

(** services/factories.py *)
Definition _users_factory : UserStatDict := mkUserStatDict None "" None None [].
Definition survey_user_factory : SurveyUserStatDict :=
  mkSurveyUserStatDict None "" None [].

(** [not user["uuid"]]: the empty string of the factory and the
    integer 0 are falsy. *)
Definition falsy_user_uuid (u : option user_id) : bool :=
  match u with
  | None => true
  | Some n => bool_decide (n = 0%N)
  end.

(** The answer entry appended to a question entry of type
    [question_type]. *)
Definition user_answer (question_type : QuestionType) (survey_data : UserStatRow)
    : AnswerUserStat :=
  if decide (question_type = TEXT) then AnswerName (usr_text_answer survey_data)
  else AnswerUuidName (usr_answer_uuid survey_data) (usr_answer_name survey_data).

(** [for question in user["questions"]: if question["uuid"] == ...:
    question["answers"].append(answer); break]. *)
Fixpoint append_answer (survey_data : UserStatRow)
    (questions : list QuestionUserStatDict) : list QuestionUserStatDict :=
  match questions with
  | [] => []
  | question :: rest =>
      if decide (qus_uuid question = usr_question_uuid survey_data) then
        mkQuestionUserStatDict (qus_uuid question) (qus_name question)
          (qus_type question)
          (qus_answers question ++ [user_answer (qus_type question) survey_data])
        :: rest
      else question :: append_answer survey_data rest
  end.

(** What one row does to [user["questions"]]: append an entry for the
    row's question unless one exists, then append the answer to the
    first entry of that question. *)
Definition question_step (questions : list QuestionUserStatDict)
    (survey_data : UserStatRow) : list QuestionUserStatDict :=
  let question_exists :=
    existsb (λ q, bool_decide (qus_uuid q = usr_question_uuid survey_data))
      questions in
  let questions :=
    if question_exists then questions
    else questions ++
           [mkQuestionUserStatDict (usr_question_uuid survey_data)
              (usr_question_name survey_data) (usr_question_type survey_data) []]
  in
  append_answer survey_data questions.

(** Body of the loop of [stat_user_survey]. *)
Definition user_loop_body (result : PyDict.t SurveyUserStatDict)
    (survey_data : UserStatRow) : PyDict.t SurveyUserStatDict :=
  let survey :=
    default survey_user_factory
      (PyDict.get (usr_survey_name survey_data) result) in
  let users := susd_users survey in
  let user :=
    default _users_factory (Dict.get (usr_user_id survey_data) users) in
  let user :=
    if falsy_user_uuid (usd_uuid user) then
      mkUserStatDict (Some (usr_user_id survey_data))
        (usr_first_name survey_data +:+ " " +:+ usr_last_name survey_data)
        (usr_photo survey_data) (usr_completed_at survey_data)
        (usd_questions user)
    else user in
  let user :=
    mkUserStatDict (usd_uuid user) (usd_name user) (usd_photo user)
      (usd_user_completed_at user)
      (question_step (usd_questions user) survey_data) in
  PyDict.set (usr_survey_name survey_data)
    (mkSurveyUserStatDict (Some (usr_survey_uuid survey_data))
       (usr_survey_name survey_data) (Some (usr_survey_status survey_data))
       (Dict.set (usr_user_id survey_data) user users))
    result.

(** The value [stat_user_survey] returns: [{"users": []}] alone when
    no row was read, else the first survey with its users as a list. *)
Record SurveyUserStat := mkSurveyUserStat {
  sus_survey : option (option uuid * string * option SurveyStatus);
  sus_users : list UserStatDict
}.

Definition stat_user_survey (answer_counts : list UserStatRow)
    : SurveyUserStat :=
  let result := foldl user_loop_body [] answer_counts in
  match PyDict.values result with
  | [] => mkSurveyUserStat None []
  | final_survey :: _ =>
      mkSurveyUserStat
        (Some (susd_uuid final_survey, susd_name final_survey,
               susd_status final_survey))
        (Dict.values (susd_users final_survey))
  end.

(** The list [user["questions"]] after the loop has read the rows
    [rows] of one user. *)
Definition user_questions (rows : list UserStatRow)
    : list QuestionUserStatDict :=
  foldl question_step [] rows.

(** The first entry of a question in [user_questions rows], in closed
    form: none while no row bears on the question, else the first such
    row's question columns and one answer per row. *)
Definition user_question_entry (question_uuid : uuid) (rows : list UserStatRow)
    : option QuestionUserStatDict :=
  match filter (λ row, usr_question_uuid row = question_uuid) rows with
  | [] => None
  | first :: others =>
      Some (mkQuestionUserStatDict question_uuid (usr_question_name first)
              (usr_question_type first)
              (user_answer (usr_question_type first) <$> first :: others))
  end.

(** The entry the loop of [stat_user_survey] holds under a user id
    after it has read [rows], for a non-zero id. *)
Definition user_entry (user : user_id) (rows : list UserStatRow)
    : option UserStatDict :=
  match filter (λ row, usr_user_id row = user) rows with
  | [] => None
  | first :: others =>
      Some (mkUserStatDict (Some user)
              (usr_first_name first +:+ " " +:+ usr_last_name first)
              (usr_photo first) (usr_completed_at first)
              (user_questions (first :: others)))
  end.

(** ** Sample data *)

Module Sample.
Definition survey : Survey :=
  mkSurvey 1 "Survey 1" ACTIVE [7%N] None false.
Definition session : UserResponse :=
  mkUserResponse 10 1 (Some 7%N) 100 None IN_PROGRESS.
Definition multi : Question :=
  mkQuestion 2 1 1 "Вопрос 1" MULTIPLE_CHOICE true.
Definition single : Question :=
  mkQuestion 3 1 2 "Вопрос 2" SINGLE_CHOICE true.
Definition text : Question :=
  mkQuestion 4 1 3 "Вопрос 3" TEXT true.
Definition option_A : AnswerOption := mkAnswerOption 21 2 1 "Option 1" true.
Definition option_B : AnswerOption := mkAnswerOption 22 2 2 "Option 2" true.
Definition option_C : AnswerOption := mkAnswerOption 23 2 3 "Option 3" true.
Definition single_A : AnswerOption := mkAnswerOption 31 3 1 "Option 1" true.
Definition single_B : AnswerOption := mkAnswerOption 32 3 2 "Option 2" true.

(** An active survey with three questions, one session in progress
    and no answers yet. *)
Definition db : DB :=
  mkDB [survey] [multi; single; text]
       [option_A; option_B; option_C; single_A; single_B]
       [session] [] 1000.

(** The same survey where the respondent holds two answers to the
    text question and one to each choice question. *)
Definition db_two_texts : DB :=
  mkDB [survey] [multi; single; text]
       [option_A; option_B; option_C; single_A; single_B]
       [session]
       [mkUserAnswer 50 10 4 None (Some "first");
        mkUserAnswer 51 10 4 None (Some "second");
        mkUserAnswer 52 10 2 (Some 21%N) None;
        mkUserAnswer 53 10 3 (Some 31%N) None]
       1000.

Definition complete_request : UserAnswerRequest :=
  mkUserAnswerRequest (Some 7%N) survey None None None None.

(** The respondent has completed the survey and now posts an option
    reference as the answer to the text question. *)
Definition completed_session : UserResponse :=
  mkUserResponse 10 1 (Some 7%N) 100 (Some 200%Z) COMPLETED.

Definition db_completed : DB :=
  mkDB [survey] [multi; single; text]
       [option_A; option_B; option_C; single_A; single_B]
       [completed_session]
       [mkUserAnswer 50 10 4 None (Some "first");
        mkUserAnswer 52 10 2 (Some 21%N) None;
        mkUserAnswer 53 10 3 (Some 31%N) None]
       1000.

Definition option_for_text_request : UserAnswerRequest :=
  mkUserAnswerRequest (Some 7%N) survey (Some 4%N) (Some "21") None None.

(** A draft survey never saved as closed. *)
Definition draft : Survey := mkSurvey 1 "Survey 1" DRAFT [7%N] None false.

Definition other_survey : Survey := mkSurvey 2 "Survey 2" ACTIVE [8%N] None false.

(** Two respondents completed the survey, each selecting options 1
    and 3 of the multiple-choice question and answering the text
    question; a third one is still in progress. *)
Definition db_stat : DB :=
  mkDB [survey] [multi; text]
       [option_A; option_B; option_C]
       [mkUserResponse 10 1 (Some 7%N) 100 (Some 200%Z) COMPLETED;
        mkUserResponse 11 1 (Some 8%N) 101 (Some 201%Z) COMPLETED;
        mkUserResponse 12 1 (Some 9%N) 102 None IN_PROGRESS]
       [mkUserAnswer 50 10 2 (Some 21%N) None;
        mkUserAnswer 51 10 2 (Some 23%N) None;
        mkUserAnswer 52 10 4 None (Some "text 1");
        mkUserAnswer 53 11 2 (Some 21%N) None;
        mkUserAnswer 54 11 2 (Some 23%N) None;
        mkUserAnswer 55 11 4 None (Some "text 2");
        mkUserAnswer 56 12 2 (Some 22%N) None]
       1000.

Definition stat_request : UserAnswerRequest :=
  mkUserAnswerRequest (Some 7%N) survey None None None None.

(** The multiple-choice question as the fold over the rows of
    [db_stat] groups it, and the grouped survey holding it. *)
Definition grouped_multi : QuestionStatDict :=
  mkQuestionStatDict (Some 2%N) "Вопрос 1" (Some MULTIPLE_CHOICE) 4
    [mkAnswerStat (Some 21%N) (Some "Option 1") 2 (5000 # 100)%Q;
     mkAnswerStat (Some 23%N) (Some "Option 3") 2 (5000 # 100)%Q].

Definition grouped_survey : SurveyStat :=
  mkSurveyStat (Some 1%N) "Survey 1" (Some ACTIVE) [grouped_multi].

(** Nobody has started the survey; user 7 sends two first
    submissions at once. *)
Definition db_fresh : DB :=
  mkDB [survey] [multi; single; text]
       [option_A; option_B; option_C; single_A; single_B]
       [] [] 1000.

Definition first_submission : Submission :=
  mkSubmission (Some 7%N) survey None 100.
Definition second_submission : Submission :=
  mkSubmission (Some 7%N) survey None 101.

(** A survey of two questions of which the respondent answered the
    multiple-choice one only. *)
Definition db_one_unanswered : DB :=
  mkDB [survey] [multi; single]
       [option_A; option_B; option_C; single_A; single_B]
       [session]
       [mkUserAnswer 50 10 2 (Some 21%N) None]
       1000.

(** The rows of the per-user statistics: user 7 selected two options
    of the multiple-choice question and answered the text question,
    user 8 answered the text question. *)
Definition user_rows : list UserStatRow :=
  [mkUserStatRow 1 "Survey 1" ACTIVE 7 "Ann" "Lee" None (Some 200%Z)
     2 "Вопрос 1" MULTIPLE_CHOICE (Some 21%N) (Some "Option 1") None;
   mkUserStatRow 1 "Survey 1" ACTIVE 7 "Ann" "Lee" None (Some 200%Z)
     2 "Вопрос 1" MULTIPLE_CHOICE (Some 23%N) (Some "Option 3") None;
   mkUserStatRow 1 "Survey 1" ACTIVE 7 "Ann" "Lee" None (Some 200%Z)
     4 "Вопрос 3" TEXT None None (Some "free text");
   mkUserStatRow 1 "Survey 1" ACTIVE 8 "Bo" "Ray" None (Some 300%Z)
     4 "Вопрос 3" TEXT None None (Some "other text")].

(** The multiple-choice question after its type was changed to
    single-choice, and the table at that moment: the session had
    selected options 1 and 2 while the question was multiple-choice,
    and both answers are still stored. *)
Definition single_retyped : Question :=
  mkQuestion 2 1 1 "Вопрос 1" SINGLE_CHOICE true.

Definition db_retyped : DB :=
  mkDB [survey] [single_retyped; single; text]
       [option_A; option_B; option_C; single_A; single_B]
       [session]
       [mkUserAnswer 1000 10 2 (Some 21%N) None;
        mkUserAnswer 1001 10 2 (Some 22%N) None]
       1002.
End Sample.

(** * Properties *)

(** ** Answer engine *)

Section AnswerTable.
Implicit Types (db : DB) (a : UserAnswer) (rows : list UserAnswer).

Lemma pk_ok_create db r q o t :
  answers_pk_ok db → answers_pk_ok (UserAnswer_create r q o t db).
Proof.
  intros [Hnd Hlt]. split; simpl.
  - rewrite fmap_app. apply NoDup_app. split; [done|]. split.
    + intros x Hx Hin. apply list_elem_of_fmap in Hx as (a & -> & Ha).
      rewrite Forall_forall in Hlt. specialize (Hlt _ Ha).
      simpl in Hin. apply list_elem_of_singleton in Hin. lia.
    + simpl. apply NoDup_singleton.
  - apply Forall_app. split.
    + eapply Forall_impl; [exact Hlt|]. simpl. intros; lia.
    + apply Forall_singleton. simpl. lia.
Qed.

Lemma pk_ok_delete db pk :
  answers_pk_ok db → answers_pk_ok (UserAnswer_delete pk db).
Proof.
  intros [Hnd Hlt]. split; simpl.
  - clear Hlt. induction (user_answers db) as [|a l IH]; [constructor|].
    simpl in Hnd. apply NoDup_cons in Hnd as [Hni Hnd].
    rewrite filter_cons. case_decide; [|by apply IH].
    simpl. apply NoDup_cons. split; [|by apply IH].
    intros Hin. apply Hni. apply list_elem_of_fmap in Hin as (b & Hb & Hin).
    apply list_elem_of_filter in Hin as [_ Hin].
    apply list_elem_of_fmap. by exists b.
  - rewrite Forall_forall in Hlt. apply Forall_forall. intros a Ha.
    apply list_elem_of_filter in Ha as [_ Ha]. by apply Hlt.
Qed.

Lemma fmap_uuid_update (f : UserAnswer → UserAnswer) rows :
  (∀ a, ua_uuid (f a) = ua_uuid a) →
  ua_uuid <$> (f <$> rows) = ua_uuid <$> rows.
Proof.
  intros Hf. rewrite <- list_fmap_compose. apply list_fmap_ext.
  intros ? a _. apply Hf.
Qed.

Lemma pk_ok_save_text_answer db pk t :
  answers_pk_ok db → answers_pk_ok (UserAnswer_save_text_answer pk t db).
Proof.
  intros [Hnd Hlt]. split; simpl.
  - rewrite fmap_uuid_update; [done|]. intros a. by case_decide.
  - apply Forall_fmap. eapply Forall_impl; [exact Hlt|].
    intros a Ha. simpl. by case_decide.
Qed.

Lemma pk_ok_save_answer_option db pk o :
  answers_pk_ok db → answers_pk_ok (UserAnswer_save_answer_option pk o db).
Proof.
  intros [Hnd Hlt]. split; simpl.
  - rewrite fmap_uuid_update; [done|]. intros a. by case_decide.
  - apply Forall_fmap. eapply Forall_impl; [exact Hlt|].
    intros a Ha. simpl. by case_decide.
Qed.

Lemma pk_ok_handle_answer question o t user_response db :
  answers_pk_ok db →
  answers_pk_ok (_handle_answer question o t user_response db).
Proof.
  intros Hok. unfold _handle_answer, QuestionHandlerFactory.get_strategy.
  destruct (q_type question); simpl.
  - unfold SingleChoiceQuestionStrategy.handle_answer. simpl.
    destruct (head _); [by apply pk_ok_save_answer_option|by apply pk_ok_create].
  - unfold MultipleChoiceQuestionStrategy.handle_answer. simpl.
    destruct (head _); [by apply pk_ok_delete|by apply pk_ok_create].
  - unfold TextQuestionStrategy.handle_answer. simpl.
    destruct (head _).
    + unfold TextQuestionStrategy._perform_answer_update.
      destruct (truthy t); [by apply pk_ok_save_text_answer|by apply pk_ok_delete].
    + unfold TextQuestionStrategy._perform_answer_create. simpl.
      destruct (truthy t); [by apply pk_ok_create|done].
Qed.
End AnswerTable.

Section ListFacts.
Context {A : Type}.

Lemma filter_all (P : A → Prop) `{!∀ x, Decision (P x)} (l : list A) :
  (∀ x, x ∈ l → P x) → filter P l = l.
Proof.
  induction l as [|x l IH]; intros Hall; [done|].
  rewrite filter_cons_True by (apply Hall; left).
  f_equal. apply IH. intros y Hy. apply Hall. by right.
Qed.

Lemma filter_none (P : A → Prop) `{!∀ x, Decision (P x)} (l : list A) :
  (∀ x, x ∈ l → ¬ P x) → filter P l = [].
Proof.
  induction l as [|x l IH]; intros Hall; [done|].
  rewrite filter_cons_False by (apply Hall; left).
  apply IH. intros y Hy. apply Hall. by right.
Qed.

Lemma filter_comm (P Q : A → Prop)
    `{!∀ x, Decision (P x), !∀ x, Decision (Q x)} (l : list A) :
  filter P (filter Q l) = filter Q (filter P l).
Proof. rewrite !list_filter_filter. apply list_filter_iff. tauto. Qed.

Lemma NoDup_fmap_eq {B} (f : A → B) (l : list A) (x y : A) :
  NoDup (f <$> l) → x ∈ l → y ∈ l → f x = f y → x = y.
Proof.
  induction l as [|z l IH]; intros Hnd Hx Hy Hf; [by inversion Hx|].
  simpl in Hnd. apply NoDup_cons in Hnd as [Hni Hnd].
  apply elem_of_cons in Hx as [->|Hx]; apply elem_of_cons in Hy as [->|Hy].
  - done.
  - exfalso. apply Hni. rewrite Hf. apply list_elem_of_fmap. by exists y.
  - exfalso. apply Hni. rewrite <- Hf. apply list_elem_of_fmap. by exists x.
  - by apply IH.
Qed.

Lemma head_filter_elem (P : A → Prop) `{!∀ x, Decision (P x)}
    (l : list A) (x : A) :
  head (filter P l) = Some x → P x ∧ x ∈ l.
Proof.
  intros Hhd. apply head_Some_elem_of in Hhd.
  by apply list_elem_of_filter in Hhd.
Qed.
End ListFacts.

Section MultipleChoice.
Variables (question : Question) (user_response : UserResponse).
Hypothesis Htype : q_type question = MULTIPLE_CHOICE.

Let r := ur_uuid user_response.
Let q := q_uuid question.

Lemma multiple_handle_unfold o t db :
  _handle_answer question o t user_response db =
  match head (answers_of_option db r q (ao_uuid <$> o)) with
  | Some existing => UserAnswer_delete (ua_uuid existing) db
  | None => UserAnswer_create r q (ao_uuid <$> o) None db
  end.
Proof. unfold _handle_answer. by rewrite Htype. Qed.

Lemma answers_of_option_delete db pk o :
  answers_of_option (UserAnswer_delete pk db) r q o =
  filter (λ a, ua_uuid a ≠ pk) (answers_of_option db r q o).
Proof.
  unfold answers_of_option, answers_of, UserAnswer_delete. simpl.
  rewrite (filter_comm _ (λ a, ua_uuid a ≠ pk)).
  by rewrite (filter_comm _ (λ a, ua_uuid a ≠ pk)).
Qed.

Lemma answers_of_option_create db o o' :
  answers_of_option (UserAnswer_create r q o None db) r q o' =
  answers_of_option db r q o' ++
    (if decide (o = o') then [mkUserAnswer (next_uuid db) r q o None] else []).
Proof.
  unfold answers_of_option, answers_of, UserAnswer_create. simpl.
  rewrite !filter_app. f_equal.
  rewrite (filter_cons_True _ (mkUserAnswer _ _ _ _ _)) by done.
  by rewrite filter_nil, filter_cons, filter_nil.
Qed.

(** Submitting an option flips the presence of its answer. *)
Lemma multiple_toggle_same o t db :
  length (answers_of_option db r q (ao_uuid <$> o)) ≤ 1 →
  length (answers_of_option (_handle_answer question o t user_response db)
            r q (ao_uuid <$> o))
  = 1 - length (answers_of_option db r q (ao_uuid <$> o)).
Proof.
  intros Hle. rewrite multiple_handle_unfold.
  destruct (answers_of_option db r q (ao_uuid <$> o)) as [|a l] eqn:E; simpl.
  - rewrite answers_of_option_create, E. by rewrite decide_True.
  - destruct l; [|simpl in Hle; lia].
    rewrite answers_of_option_delete, E.
    by rewrite filter_cons_False, filter_nil by (intros H; by apply H).
Qed.

(** Submitting an option leaves the answers for the others alone. *)
Lemma multiple_toggle_other o o' t db :
  answers_pk_ok db → ao_uuid <$> o' ≠ ao_uuid <$> o →
  answers_of_option (_handle_answer question o t user_response db)
    r q (ao_uuid <$> o')
  = answers_of_option db r q (ao_uuid <$> o').
Proof.
  intros [Hnd _] Hne. rewrite multiple_handle_unfold.
  destruct (head _) as [a|] eqn:E.
  - rewrite answers_of_option_delete. apply filter_all.
    intros x Hx Heq.
    apply head_filter_elem in E as [Ha Hain].
    apply list_elem_of_filter in Hain as [_ Hain].
    apply list_elem_of_filter in Hx as [Hxo Hx].
    apply list_elem_of_filter in Hx as [_ Hx].
    assert (x = a) as -> by (by eapply (NoDup_fmap_eq ua_uuid)).
    congruence.
  - rewrite answers_of_option_create.
    rewrite decide_False by congruence. apply app_nil_r.
Qed.

Lemma multiple_submit_parity (O : option AnswerOption) os db :
  answers_pk_ok db →
  length (answers_of_option db r q (ao_uuid <$> O)) ≤ 1 →
  length (answers_of_option (submit_options question user_response os db)
            r q (ao_uuid <$> O))
  = if Nat.odd (length (answers_of_option db r q (ao_uuid <$> O))
                + length (filter (λ o, ao_uuid <$> o = ao_uuid <$> O) os))
    then 1 else 0.
Proof.
  revert db. induction os as [|o os IH]; intros db Hok Hle.
  - simpl. rewrite Nat.add_0_r.
    destruct (length _) as [|[|?]]; simpl in *; [done|done|lia].
  - simpl. pose proof (pk_ok_handle_answer question o None user_response db Hok)
      as Hok'.
    rewrite filter_cons. case_decide as Ho.
    + pose proof (multiple_toggle_same o None db) as Hflip.
      rewrite Ho in Hflip. specialize (Hflip Hle).
      rewrite IH; [|done|lia]. rewrite Hflip. simpl length.
      destruct (length (answers_of_option db r q (ao_uuid <$> O)))
        as [|[|?]]; [| |lia].
      * done.
      * simpl Nat.sub. rewrite Nat.add_0_l.
        replace (1 + S (length (filter (λ o0, ao_uuid <$> o0 = ao_uuid <$> O) os)))
          with (S (S (length (filter (λ o0, ao_uuid <$> o0 = ao_uuid <$> O) os))))
          by lia.
        by rewrite Nat.odd_succ_succ.
    + rewrite IH; [|done|].
      * by rewrite multiple_toggle_other by (done || congruence).
      * by rewrite multiple_toggle_other by (done || congruence).
Qed.
End MultipleChoice.

(** C2.  For a multiple-choice question and a fixed session, starting
    with no answer for option O, any series of choice submissions in
    which O occurs an odd number of times leaves exactly one answer
    for (session, question, O), an even number of times leaves none;
    and a submission of O leaves the answers for every other option of
    the question as they were. *)
Theorem multiple_choice_toggle
    (question : Question) (user_response : UserResponse)
    (O : option AnswerOption) (os : list (option AnswerOption)) (db : DB) :
  q_type question = MULTIPLE_CHOICE →
  answers_pk_ok db →
  answers_of_option db (ur_uuid user_response) (q_uuid question)
    (ao_uuid <$> O) = [] →
  length (answers_of_option (submit_options question user_response os db)
            (ur_uuid user_response) (q_uuid question) (ao_uuid <$> O))
  = (if Nat.odd (length (filter (λ o, ao_uuid <$> o = ao_uuid <$> O) os))
     then 1 else 0)
  ∧ ∀ (db' : DB) (O' : option AnswerOption),
      answers_pk_ok db' → ao_uuid <$> O' ≠ ao_uuid <$> O →
      answers_of_option (_handle_answer question O None user_response db')
        (ur_uuid user_response) (q_uuid question) (ao_uuid <$> O')
      = answers_of_option db' (ur_uuid user_response) (q_uuid question)
          (ao_uuid <$> O').
Proof.
  intros Htype Hok Hnone. split.
  - rewrite multiple_submit_parity by (rewrite ?Hnone; simpl; done || lia).
    by rewrite Hnone.
  - intros db' O' Hok' Hne. by apply multiple_toggle_other.
Qed.

Lemma multiple_choice_toggle_witness :
  q_type Sample.multi = MULTIPLE_CHOICE
  ∧ answers_pk_ok Sample.db
  ∧ answers_of_option Sample.db (ur_uuid Sample.session) (q_uuid Sample.multi)
      (ao_uuid <$> Some Sample.option_A) = []
  ∧ length (answers_of_option
              (submit_options Sample.multi Sample.session
                 [Some Sample.option_A; Some Sample.option_A;
                  Some Sample.option_B] Sample.db)
              (ur_uuid Sample.session) (q_uuid Sample.multi)
              (ao_uuid <$> Some Sample.option_A))
    = 0.
Proof.
  assert (Hok : answers_pk_ok Sample.db) by (split; simpl; constructor).
  split; [reflexivity|]. split; [exact Hok|]. split; [reflexivity|].
  exact (proj1 (multiple_choice_toggle Sample.multi Sample.session
                  (Some Sample.option_A)
                  [Some Sample.option_A; Some Sample.option_A;
                   Some Sample.option_B]
                  Sample.db eq_refl Hok eq_refl)).
Defined.

Section SingleChoiceAndText.
Variables (question : Question) (user_response : UserResponse).

Let r := ur_uuid user_response.
Let q := q_uuid question.

Lemma filter_fmap_stable {A} (P : A → Prop) `{!∀ x, Decision (P x)}
    (f : A → A) (l : list A) :
  (∀ x, P (f x) ↔ P x) → filter P (f <$> l) = f <$> filter P l.
Proof.
  intros Hf. induction l as [|x l IH]; [done|].
  rewrite fmap_cons, !filter_cons.
  destruct (decide (P x)) as [Hx|Hx].
  - rewrite decide_True by (by apply Hf). by rewrite fmap_cons, IH.
  - rewrite decide_False by (by rewrite Hf). done.
Qed.

Lemma answers_of_create db o t :
  answers_of (UserAnswer_create r q o t db) r q =
  answers_of db r q ++ [mkUserAnswer (next_uuid db) r q o t].
Proof.
  unfold answers_of, UserAnswer_create. simpl.
  rewrite filter_app. f_equal. by rewrite filter_cons_True.
Qed.


Lemma answers_of_save_answer_option db pk o :
  answers_of (UserAnswer_save_answer_option pk o db) r q =
  (λ a, if decide (ua_uuid a = pk)
        then mkUserAnswer (ua_uuid a) (ua_user_response a) (ua_question a)
                          o (ua_text_answer a)
        else a) <$> answers_of db r q.
Proof.
  unfold answers_of, UserAnswer_save_answer_option. simpl.
  apply filter_fmap_stable. intros a. by case_decide.
Qed.

Lemma answers_of_save_text_answer db pk t :
  answers_of (UserAnswer_save_text_answer pk t db) r q =
  (λ a, if decide (ua_uuid a = pk)
        then mkUserAnswer (ua_uuid a) (ua_user_response a) (ua_question a)
                          (ua_answer_option a) t
        else a) <$> answers_of db r q.
Proof.
  unfold answers_of, UserAnswer_save_text_answer. simpl.
  apply filter_fmap_stable. intros a. by case_decide.
Qed.

(** One single-choice submission leaves exactly one answer, which
    refers to the submitted option. *)
Lemma single_handle_one o t db :
  q_type question = SINGLE_CHOICE →
  length (answers_of db r q) ≤ 1 →
  ∃ a, answers_of (_handle_answer question o t user_response db) r q = [a]
       ∧ ua_answer_option a = ao_uuid <$> o.
Proof.
  intros Htype Hle. unfold _handle_answer. rewrite Htype. simpl.
  unfold SingleChoiceQuestionStrategy.handle_answer. simpl.
  fold r q. destruct (answers_of db r q) as [|a l] eqn:E; simpl.
  - eexists. rewrite answers_of_create, E. split; [reflexivity|done].
  - destruct l; [|simpl in Hle; lia].
    eexists. rewrite answers_of_save_answer_option, E. simpl.
    rewrite decide_True by done. split; [reflexivity|done].
Qed.

(** One single-choice submission, whatever the session held: the
    first answer refers to the submitted option, and a row is added
    only when there was none. *)
Lemma single_handle_first o t db :
  q_type question = SINGLE_CHOICE →
  ∃ a, head (answers_of (_handle_answer question o t user_response db) r q)
       = Some a
       ∧ ua_answer_option a = ao_uuid <$> o
       ∧ length (answers_of (_handle_answer question o t user_response db) r q)
         = Nat.max 1 (length (answers_of db r q)).
Proof.
  intros Htype. unfold _handle_answer. rewrite Htype. simpl.
  unfold SingleChoiceQuestionStrategy.handle_answer. simpl.
  fold r q. destruct (answers_of db r q) as [|a l] eqn:E; simpl.
  - eexists. rewrite answers_of_create, E. split; [reflexivity|done].
  - eexists. rewrite answers_of_save_answer_option, E. simpl.
    rewrite decide_True by done. split; [reflexivity|].
    split; [done|]. by rewrite length_fmap.
Qed.

Lemma single_submit_first os db :
  q_type question = SINGLE_CHOICE →
  os ≠ [] →
  ∃ a, head (answers_of (submit_options question user_response os db) r q)
       = Some a
       ∧ Some (ua_answer_option a)
         = (λ o : option AnswerOption, ao_uuid <$> o) <$> last os
       ∧ length (answers_of (submit_options question user_response os db) r q)
         = Nat.max 1 (length (answers_of db r q)).
Proof.
  intros Htype. revert db. induction os as [|o os IH]; intros db Hne; [done|].
  destruct (single_handle_first o None db Htype) as (a & Ha & Hopt & Hlen).
  destruct os as [|o' os].
  - exists a. simpl. split; [done|]. split; [by rewrite Hopt|done].
  - change (submit_options question user_response (o :: o' :: os) db)
      with (submit_options question user_response (o' :: os)
              (_handle_answer question o None user_response db)).
    change (last (o :: o' :: os)) with (last (o' :: os)).
    destruct (IH (_handle_answer question o None user_response db)
                ltac:(done)) as (a' & Ha' & Hopt' & Hlen').
    exists a'. split; [done|]. split; [done|]. rewrite Hlen', Hlen. lia.
Qed.
End SingleChoiceAndText.

(** C3 (as the code has it).  For a single-choice question and a fixed
    session, after any non-empty series of submissions the first
    answer for (session, question) refers to the option submitted
    last, and the number of answers is the number the session held
    before, or one if it held none: a submission updates the first
    answer in place and never removes another.  Exactly one answer
    exists afterwards exactly when the session held at most one
    before; submitting the same option twice in a row is the instance
    [os = [O; O]]. *)
Theorem single_choice_last_wins
    (question : Question) (user_response : UserResponse)
    (os : list (option AnswerOption)) (db : DB) :
  q_type question = SINGLE_CHOICE →
  os ≠ [] →
  let answers := answers_of db (ur_uuid user_response) (q_uuid question) in
  let answers' :=
    answers_of (submit_options question user_response os db)
      (ur_uuid user_response) (q_uuid question) in
  length answers' = Nat.max 1 (length answers)
  ∧ (∃ a, head answers' = Some a
          ∧ Some (ua_answer_option a)
            = (λ o : option AnswerOption, ao_uuid <$> o) <$> last os)
  ∧ ((∃ a, answers' = [a]
           ∧ Some (ua_answer_option a)
             = (λ o : option AnswerOption, ao_uuid <$> o) <$> last os)
     ↔ length answers ≤ 1).
Proof.
  intros Htype Hne answers answers'.
  destruct (single_submit_first question user_response os db Htype Hne)
    as (a & Ha & Hopt & Hlen).
  fold answers answers' in Ha, Hlen.
  split; [exact Hlen|]. split; [by exists a|]. split.
  - intros (b & Hb & _). rewrite Hb in Hlen. simpl in Hlen. lia.
  - intros Hle. exists a. split; [|done].
    destruct answers' as [|b [|c l]]; simpl in *; [done| |lia].
    by injection Ha as ->.
Qed.

Lemma single_choice_last_wins_witness :
  q_type Sample.single = SINGLE_CHOICE
  ∧ [Some Sample.single_A; Some Sample.single_B; Some Sample.single_B] ≠ []
  ∧ ∃ a, answers_of
           (submit_options Sample.single Sample.session
              [Some Sample.single_A; Some Sample.single_B; Some Sample.single_B]
              Sample.db)
           (ur_uuid Sample.session) (q_uuid Sample.single) = [a]
         ∧ Some (ua_answer_option a) = Some (Some (ao_uuid Sample.single_B)).
Proof.
  assert (Hne : [Some Sample.single_A; Some Sample.single_B;
                 Some Sample.single_B] ≠ []) by discriminate.
  split; [reflexivity|]. split; [exact Hne|].
  apply (proj2 (proj2 (proj2
           (single_choice_last_wins Sample.single Sample.session
              [Some Sample.single_A; Some Sample.single_B; Some Sample.single_B]
              Sample.db eq_refl Hne)))).
  simpl. lia.
Defined.

(** C3, as stated, fails.  The session selected two options of a
    question while it was multiple-choice; the question was then made
    single-choice, which removes no answer (only a change to a text
    question clears the options).  A single-choice submission updates
    the first of the two answers and leaves the second in place. *)
Lemma single_choice_last_wins_counterexample :
  user_answers Sample.db_retyped
  = user_answers (submit_options Sample.multi Sample.session
                    [Some Sample.option_A; Some Sample.option_B] Sample.db)
  ∧ q_type Sample.single_retyped = SINGLE_CHOICE
  ∧ length (answers_of
              (submit_options Sample.single_retyped Sample.session
                 [Some Sample.option_A] Sample.db_retyped)
              (ur_uuid Sample.session) (q_uuid Sample.single_retyped)) = 2
  ∧ ¬ ∀ (question : Question) (user_response : UserResponse)
        (os : list (option AnswerOption)) (db : DB),
        q_type question = SINGLE_CHOICE →
        os ≠ [] →
        ∃ a, answers_of (submit_options question user_response os db)
               (ur_uuid user_response) (q_uuid question) = [a]
             ∧ Some (ua_answer_option a)
               = (λ o : option AnswerOption, ao_uuid <$> o) <$> last os.
Proof.
  split; [reflexivity|]. split; [reflexivity|]. split; [reflexivity|].
  intros H.
  destruct (H Sample.single_retyped Sample.session [Some Sample.option_A]
              Sample.db_retyped eq_refl ltac:(discriminate)) as (a & Ha & _).
  vm_compute in Ha. discriminate Ha.
Qed.



(** ** Per-question answer validator *)

Section OrderBy.
Context {A : Type} (le : A → A → bool).

Lemma elem_of_insert_sorted x y l :
  y ∈ insert_sorted le x l ↔ y = x ∨ y ∈ l.
Proof.
  induction l as [|z l IH]; simpl.
  - rewrite list_elem_of_singleton. split; [by left|].
    intros [?|Hin]; [done|by inversion Hin].
  - destruct (le x z); [apply elem_of_cons|].
    rewrite !elem_of_cons, IH. tauto.
Qed.

Lemma elem_of_order_by y l : y ∈ order_by le l ↔ y ∈ l.
Proof.
  induction l as [|z l IH]; simpl; [done|].
  rewrite elem_of_insert_sorted, elem_of_cons.
  unfold order_by in IH. by rewrite IH.
Qed.
End OrderBy.

Lemma question_check_outcome (question : PrefetchedQuestion) :
  question_check question =
  match sufficiency_error question with
  | None => Ok tt
  | Some msg => Raise (ValidateAnswerError_msg msg)
  end.
Proof.
  unfold question_check, sufficiency_error.
  destruct question as [q answers]. simpl.
  destruct (q_type q); simpl.
  - unfold SingleChoiceQuestionAnswerValidatorExtended.check,
      SingleChoiceQuestionAnswerValidatorExtended._check_answer_exists,
      SingleChoiceQuestionAnswerValidatorExtended._check_answer_text. simpl.
    destruct answers as [|a [|b l]]; done.
  - unfold MultipleChoiceValidatorExtendedQuestion.check,
      MultipleChoiceValidatorExtendedQuestion._check_answer_exists. simpl.
    destruct answers; done.
  - unfold TextQuestionAnswerValidatorExtended.check. simpl.
    destruct answers as [|a l]; simpl; [done|].
    unfold TextQuestionAnswerValidatorExtended._check_answer_text.
    by destruct (truthy _).
Qed.

Lemma loop_body_outcome (m : gmap uuid string) (question : PrefetchedQuestion) :
  QuestionAnswersValidator.loop_body m question =
  match sufficiency_error question with
  | None => m
  | Some msg => <[q_uuid (pq_question question) := msg]> m
  end.
Proof.
  unfold QuestionAnswersValidator.loop_body.
  change (QuestionAnswersValidator._validator_map _ question)
    with (question_check question).
  rewrite question_check_outcome. by destruct (sufficiency_error question).
Qed.

Section Collect.
Variable qs : list PrefetchedQuestion.
Hypothesis Hkey : ∀ q q', q ∈ qs → q' ∈ qs →
  q_uuid (pq_question q) = q_uuid (pq_question q') → q = q'.

Lemma collect_sound_gen (l : list PrefetchedQuestion) (m : gmap uuid string) k v :
  foldl QuestionAnswersValidator.loop_body m l !! k = Some v →
  m !! k = Some v ∨
  ∃ q, q ∈ l ∧ q_uuid (pq_question q) = k ∧ sufficiency_error q = Some v.
Proof.
  revert m. induction l as [|x l IH]; intros m; simpl; [by left|].
  intros H. apply IH in H as [H|(q & Hq & Hk & He)].
  - rewrite loop_body_outcome in H.
    destruct (sufficiency_error x) as [msg|] eqn:E; [|by left].
    destruct (decide (q_uuid (pq_question x) = k)) as [<-|Hne].
    + rewrite lookup_insert_eq in H. right. exists x.
      split; [left|]. split; [done|]. congruence.
    + rewrite lookup_insert_ne in H by done. by left.
  - right. exists q. split; [by right|done].
Qed.

Lemma collect_complete_gen (l : list PrefetchedQuestion) (m : gmap uuid string) q v :
  (∀ x, x ∈ l → x ∈ qs) →
  q ∈ qs →
  sufficiency_error q = Some v →
  q ∈ l ∨ m !! q_uuid (pq_question q) = Some v →
  foldl QuestionAnswersValidator.loop_body m l !! q_uuid (pq_question q)
  = Some v.
Proof.
  revert m. induction l as [|x l IH]; intros m Hsub Hq Hv Hin; simpl.
  - destruct Hin as [Hin|Hin]; [by inversion Hin|done].
  - apply IH; [intros y Hy; apply Hsub; by right|done|done|].
    rewrite loop_body_outcome.
    destruct (decide (q_uuid (pq_question x) = q_uuid (pq_question q)))
      as [Heq|Hne].
    + assert (x = q) as -> by (apply Hkey; [apply Hsub; left|done|done]).
      rewrite Hv. right. apply lookup_insert_eq.
    + destruct Hin as [Hin|Hin].
      * apply elem_of_cons in Hin as [->|Hin]; [done|by left].
      * right. destruct (sufficiency_error x); [|done].
        by rewrite lookup_insert_ne.
Qed.

Lemma collect_lookup q :
  q ∈ qs →
  QuestionAnswersValidator.collect qs !! q_uuid (pq_question q)
  = sufficiency_error q.
Proof.
  intros Hq. unfold QuestionAnswersValidator.collect.
  destruct (sufficiency_error q) as [v|] eqn:E.
  - apply collect_complete_gen; [done|done|done|by left].
  - destruct (foldl _ _ _ !! _) as [v|] eqn:El; [|done].
    apply collect_sound_gen in El as [El|(q' & Hq' & Hk & He)].
    + by rewrite lookup_empty in El.
    + assert (q' = q) as -> by (by apply Hkey). congruence.
Qed.

Lemma collect_dom k :
  is_Some (QuestionAnswersValidator.collect qs !! k) →
  ∃ q, q ∈ qs ∧ q_uuid (pq_question q) = k.
Proof.
  intros [v Hv]. apply collect_sound_gen in Hv as [Hv|(q & Hq & Hk & _)].
  - by rewrite lookup_empty in Hv.
  - by exists q.
Qed.

Lemma collect_empty :
  QuestionAnswersValidator.collect qs = ∅ ↔
  ∀ q, q ∈ qs → sufficiency_error q = None.
Proof.
  split.
  - intros He q Hq. rewrite <- collect_lookup by done.
    by rewrite He, lookup_empty.
  - intros Hall. apply map_empty. intros k.
    destruct (_ !! k) as [v|] eqn:El; [|done].
    apply collect_sound_gen in El as [El|(q & Hq & Hk & He)].
    + by rewrite lookup_empty in El.
    + rewrite Hall in He by done. done.
Qed.
End Collect.

Lemma joined_sessions_matching db q user user_response r :
  r ∈ user_responses db → ur_survey r = q_survey q →
  session_matches user user_response r = true →
  Some r ∈ joined_sessions db q user user_response.
Proof.
  intros Hr Hs Hm. unfold joined_sessions.
  assert (Hin : Some r ∈ Some <$> filter (λ r, session_matches user user_response r)
                  (filter (λ r, ur_survey r = q_survey q) (user_responses db))).
  { apply list_elem_of_fmap. exists r. split; [done|].
    apply list_elem_of_filter. split; [by apply Is_true_true|].
    by apply list_elem_of_filter. }
  destruct user as [u|]; [done|]. destruct user_response as [c|]; [done|].
  unfold session_matches in Hm. by apply bool_decide_eq_true in Hm.
Qed.

Lemma get_survey_questions_elem db survey user user_response pq :
  pq ∈ get_survey_questions db survey user user_response ↔
  ∃ q r, pq = mkPrefetchedQuestion q (prefetch_answers db user user_response q)
         ∧ q ∈ questions db ∧ q_survey q = s_uuid survey
         ∧ r ∈ joined_sessions db q user user_response.
Proof.
  unfold get_survey_questions. rewrite list_elem_of_bind. split.
  - intros (q & Hpq & Hq). apply elem_of_order_by in Hq.
    apply list_elem_of_filter in Hq as [Hs Hq].
    apply list_elem_of_bind in Hpq as (r & Hpq & Hr).
    apply list_elem_of_singleton in Hpq.
    by exists q, r.
  - intros (q & r & -> & Hq & Hs & Hr).
    exists q. split.
    + apply list_elem_of_bind. exists r. split; [by apply list_elem_of_singleton|].
      done.
    + apply elem_of_order_by. by apply list_elem_of_filter.
Qed.

Lemma get_survey_questions_key db survey user user_response :
  NoDup (q_uuid <$> questions db) →
  ∀ q q', q ∈ get_survey_questions db survey user user_response →
          q' ∈ get_survey_questions db survey user user_response →
          q_uuid (pq_question q) = q_uuid (pq_question q') → q = q'.
Proof.
  intros Hnd q q' Hq Hq' Heq.
  apply get_survey_questions_elem in Hq as (x & _ & -> & Hx & _).
  apply get_survey_questions_elem in Hq' as (x' & _ & -> & Hx' & _).
  simpl in Heq.
  by rewrite (NoDup_fmap_eq q_uuid _ x x' Hnd Hx Hx' Heq).
Qed.

(** C1 (as the code has it).  The validator applies to every question
    of the survey the check of its type: a text question fails with
    "answer missing" when it has no answer and with "no text" when its
    first answer has empty text (further answers are not looked at); a
    single-choice question fails with "answer missing" on zero answers
    and "multiple answers" on more than one; a multiple-choice question
    fails on zero answers.  Failures are recorded per question id; the
    validator passes iff no check failed and otherwise raises one error
    carrying the map of all failures. *)
Theorem question_answers_validator_aggregates
    (req : UserAnswerRequest) (db : DB) :
  NoDup (q_uuid <$> questions db) →
  let qs := get_survey_questions db (uar_survey req) (uar_user req)
              (uar_user_response_uuid req) in
  (∀ q, question_check q =
        match sufficiency_error q with
        | None => Ok tt
        | Some msg => Raise (ValidateAnswerError_msg msg)
        end)
  ∧ ((∃ r, r ∈ user_responses db ∧ ur_survey r = s_uuid (uar_survey req)
           ∧ session_matches (uar_user req) (uar_user_response_uuid req) r
             = true) →
     ∀ question, question ∈ questions db →
       q_survey question = s_uuid (uar_survey req) →
       mkPrefetchedQuestion question
         (prefetch_answers db (uar_user req) (uar_user_response_uuid req)
            question) ∈ qs)
  ∧ (QuestionAnswersValidator.check req db = Ok tt ↔
     ∀ q, q ∈ qs → sufficiency_error q = None)
  ∧ (∀ e, QuestionAnswersValidator.check req db = Raise e →
       message e = Some "Ошибка валидации ответов" ∧
       ∃ m, question_error_map e = Some m ∧
         (∀ q, q ∈ qs → m !! q_uuid (pq_question q) = sufficiency_error q) ∧
         (∀ k, is_Some (m !! k) → ∃ q, q ∈ qs ∧ q_uuid (pq_question q) = k)).
Proof.
  intros Hnd qs.
  pose proof (get_survey_questions_key db (uar_survey req) (uar_user req)
                (uar_user_response_uuid req) Hnd) as Hkey.
  fold qs in Hkey.
  split; [apply question_check_outcome|]. split; [|split].
  - intros (r & Hr & Hrs & Hm) question Hq Hs.
    apply get_survey_questions_elem. exists question, (Some r).
    split; [done|]. split; [done|]. split; [done|].
    apply joined_sessions_matching; [done|congruence|done].
  - unfold QuestionAnswersValidator.check. fold qs.
    rewrite <- (collect_empty qs Hkey).
    case_bool_decide; [done|]. split; [done|]. intros He. done.
  - intros e. unfold QuestionAnswersValidator.check. fold qs.
    case_bool_decide; [done|]. intros [= <-]. simpl. split; [done|].
    eexists. split; [done|]. split.
    + intros q Hq. by apply collect_lookup.
    + apply collect_dom.
Qed.

Lemma question_answers_validator_aggregates_witness :
  NoDup (q_uuid <$> questions Sample.db_two_texts)
  ∧ QuestionAnswersValidator.check Sample.complete_request Sample.db_two_texts
    = Ok tt.
Proof.
  assert (Hnd : NoDup (q_uuid <$> questions Sample.db_two_texts)).
  { apply (bool_decide_unpack _). vm_compute. exact I. }
  split; [exact Hnd|].
  apply (proj2 (proj1 (proj2 (proj2
           (question_answers_validator_aggregates Sample.complete_request
              Sample.db_two_texts Hnd))))).
  apply Forall_forall. apply (bool_decide_unpack _). vm_compute. exact I.
Defined.

(** C1, as stated, fails: a text question with two answers passes the
    validator although it does not have exactly one answer. *)
Lemma question_answers_validator_text_counterexample :
  QuestionAnswersValidator.check Sample.complete_request Sample.db_two_texts
  = Ok tt
  ∧ ¬ ∀ q, q ∈ get_survey_questions Sample.db_two_texts Sample.survey
                 (Some 7%N) None →
           spec_sufficient q.
Proof.
  split; [by vm_compute|].
  intros Hall.
  specialize (Hall (mkPrefetchedQuestion Sample.text
                      [mkUserAnswer 50 10 4 None (Some "first");
                       mkUserAnswer 51 10 4 None (Some "second")])).
  assert (Hin : mkPrefetchedQuestion Sample.text
                  [mkUserAnswer 50 10 4 None (Some "first");
                   mkUserAnswer 51 10 4 None (Some "second")]
                ∈ get_survey_questions Sample.db_two_texts Sample.survey
                    (Some 7%N) None).
  { apply (bool_decide_unpack _). by vm_compute. }
  specialize (Hall Hin). unfold spec_sufficient in Hall. simpl in Hall.
  destruct Hall as (a & Ha & _). discriminate Ha.
Qed.

(** ** Submit-Answer pipeline *)

(** The first failing check ends the run; the checks after it are
    not called. *)
Lemma run_validators_first_failure pre v post req db e :
  Forall (λ u, check u req db = Ok tt) pre →
  check v req db = Raise e →
  run_validators (pre ++ v :: post) req db
  = (validator_name <$> (pre ++ [v]), Raise e).
Proof.
  intros Hpre Hv. induction Hpre as [|u pre Hu _ IH]; simpl.
  - by rewrite Hv.
  - by rewrite Hu, IH.
Qed.

Lemma run_validators_all_pass vs req db :
  Forall (λ u, check u req db = Ok tt) vs →
  run_validators vs req db = (validator_name <$> vs, Ok tt).
Proof.
  intros Hvs. induction Hvs as [|u vs Hu _ IH]; simpl; [done|].
  by rewrite Hu, IH.
Qed.

(** C5 (as the code has it).  The Submit-Answer pipeline runs, in this
    order: the survey is Active; a non-text question's answer carries
    no free text; the respondent's session, if any, is not Completed;
    a text question's answer carries no option reference.  The first
    failing check raises and no later check is called. *)
Theorem user_answer_checker_order (req : UserAnswerRequest) (db : DB) :
  let question_type := get_question_type db (uar_question req) in
  run_validators UserAnswerChecker req db =
  if bool_decide (s_status (uar_survey req) ≠ ACTIVE) then
    (["IsSurveyActiveValidator"],
     Raise (ValidateAnswerError_msg "Опрос не активен"))
  else if bool_decide (question_type ≠ Some TEXT) && truthy (uar_text_answer req)
  then
    (["IsSurveyActiveValidator"; "ChoiceAnswerValidator"],
     Raise (ValidateAnswerError_msg "Ответ должен содержать выбранный вариант"))
  else if _is_survey_completed req db then
    (["IsSurveyActiveValidator"; "ChoiceAnswerValidator";
      "CompletedSurveyValidator"],
     Raise (ValidateAnswerError_msg "Опрос уже пройден"))
  else if bool_decide (question_type = Some TEXT) && truthy (uar_answer_option req)
  then
    (["IsSurveyActiveValidator"; "ChoiceAnswerValidator";
      "CompletedSurveyValidator"; "TextAnswerValidator"],
     Raise (ValidateAnswerError_msg "Ответ должен содержать текст"))
  else
    (["IsSurveyActiveValidator"; "ChoiceAnswerValidator";
      "CompletedSurveyValidator"; "TextAnswerValidator"], Ok tt).
Proof.
  intros question_type. unfold UserAnswerChecker. simpl.
  destruct (bool_decide (s_status (uar_survey req) ≠ ACTIVE)); [done|].
  fold question_type.
  destruct (bool_decide (question_type ≠ Some TEXT) && truthy (uar_text_answer req));
    [done|].
  destruct (_is_survey_completed req db); [done|].
  by destruct (bool_decide (question_type = Some TEXT)
               && truthy (uar_answer_option req)).
Qed.

(** C5, as stated, fails: for a completed session posting an option
    reference to a text question the code reports the completed
    session and never calls the text-shape check, whereas checking the
    shape before the session reports the shape. *)
Lemma user_answer_checker_order_counterexample :
  run_validators UserAnswerChecker Sample.option_for_text_request
    Sample.db_completed
  = (["IsSurveyActiveValidator"; "ChoiceAnswerValidator";
      "CompletedSurveyValidator"],
     Raise (ValidateAnswerError_msg "Опрос уже пройден"))
  ∧ run_validators spec_UserAnswerChecker Sample.option_for_text_request
      Sample.db_completed
    = (["IsSurveyActiveValidator"; "AnswerShapeValidator"],
       Raise (ValidateAnswerError_msg "Ответ должен содержать текст"))
  ∧ validate UserAnswerChecker Sample.option_for_text_request
      Sample.db_completed
    ≠ validate spec_UserAnswerChecker Sample.option_for_text_request
        Sample.db_completed.
Proof. split; [by vm_compute|]. split; [by vm_compute|]. by vm_compute. Qed.

(** ** Aggregate statistics *)

Lemma find_question_uuid db pk q :
  find_question db pk = Some q → q_uuid q = pk ∧ q ∈ questions db.
Proof. intros H. by apply head_filter_elem in H. Qed.

Lemma stat_key_question db a k :
  stat_key db a = Some k → k.1.1.2.1.1 = ua_question a.
Proof.
  unfold stat_key. intros H.
  destruct (find_question db (ua_question a)) as [q|] eqn:Eq; [|done].
  simpl in H. destruct (find_survey db (q_survey q)) as [s|]; [|done].
  simpl in H. injection H as <-. simpl.
  by apply find_question_uuid in Eq as [? _].
Qed.

Lemma answer_count_le_total db (k : StatKey) (l : list UserAnswer) :
  length (filter (λ k', k' = k) (omap (stat_key db) l))
  ≤ length (filter (λ a, ua_question a = k.1.1.2.1.1) l).
Proof.
  induction l as [|a l IH]; [done|]. simpl.
  destruct (stat_key db a) as [k'|] eqn:E.
  - rewrite !filter_cons. destruct (decide (k' = k)) as [->|Hne].
    + rewrite decide_True by (symmetry; by eapply stat_key_question).
      simpl. apply le_n_S. exact IH.
    + case_decide; simpl; [apply le_S|]; exact IH.
  - rewrite filter_cons. case_decide; simpl; [apply le_S|]; exact IH.
Qed.

Lemma get_survey_stat_elem db survey_uuid row :
  row ∈ get_survey_stat db survey_uuid ↔
  ∃ k, k ∈ omap (stat_key db) (completed_answers db survey_uuid)
       ∧ row = stat_row db survey_uuid
                 (omap (stat_key db) (completed_answers db survey_uuid)) k.
Proof.
  unfold get_survey_stat. rewrite list_elem_of_fmap.
  split.
  - intros (k & H1 & H2). exists k. split; [|done].
    apply elem_of_order_by in H2. by rewrite elem_of_remove_dups in H2.
  - intros (k & H1 & H2). exists k. split; [done|].
    apply elem_of_order_by. by rewrite elem_of_remove_dups.
Qed.

Lemma length_remove_dups_le {A} `{EqDecision A} (l : list A) :
  length (remove_dups l) ≤ length l.
Proof.
  induction l as [|x l IH]; [done|]. simpl.
  case_decide; simpl; lia.
Qed.

Lemma length_remove_dups_eq {A} `{EqDecision A} (l : list A) :
  length (remove_dups l) = length l ↔ NoDup l.
Proof.
  induction l as [|x l IH]; simpl; [split; [constructor|done]|].
  pose proof (length_remove_dups_le l) as Hle.
  case_decide as Hin; simpl.
  - split; [lia|]. intros Hnd. apply NoDup_cons in Hnd as [Hni _]. done.
  - rewrite NoDup_cons, <- IH. split; [intros; split; [done|lia]|].
    intros [_ ->]. done.
Qed.

(** [Round2] rounds to the nearest multiple of 1/100. *)
Lemma Round2_spec (x : Q) :
  (x - (1 # 200) < Round2 x)%Q ∧ (Round2 x <= x + (1 # 200))%Q.
Proof.
  unfold Round2.
  pose proof (Qfloor_le (x * 100 + (1 # 2))) as Hle.
  pose proof (Qlt_floor (x * 100 + (1 # 2))) as Hlt.
  set (n := Qfloor (x * 100 + (1 # 2))) in *.
  assert (Heq : (n # 100 == inject_Z n * (1 # 100))%Q).
  { rewrite Qmake_Qdiv. unfold Qdiv. reflexivity. }
  rewrite inject_Z_plus in Hlt. change (inject_Z 1) with 1%Q in Hlt.
  clearbody n. rewrite Heq. split; lra.
Qed.

(** C6 (as the code has it).  Every row of the aggregate query has
    percentage = Round(answer_count * 100.0 / total_count, 2), where
    total_count is the number of answer rows that completed sessions
    of the survey hold for the row's question (a respondent who
    selected several options is counted once per option); it is at
    least answer_count, which is at least one, and at least the number
    of completed respondents who answered the question, which it
    equals exactly when no completed respondent holds two answer rows
    for the question. *)
Theorem survey_stat_percentage (db : DB) (survey_uuid : uuid) (row : StatRow) :
  row ∈ get_survey_stat db survey_uuid →
  percentage row =
    Round2 (inject_Z (Z.of_nat (answer_count row)) * 100
            / inject_Z (Z.of_nat (total_count row)))%Q
  ∧ total_count row =
      length (filter (λ a, ua_question a = question_id__uuid row)
                (completed_answers db survey_uuid))
  ∧ 1 ≤ answer_count row ≤ total_count row
  ∧ spec_respondents_who_answered db survey_uuid (question_id__uuid row)
    ≤ total_count row
  ∧ (spec_respondents_who_answered db survey_uuid (question_id__uuid row)
     = total_count row
     ↔ NoDup (ua_user_response <$>
                filter (λ a, ua_question a = question_id__uuid row)
                  (completed_answers db survey_uuid))).
Proof.
  intros Hrow. apply get_survey_stat_elem in Hrow as (k & Hk & ->).
  pose proof (answer_count_le_total db k (completed_answers db survey_uuid))
    as Hle.
  destruct k as [[[[[su sn] ss] [[qu qn] qt]] [ou on]] [qs os]].
  simpl in *. split; [done|]. split; [done|]. split; [split|split].
  - assert (Hin : (su, sn, ss, (qu, qn, qt), (ou, on), (qs, os))
                  ∈ filter (λ k' : StatKey,
                              k' = (su, sn, ss, (qu, qn, qt), (ou, on), (qs, os)))
                      (omap (stat_key db) (completed_answers db survey_uuid)))
      by (by apply list_elem_of_filter).
    destruct (filter _ _) as [|x l]; [by inversion Hin|simpl; lia].
  - exact Hle.
  - unfold spec_respondents_who_answered, total_counts.
    etrans; [apply length_remove_dups_le|]. by rewrite length_fmap.
  - unfold spec_respondents_who_answered, total_counts.
    rewrite <- length_remove_dups_eq. by rewrite length_fmap.
Qed.

Lemma survey_stat_percentage_witness :
  mkStatRow 1 "Survey 1" ACTIVE 2 "Вопрос 1" MULTIPLE_CHOICE (Some 21%N)
    (Some "Option 1") 2 4 (5000 # 100)%Q ∈ get_survey_stat Sample.db_stat 1
  ∧ (5000 # 100)%Q = Round2 (inject_Z 2 * 100 / inject_Z 4)%Q.
Proof.
  assert (Hin : mkStatRow 1 "Survey 1" ACTIVE 2 "Вопрос 1" MULTIPLE_CHOICE
                  (Some 21%N) (Some "Option 1") 2 4 (5000 # 100)%Q
                ∈ get_survey_stat Sample.db_stat 1).
  { vm_compute. left. }
  split; [exact Hin|].
  exact (proj1 (survey_stat_percentage Sample.db_stat 1 _ Hin)).
Defined.

(** C6, as stated, fails: two completed respondents who each selected
    two options give total_count 4, not 2. *)
Lemma survey_stat_total_count_counterexample :
  ¬ ∀ row, row ∈ get_survey_stat Sample.db_stat 1 →
           total_count row =
           spec_respondents_who_answered Sample.db_stat 1
             (question_id__uuid row).
Proof.
  intros H.
  specialize (H (mkStatRow 1 "Survey 1" ACTIVE 2 "Вопрос 1" MULTIPLE_CHOICE
                   (Some 21%N) (Some "Option 1") 2 4 (5000 # 100)%Q)).
  assert (Hin : mkStatRow 1 "Survey 1" ACTIVE 2 "Вопрос 1" MULTIPLE_CHOICE
                  (Some 21%N) (Some "Option 1") 2 4 (5000 # 100)%Q
                ∈ get_survey_stat Sample.db_stat 1).
  { vm_compute. left. }
  specialize (H Hin). vm_compute in H. discriminate H.
Qed.

Section SortedByKey.
Context {A : Type} (key : A → Z).

Let R (a b : A) : Prop := (key a ≤ key b)%Z.
Let leb (a b : A) : bool := (key a <=? key b)%Z.

Lemma insert_sorted_by_key x l :
  StronglySorted R l → StronglySorted R (insert_sorted leb x l).
Proof.
  induction 1 as [|y l Hl IH Hy]; simpl.
  - repeat constructor.
  - unfold leb at 1. destruct (Z.leb_spec (key x) (key y)) as [Hxy|Hxy].
    + constructor; [by constructor|]. constructor; [done|].
      eapply Forall_impl; [exact Hy|]. unfold R. simpl. intros; lia.
    + constructor; [done|]. apply Forall_forall. intros z Hz.
      apply elem_of_insert_sorted in Hz as [->|Hz].
      * unfold R. lia.
      * rewrite Forall_forall in Hy. by apply Hy.
Qed.

Lemma order_by_sorted l : StronglySorted R (order_by leb l).
Proof.
  induction l as [|x l IH]; simpl; [constructor|].
  by apply insert_sorted_by_key.
Qed.

Lemma filter_sorted (P : A → Prop) `{!∀ x, Decision (P x)} l :
  StronglySorted R l → StronglySorted R (filter P l).
Proof.
  induction 1 as [|y l Hl IH Hy]; [constructor|].
  rewrite filter_cons. case_decide; [|done].
  constructor; [done|]. apply Forall_forall. intros z Hz.
  apply list_elem_of_filter in Hz as [_ Hz].
  rewrite Forall_forall in Hy. by apply Hy.
Qed.

Lemma fmap_sorted l :
  StronglySorted R l → StronglySorted Z.le (key <$> l).
Proof.
  induction 1 as [|y l Hl IH Hy]; simpl; [constructor|].
  constructor; [done|]. by apply Forall_fmap.
Qed.
End SortedByKey.

(** C7 (as the code has it).  For every question of the grouped
    statistics, [add_null_answer_options] keeps the answers already
    listed and appends after them, in [seq_id] order, one row with
    count 0 and percentage 0.0 for each answer option of the question
    whose uuid is not among the listed answers. *)
Theorem add_null_answer_options_appends
    (db : DB) (survey_stat : SurveyStat) (question : QuestionStatDict) :
  question ∈ st_questions survey_stat →
  let question' := StatSurveyService.add_null_answers db question in
  question' ∈ st_questions
                (StatSurveyService.add_null_answer_options db survey_stat)
  ∧ (∀ o, o ∈ answer_options db →
          Some (ao_question o) = qsd_uuid question →
          (∀ a, a ∈ qsd_answers question → as_uuid a ≠ Some (ao_uuid o)) →
          mkAnswerStat (Some (ao_uuid o)) (Some (ao_name o)) 0 0%Q
          ∈ qsd_answers question')
  ∧ ∃ zero_options,
      qsd_answers question' =
        qsd_answers question
        ++ ((λ o, mkAnswerStat (Some (ao_uuid o)) (Some (ao_name o)) 0 0%Q)
              <$> zero_options)
      ∧ StronglySorted Z.le (ao_seq_id <$> zero_options)
      ∧ ∀ o, o ∈ zero_options →
             o ∈ answer_options db ∧ Some (ao_question o) = qsd_uuid question.
Proof.
  intros Hq question'. split; [|split].
  - unfold StatSurveyService.add_null_answer_options. simpl.
    apply list_elem_of_fmap. by exists question.
  - intros o Ho Hqo Hnew. unfold question'. simpl.
    apply elem_of_app. right.
    apply list_elem_of_fmap. exists o. split; [done|].
    unfold StatSurveyService.null_options.
    apply list_elem_of_filter. split.
    + intros Hin. apply list_elem_of_omap in Hin as (a & Ha & Hu).
      by apply (Hnew a).
    + apply elem_of_order_by. by apply list_elem_of_filter.
  - exists (StatSurveyService.null_options db question).
    split; [done|]. split.
    + apply fmap_sorted. unfold StatSurveyService.null_options.
      apply filter_sorted. apply order_by_sorted.
    + intros o Ho. unfold StatSurveyService.null_options in Ho.
      apply list_elem_of_filter in Ho as [_ Ho].
      apply elem_of_order_by in Ho.
      apply list_elem_of_filter in Ho as [Hqo Ho]. done.
Qed.

Lemma add_null_answer_options_appends_witness :
  Sample.grouped_multi ∈ st_questions Sample.grouped_survey
  ∧ mkQuestionStatDict (Some 2%N) "Вопрос 1" (Some MULTIPLE_CHOICE) 4
      [mkAnswerStat (Some 21%N) (Some "Option 1") 2 (5000 # 100)%Q;
       mkAnswerStat (Some 23%N) (Some "Option 3") 2 (5000 # 100)%Q;
       mkAnswerStat (Some 22%N) (Some "Option 2") 0 0%Q]
    ∈ st_questions
        (StatSurveyService.add_null_answer_options Sample.db_stat
           Sample.grouped_survey).
Proof.
  assert (Hin : Sample.grouped_multi ∈ st_questions Sample.grouped_survey)
    by (simpl; left).
  split; [exact Hin|].
  exact (proj1 (add_null_answer_options_appends Sample.db_stat
                  Sample.grouped_survey Sample.grouped_multi Hin)).
Defined.

(** C7, as stated, fails: with options 1 and 3 selected, the
    unselected option 2 is listed last, so the answer list of the
    question runs 1, 3, 2 in [seq_id]. *)
Lemma add_null_answer_options_order_counterexample :
  ¬ ∀ survey_stat question,
      stat_view Sample.db_stat 1 = inr survey_stat →
      question ∈ st_questions survey_stat →
      StronglySorted Z.le
        (listed_seq_ids Sample.db_stat (qsd_answers question)).
Proof.
  intros H.
  destruct (stat_view Sample.db_stat 1) as [e|survey_stat] eqn:E;
    [by vm_compute in E|].
  vm_compute in E. injection E as <-.
  specialize (H _ _ eq_refl ltac:(left)).
  vm_compute in H.
  apply StronglySorted_cons in H as [_ H].
  apply StronglySorted_cons in H as [H _].
  apply Forall_cons in H as [H _]. by vm_compute in H.
Qed.

(** ** Statistics access *)

Lemma PyDict_set_nonempty {V} k (v : V) d : PyDict.set k v d ≠ [].
Proof. destruct d as [|[k' v'] d]; simpl; [done|]. by case_decide. Qed.

Lemma accumulate_nonempty (answer_counts : list StatRow) :
  answer_counts ≠ [] → StatSurveyService.accumulate answer_counts ≠ [].
Proof.
  unfold StatSurveyService.accumulate.
  destruct answer_counts as [|item l _] using rev_ind; [done|].
  intros _. rewrite foldl_app. simpl.
  apply PyDict_set_nonempty.
Qed.

(** C10.  When the Stat-Access pipeline passes, the fold over the row
    set that the validator saw yields a non-empty accumulator, and
    [stat_survey] returns the grouped survey instead of raising
    [StopIteration]. *)
Theorem stat_access_then_stat_survey_returns
    (req : UserAnswerRequest) (db : DB) :
  validate SurveyStatChecker req db = Ok tt →
  StatSurveyService.accumulate (get_survey_stat db (s_uuid (uar_survey req)))
    ≠ []
  ∧ ∃ survey_stat,
      StatSurveyService.stat_survey
        (get_survey_stat db (s_uuid (uar_survey req))) = inr survey_stat.
Proof.
  intros Hpass.
  assert (Hrows : get_survey_stat db (s_uuid (uar_survey req)) ≠ []).
  { unfold validate, SurveyStatChecker in Hpass. simpl in Hpass.
    destruct (uar_user req) as [user|].
    - destruct (negb _); [done|]. simpl in Hpass.
      by case_bool_decide.
    - simpl in Hpass. by case_bool_decide. }
  pose proof (accumulate_nonempty _ Hrows) as Hacc.
  split; [done|]. unfold StatSurveyService.stat_survey.
  destruct (StatSurveyService.accumulate _) as [|[k v] d]; [done|].
  simpl. eauto.
Qed.

Lemma stat_access_then_stat_survey_returns_witness :
  validate SurveyStatChecker Sample.stat_request Sample.db_stat = Ok tt
  ∧ StatSurveyService.accumulate (get_survey_stat Sample.db_stat 1) ≠ [].
Proof.
  assert (Hpass : validate SurveyStatChecker Sample.stat_request Sample.db_stat
                  = Ok tt) by (vm_compute; reflexivity).
  split; [exact Hpass|].
  exact (proj1 (stat_access_then_stat_survey_returns Sample.stat_request
                  Sample.db_stat Hpass)).
Defined.

(** ** Respondent sessions *)

Lemma get_or_create_lookup_identified user survey cookie db :
  get_or_create_lookup (Some user) survey cookie db =
  filter (λ r, ur_survey r = s_uuid survey ∧ ur_user r = Some user)
    (user_responses db).
Proof.
  unfold get_or_create_lookup. rewrite list_filter_filter.
  apply list_filter_iff. intros r. simpl.
  rewrite bool_decide_spec. tauto.
Qed.

Lemma sessions_unique_create user survey now db :
  (∀ u, user = Some u →
        filter (λ r, ur_survey r = s_uuid survey ∧ ur_user r = Some u)
          (user_responses db) = []) →
  sessions_unique db →
  sessions_unique (UserResponse_create user survey now db).2.
Proof.
  intros Hnone Huniq s u. simpl. rewrite filter_app, length_app.
  rewrite filter_cons, filter_nil. simpl.
  case_decide as Heq; simpl.
  - destruct Heq as [<- Hu]. rewrite (Hnone u Hu). simpl. lia.
  - specialize (Huniq s u). lia.
Qed.

(** C9 (as the code has it).  A call of
    [_get_or_create_user_response] that runs on its own keeps "at most
    one session per (survey, user)": for an identified user it
    returns the existing session of that user on the survey, or
    inserts one when there is none, and never finds several.  The
    guarantee comes from the lookup made before the insert: the insert
    itself appends the new row whatever sessions the table holds. *)
Theorem get_or_create_keeps_sessions_unique
    (user : option user_id) (survey : Survey) (user_response_uuid : option uuid)
    (now : datetime) (db : DB) :
  sessions_unique db →
  (∀ obj created db',
     _get_or_create_user_response user survey user_response_uuid now db
     = Got obj created db' →
     sessions_unique db' ∧ obj ∈ user_responses db'
     ∧ ur_survey obj = s_uuid survey ∧ ur_user obj = user
     ∧ (created = false → db' = db))
  ∧ (∀ u, user = Some u →
       ∃ obj created db',
         _get_or_create_user_response user survey user_response_uuid now db
         = Got obj created db')
  ∧ user_responses (UserResponse_create user survey now db).2
    = user_responses db
      ++ [mkUserResponse (next_uuid db) (s_uuid survey) user now None
            IN_PROGRESS].
Proof.
  intros Huniq. split; [|split; [|done]].
  - intros obj created db' Hgot.
    unfold _get_or_create_user_response in Hgot.
    destruct (get_or_create_lookup user survey user_response_uuid db)
      as [|x [|y l]] eqn:E.
    + simpl in Hgot. injection Hgot as <- <- <-.
      split; [|split; [|split; [|split]]]; try done.
      * apply (sessions_unique_create user survey now db); [|done].
        intros u ->. by rewrite <- get_or_create_lookup_identified
                         with (cookie := user_response_uuid).
      * simpl. apply elem_of_app. right. left.
    + injection Hgot as <- <- <-.
      assert (Hx : x ∈ get_or_create_lookup user survey user_response_uuid db)
        by (rewrite E; left).
      unfold get_or_create_lookup in Hx.
      apply list_elem_of_filter in Hx as [[Hu Hs] Hx].
      apply list_elem_of_filter in Hx as [_ Hx]. done.
    + done.
  - intros u ->. unfold _get_or_create_user_response.
    rewrite get_or_create_lookup_identified.
    specialize (Huniq (s_uuid survey) u).
    destruct (filter _ _) as [|x [|y l]]; simpl in *; [eauto|eauto|lia].
Qed.

Lemma sample_fresh_sessions_unique : sessions_unique Sample.db_fresh.
Proof. intros s u. simpl. lia. Defined.

Lemma get_or_create_keeps_sessions_unique_witness :
  sessions_unique Sample.db_fresh
  ∧ ∃ obj created db',
      _get_or_create_user_response (Some 7%N) Sample.survey None 100
        Sample.db_fresh = Got obj created db'.
Proof.
  split; [exact sample_fresh_sessions_unique|].
  exact (proj1 (proj2 (get_or_create_keeps_sessions_unique (Some 7%N)
                         Sample.survey None 100 Sample.db_fresh
                         sample_fresh_sessions_unique))
           7%N eq_refl).
Defined.

(** C9, as stated, fails: two first submissions of one user whose
    lookups both run before either insert leave two sessions for the
    same (survey, user); the table takes the second row because
    [UserResponse.Meta] has no uniqueness constraint. *)
Lemma concurrent_first_submissions_counterexample :
  sessions_unique Sample.db_fresh
  ∧ ∃ final,
      rtc (concurrent_step Sample.first_submission Sample.second_submission)
        (Pending, Pending, Sample.db_fresh) final
      ∧ user_responses final.2 =
          [mkUserResponse 1000 1 (Some 7%N) 100 None IN_PROGRESS;
           mkUserResponse 1001 1 (Some 7%N) 101 None IN_PROGRESS]
      ∧ ¬ sessions_unique final.2.
Proof.
  split; [exact sample_fresh_sessions_unique|].
  eexists. split; [|split].
  - eapply rtc_l; [apply step_first; reflexivity|].
    eapply rtc_l; [apply step_second; reflexivity|].
    eapply rtc_l; [apply step_first; reflexivity|].
    eapply rtc_l; [apply step_second; reflexivity|].
    apply rtc_refl.
  - reflexivity.
  - intros H. specialize (H 1%N 7%N). vm_compute in H. lia.
Qed.

(** ** Scenarios *)

(** Options A, A, B on the multiple-choice question: B is selected, A
    is not. *)
Example scenario_multiple_A_A_B :
  user_answers
    (submit_options Sample.multi Sample.session
       [Some Sample.option_A; Some Sample.option_A; Some Sample.option_B]
       Sample.db)
  = [mkUserAnswer 1001 10 2 (Some 22%N) None].
Proof. reflexivity. Qed.

(** Options A then B on the single-choice question: one answer, for
    B, in the row created for A. *)
Example scenario_single_A_B :
  user_answers
    (submit_options Sample.single Sample.session
       [Some Sample.single_A; Some Sample.single_B] Sample.db)
  = [mkUserAnswer 1000 10 3 (Some 32%N) None].
Proof. reflexivity. Qed.

(** Text, other text, then empty text on the text question. *)
Example scenario_text_rewrite_then_clear :
  user_answers
    (_handle_answer Sample.text None (Some "TEXT") Sample.session
       (_handle_answer Sample.text None (Some "initial text") Sample.session
          Sample.db))
  = [mkUserAnswer 1000 10 4 None (Some "TEXT")]
  ∧ user_answers
      (_handle_answer Sample.text None (Some "") Sample.session
         (_handle_answer Sample.text None (Some "TEXT") Sample.session
            Sample.db))
    = [].
Proof. split; reflexivity. Qed.

(** Completing with one of two questions answered: one entry in the
    error map, under the id of the unanswered question. *)
Example scenario_complete_one_unanswered :
  QuestionAnswersValidator.check Sample.complete_request
    Sample.db_one_unanswered
  = Raise (mkValidateAnswerError None (Some "Ошибка валидации ответов")
             (Some {[ 3%N := "Ответ отсутствует" ]})).
Proof. vm_compute. reflexivity. Qed.

(** * Further properties *)

(** ** Answer engine: what a submission leaves alone *)

Section EngineFrame.
Variables (question : Question) (user_response : UserResponse).

Let r := ur_uuid user_response.
Let q := q_uuid question.

Lemma handle_answer_cases o t db :
  let db' := _handle_answer question o t user_response db in
  (∃ o' t', db' = UserAnswer_create r q o' t' db)
  ∨ db' = db
  ∨ ∃ a, a ∈ answers_of db r q ∧
      (db' = UserAnswer_delete (ua_uuid a) db
       ∨ (∃ o', db' = UserAnswer_save_answer_option (ua_uuid a) o' db)
       ∨ (∃ t', db' = UserAnswer_save_text_answer (ua_uuid a) t' db)).
Proof.
  unfold _handle_answer, QuestionHandlerFactory.get_strategy.
  destruct (q_type question); simpl.
  - unfold SingleChoiceQuestionStrategy.handle_answer. simpl. fold r q.
    destruct (head (answers_of db r q)) as [a|] eqn:E.
    + right. right. exists a. split; [by apply head_Some_elem_of|].
      right. left. eauto.
    + left. eauto.
  - unfold MultipleChoiceQuestionStrategy.handle_answer. simpl. fold r q.
    destruct (head (answers_of_option db r q (ao_uuid <$> o))) as [a|] eqn:E.
    + right. right. exists a. split; [|by left].
      apply head_Some_elem_of in E. unfold answers_of_option in E.
      by apply list_elem_of_filter in E as [_ E].
    + left. eauto.
  - unfold TextQuestionStrategy.handle_answer. simpl. fold r q.
    destruct (head (answers_of db r q)) as [a|] eqn:E.
    + right. right. exists a. split; [by apply head_Some_elem_of|].
      unfold TextQuestionStrategy._perform_answer_update.
      destruct (truthy t); [right; right; eauto|by left].
    + unfold TextQuestionStrategy._perform_answer_create. simpl.
      destruct (truthy t); [left; eauto|by right; left].
Qed.

Lemma answers_of_other_create db o t r' q' :
  (r', q') ≠ (r, q) →
  answers_of (UserAnswer_create r q o t db) r' q' = answers_of db r' q'.
Proof.
  intros Hne. unfold answers_of, UserAnswer_create. simpl.
  rewrite filter_app, filter_cons_False, filter_nil, app_nil_r; [done|].
  simpl. intros [-> ->]. done.
Qed.

Lemma answers_of_other_delete db a r' q' :
  NoDup (ua_uuid <$> user_answers db) →
  a ∈ answers_of db r q → (r', q') ≠ (r, q) →
  answers_of (UserAnswer_delete (ua_uuid a) db) r' q' = answers_of db r' q'.
Proof.
  intros Hnd Ha Hne. unfold answers_of, UserAnswer_delete. simpl.
  rewrite filter_comm. apply filter_all. intros x Hx Heq.
  apply list_elem_of_filter in Hx as [[Hr' Hq'] Hx].
  apply list_elem_of_filter in Ha as [[Hr Hq] Ha].
  assert (x = a) as -> by (by eapply (NoDup_fmap_eq ua_uuid)).
  apply Hne. congruence.
Qed.

Lemma fmap_update_other (f : UserAnswer → UserAnswer) (P : UserAnswer → Prop)
    `{!∀ x, Decision (P x)} (rows : list UserAnswer) :
  (∀ x, P (f x) ↔ P x) → (∀ x, x ∈ rows → P x → f x = x) →
  filter P (f <$> rows) = filter P rows.
Proof.
  intros HP Hid. induction rows as [|x rows IH]; [done|].
  rewrite fmap_cons, !filter_cons.
  rewrite IH by (intros y Hy; apply Hid; by right).
  destruct (decide (P x)) as [Hx|Hx].
  - rewrite decide_True by (by apply HP).
    by rewrite Hid by (done || left).
  - by rewrite decide_False by (by rewrite HP).
Qed.

Lemma answers_of_other_save db a (f : UserAnswer → UserAnswer) r' q' :
  NoDup (ua_uuid <$> user_answers db) →
  a ∈ answers_of db r q → (r', q') ≠ (r, q) →
  (∀ x, ua_user_response (f x) = ua_user_response x
        ∧ ua_question (f x) = ua_question x) →
  filter (λ x, ua_user_response x = r' ∧ ua_question x = q')
    ((λ x, if decide (ua_uuid x = ua_uuid a) then f x else x)
       <$> user_answers db)
  = answers_of db r' q'.
Proof.
  intros Hnd Ha Hne Hf. apply fmap_update_other.
  - intros x. case_decide; [|done]. by destruct (Hf x) as [-> ->].
  - intros x Hx [Hr' Hq']. case_decide as Heq; [|done]. exfalso.
    apply list_elem_of_filter in Ha as [[Hr Hq] Ha].
    assert (x = a) as -> by (by eapply (NoDup_fmap_eq ua_uuid)).
    apply Hne. congruence.
Qed.
End EngineFrame.

(** X1.  A submission for one (session, question) pair leaves the
    answers of every other pair and all other tables as they were,
    provided answer keys are distinct. *)
Theorem handle_answer_frame
    (question : Question) (answer_option : option AnswerOption)
    (text_answer : option string) (user_response : UserResponse) (db : DB)
    (r' q' : uuid) :
  NoDup (ua_uuid <$> user_answers db) →
  (r', q') ≠ (ur_uuid user_response, q_uuid question) →
  let db' := _handle_answer question answer_option text_answer user_response db in
  answers_of db' r' q' = answers_of db r' q'
  ∧ surveys db' = surveys db ∧ questions db' = questions db
  ∧ answer_options db' = answer_options db
  ∧ user_responses db' = user_responses db.
Proof.
  intros Hnd Hne db'.
  destruct (handle_answer_cases question user_response answer_option
              text_answer db)
    as [(o' & t' & E)|[E|(a & Ha & [E|[(o' & E)|(t' & E)]])]];
    fold db' in E; rewrite E; clear E db'.
  - split; [by apply answers_of_other_create|done].
  - done.
  - split; [by eapply answers_of_other_delete|done].
  - split; [|done]. unfold answers_of at 1. simpl.
    by eapply (answers_of_other_save question user_response db a
                 (λ x, mkUserAnswer (ua_uuid x) (ua_user_response x)
                         (ua_question x) o' (ua_text_answer x))).
  - split; [|done]. unfold answers_of at 1. simpl.
    by eapply (answers_of_other_save question user_response db a
                 (λ x, mkUserAnswer (ua_uuid x) (ua_user_response x)
                         (ua_question x) (ua_answer_option x) t')).
Qed.

Lemma handle_answer_frame_witness :
  NoDup (ua_uuid <$> user_answers Sample.db_two_texts)
  ∧ (10%N, 4%N) ≠ (ur_uuid Sample.session, q_uuid Sample.single)
  ∧ answers_of
      (_handle_answer Sample.single (Some Sample.single_B) None Sample.session
         Sample.db_two_texts) 10 4
    = answers_of Sample.db_two_texts 10 4.
Proof.
  assert (Hnd : NoDup (ua_uuid <$> user_answers Sample.db_two_texts)).
  { apply (bool_decide_unpack _). vm_compute. exact I. }
  assert (Hne : (10%N, 4%N) ≠ (ur_uuid Sample.session, q_uuid Sample.single))
    by discriminate.
  split; [exact Hnd|]. split; [exact Hne|].
  exact (proj1 (handle_answer_frame Sample.single (Some Sample.single_B) None
                  Sample.session Sample.db_two_texts 10 4 Hnd Hne)).
Defined.

(** ** Answer engine: single-choice surplus, and acceptance *)

Lemma single_handle_length question user_response o t db :
  q_type question = SINGLE_CHOICE →
  answers_of db (ur_uuid user_response) (q_uuid question) ≠ [] →
  length (answers_of (_handle_answer question o t user_response db)
            (ur_uuid user_response) (q_uuid question))
  = length (answers_of db (ur_uuid user_response) (q_uuid question)).
Proof.
  intros Htype Hne. unfold _handle_answer. rewrite Htype. simpl.
  unfold SingleChoiceQuestionStrategy.handle_answer. simpl.
  destruct (answers_of db _ _) as [|a l] eqn:E; [done|]. simpl.
  rewrite answers_of_save_answer_option, E. by rewrite length_fmap.
Qed.

Lemma single_submit_length question user_response os db :
  q_type question = SINGLE_CHOICE →
  answers_of db (ur_uuid user_response) (q_uuid question) ≠ [] →
  length (answers_of (submit_options question user_response os db)
            (ur_uuid user_response) (q_uuid question))
  = length (answers_of db (ur_uuid user_response) (q_uuid question)).
Proof.
  intros Htype. revert db. induction os as [|o os IH]; intros db Hne; [done|].
  simpl. pose proof (single_handle_length question user_response o None db
                       Htype Hne) as Hlen.
  rewrite IH; [done|]. intros Hnil. rewrite Hnil in Hlen. simpl in Hlen.
  destruct (answers_of db _ _); [done|discriminate Hlen].
Qed.

(** X2.  Once a session holds an answer to a single-choice question, a
    submission never adds or removes one: the number of answers stays
    what it was.  A session that holds several answers therefore fails
    the completion check with "multiple answers" after any series of
    submissions. *)
Theorem single_choice_surplus_persists
    (question : Question) (user_response : UserResponse)
    (os : list (option AnswerOption)) (db : DB) :
  q_type question = SINGLE_CHOICE →
  answers_of db (ur_uuid user_response) (q_uuid question) ≠ [] →
  let answers' :=
    answers_of (submit_options question user_response os db)
      (ur_uuid user_response) (q_uuid question) in
  length answers'
  = length (answers_of db (ur_uuid user_response) (q_uuid question))
  ∧ (2 ≤ length (answers_of db (ur_uuid user_response) (q_uuid question)) →
     question_check (mkPrefetchedQuestion question answers')
     = Raise (ValidateAnswerError_msg "Несколько ответов для единичнго поля")).
Proof.
  intros Htype Hne answers'.
  pose proof (single_submit_length question user_response os db Htype Hne)
    as Hlen.
  fold answers' in Hlen. split; [done|]. intros Htwo.
  rewrite question_check_outcome. unfold sufficiency_error. simpl.
  rewrite Htype. destruct answers' as [|a [|b l]]; simpl in Hlen; [lia|lia|done].
Qed.

Lemma single_choice_surplus_persists_witness :
  q_type Sample.single = SINGLE_CHOICE
  ∧ answers_of Sample.db_two_texts 10 3 ≠ []
  ∧ length (answers_of
              (submit_options Sample.single Sample.session
                 [Some Sample.single_B] Sample.db_two_texts) 10 3)
    = 1.
Proof.
  assert (Hne : answers_of Sample.db_two_texts 10 3 ≠ []) by discriminate.
  split; [reflexivity|]. split; [exact Hne|].
  exact (proj1 (single_choice_surplus_persists Sample.single Sample.session
                  [Some Sample.single_B] Sample.db_two_texts eq_refl Hne)).
Defined.

(** ** Publish pipeline *)

Lemma for_each_returns {A} (l : list A) (body : A → outcome unit) :
  for_each l body = Returns tt ↔ ∀ x, x ∈ l → body x = Returns tt.
Proof.
  induction l as [|x l IH]; simpl.
  - split; [intros _ y Hy; by inversion Hy|done].
  - destruct (body x) as [[]|e] eqn:E.
    + rewrite IH. split.
      * intros Hall y Hy. apply elem_of_cons in Hy as [->|Hy]; [done|by apply Hall].
      * intros Hall y Hy. apply Hall. by right.
    + split; [done|]. intros Hall. specialize (Hall x ltac:(left)). congruence.
Qed.

Lemma for_each_throws {A} (l : list A) (body : A → outcome unit) e :
  for_each l body = Throws e → ∃ x, x ∈ l ∧ body x = Throws e.
Proof.
  induction l as [|x l IH]; simpl; [done|].
  destruct (body x) as [[]|e'] eqn:E.
  - intros H. apply IH in H as (y & Hy & Hb). exists y. split; [by right|done].
  - intros [= <-]. exists x. split; [left|done].
Qed.

Lemma size_list_to_set_remove_dups (l : list string) :
  size (list_to_set l : gset string) = length (remove_dups l).
Proof.
  rewrite <- (size_list_to_set (C := gset string) (remove_dups l))
    by apply NoDup_remove_dups.
  f_equal. apply set_eq. intros x.
  by rewrite !elem_of_list_to_set, elem_of_remove_dups.
Qed.

Lemma names_distinct_test (l : list string) :
  bool_decide (length l ≠ size (list_to_set l : gset string)) = false
  ↔ NoDup l.
Proof.
  rewrite size_list_to_set_remove_dups, bool_decide_eq_false.
  rewrite <- length_remove_dups_eq. split; [|by intros ->; intros H; apply H].
  intros H. destruct (decide (length (remove_dups l) = length l)); [done|].
  exfalso. apply H. congruence.
Qed.

Lemma UniqueQuestionsValidator_returns req db :
  UniqueQuestionsValidator req db = Returns tt ↔
  NoDup (q_name <$> survey_questions db (s_uuid (uar_survey req))).
Proof.
  unfold UniqueQuestionsValidator. rewrite <- names_distinct_test.
  rewrite length_fmap. destruct (bool_decide _); split; done.
Qed.

Lemma UniqueAnswerOptionsQuestionValidator_returns req db :
  UniqueAnswerOptionsQuestionValidator req db = Returns tt ↔
  ∀ question, question ∈ survey_questions db (s_uuid (uar_survey req)) →
    NoDup (ao_name <$> question_answer_options db question).
Proof.
  unfold UniqueAnswerOptionsQuestionValidator. rewrite for_each_returns.
  split; intros Hall question Hq; specialize (Hall question Hq).
  - apply names_distinct_test. rewrite length_fmap.
    by destruct (bool_decide _).
  - apply names_distinct_test in Hall. rewrite length_fmap in Hall.
    by rewrite Hall.
Qed.

(** X4.  The duplicate-name validators compare the number of rows
    with the size of the set of names: the question validator passes
    exactly when no two questions of the survey share a name, the
    option validator exactly when no two options of one question do,
    for every question of the survey whatever its type; otherwise
    they raise their validation error. *)
Theorem unique_name_validators (req : UserAnswerRequest) (db : DB) :
  let questions := survey_questions db (s_uuid (uar_survey req)) in
  (UniqueQuestionsValidator req db = Returns tt ↔ NoDup (q_name <$> questions))
  ∧ (¬ NoDup (q_name <$> questions) →
     UniqueQuestionsValidator req db
     = raise_error "Вопросы не должны повторяться")
  ∧ (UniqueAnswerOptionsQuestionValidator req db = Returns tt ↔
     ∀ question, question ∈ questions →
       NoDup (ao_name <$> question_answer_options db question))
  ∧ (∀ e, UniqueAnswerOptionsQuestionValidator req db = Throws e →
       e = Exc_ValidateAnswerError
             (ValidateAnswerError_msg "Варианты ответов не должны повторяться")).
Proof.
  intros questions. split; [apply UniqueQuestionsValidator_returns|].
  split; [|split; [apply UniqueAnswerOptionsQuestionValidator_returns|]].
  - intros Hdup. unfold questions in Hdup.
    rewrite <- UniqueQuestionsValidator_returns in Hdup.
    unfold UniqueQuestionsValidator in *. by destruct (bool_decide _).
  - intros e He. unfold UniqueAnswerOptionsQuestionValidator in He.
    apply for_each_throws in He as (question & _ & He).
    destruct (bool_decide _); [|done]. by injection He as <-.
Qed.

Lemma elem_of_non_text_questions db survey_uuid question :
  question ∈ order_by (λ a b, (q_seq_id a <=? q_seq_id b)%Z)
               (filter (λ q, q_survey q = survey_uuid ∧ q_type q ≠ TEXT)
                  (questions db))
  ↔ question ∈ survey_questions db survey_uuid ∧ q_type question ≠ TEXT.
Proof.
  unfold survey_questions. rewrite !elem_of_order_by, !list_elem_of_filter.
  tauto.
Qed.

(** X5.  For a survey stored under its key, the publish pipeline
    passes exactly when the stored name is non-empty, the survey has a
    question, every question has a non-empty name, every non-text
    question has at least one option and no option with an empty name,
    no two questions share a name and no two options of one question
    share a name. *)
Theorem create_survey_checker_passes
    (req : UserAnswerRequest) (db : DB) (stored : Survey) :
  Survey_objects_get db (s_uuid (uar_survey req)) = Returns stored →
  let questions := survey_questions db (s_uuid (uar_survey req)) in
  validate_all CreateSurveyChecker req db = Returns tt ↔
    s_name stored ≠ ""
    ∧ questions ≠ []
    ∧ (∀ q, q ∈ questions → q_name q ≠ "")
    ∧ (∀ q, q ∈ questions → q_type q ≠ TEXT →
         question_answer_options db q ≠ []
         ∧ ∀ o, o ∈ question_answer_options db q → ao_name o ≠ "")
    ∧ NoDup (q_name <$> questions)
    ∧ (∀ q, q ∈ questions →
         NoDup (ao_name <$> question_answer_options db q)).
Proof.
  intros Hget questions.
  assert (Hpk : s_uuid stored = s_uuid (uar_survey req)).
  { unfold Survey_objects_get, queryset_get in Hget.
    destruct (filter _ _) as [|x [|y l]] eqn:E; try done.
    injection Hget as ->.
    assert (Hin : stored ∈ filter (λ s, s_uuid s = s_uuid (uar_survey req))
                             (surveys db)) by (rewrite E; left).
    by apply list_elem_of_filter in Hin as [? _]. }
  unfold validate_all, CreateSurveyChecker. rewrite for_each_returns.
  split.
  - intros Hall.
    pose proof (Hall SurveyNameValidator ltac:(set_solver)) as H1.
    pose proof (Hall SurveyQuestionsValidator ltac:(set_solver)) as H2.
    pose proof (Hall SurveyAnswersValidator ltac:(set_solver)) as H3.
    pose proof (Hall UniqueQuestionsValidator ltac:(set_solver)) as H4.
    pose proof (Hall UniqueAnswerOptionsQuestionValidator ltac:(set_solver))
      as H5.
    clear Hall.
    unfold SurveyNameValidator in H1. rewrite Hget in H1.
    unfold SurveyQuestionsValidator in H2. rewrite Hget, Hpk in H2.
    fold questions in H2.
    unfold SurveyAnswersValidator in H3. rewrite Hget, Hpk in H3.
    apply UniqueQuestionsValidator_returns in H4.
    rewrite UniqueAnswerOptionsQuestionValidator_returns in H5.
    case_bool_decide as Hname; [done|].
    case_bool_decide as Hq; [done|].
    rewrite for_each_returns in H2. rewrite for_each_returns in H3.
    split; [done|]. split; [done|]. split; [|split; [|done]].
    + intros q Hin. specialize (H2 q Hin). by case_bool_decide.
    + intros q Hin Ht. specialize (H3 q).
      rewrite elem_of_non_text_questions in H3.
      specialize (H3 (conj Hin Ht)). case_bool_decide; [done|].
      split; [done|]. intros o Ho.
      rewrite for_each_returns in H3. specialize (H3 o Ho).
      by case_bool_decide.
  - intros (Hname & Hq & Hqn & Hopt & Hnd & Hndo) v Hv.
    repeat (apply elem_of_cons in Hv as [->|Hv]); [| | | | |by inversion Hv].
    + unfold SurveyNameValidator. rewrite Hget. by case_bool_decide.
    + unfold SurveyQuestionsValidator. rewrite Hget, Hpk. fold questions.
      case_bool_decide; [done|]. apply for_each_returns. intros q Hin.
      specialize (Hqn q Hin). by case_bool_decide.
    + unfold SurveyAnswersValidator. rewrite Hget, Hpk.
      apply for_each_returns. intros q Hin.
      apply elem_of_non_text_questions in Hin as [Hin Ht].
      destruct (Hopt q Hin Ht) as [Hne Hnames].
      case_bool_decide; [done|]. apply for_each_returns. intros o Ho.
      specialize (Hnames o Ho). by case_bool_decide.
    + by apply UniqueQuestionsValidator_returns.
    + by apply UniqueAnswerOptionsQuestionValidator_returns.
Qed.

Lemma create_survey_checker_passes_witness :
  Survey_objects_get Sample.db (s_uuid (uar_survey Sample.complete_request))
  = Returns Sample.survey
  ∧ NoDup (q_name <$> survey_questions Sample.db 1).
Proof.
  assert (Hget : Survey_objects_get Sample.db
                   (s_uuid (uar_survey Sample.complete_request))
                 = Returns Sample.survey) by reflexivity.
  assert (Hpass : validate_all CreateSurveyChecker Sample.complete_request
                    Sample.db = Returns tt) by (vm_compute; reflexivity).
  split; [exact Hget|].
  exact (proj1 (proj2 (proj2 (proj2 (proj2
           (proj1 (create_survey_checker_passes Sample.complete_request
                     Sample.db Sample.survey Hget) Hpass)))))).
Defined.

(** ** Completing a survey *)

Lemma insert_sorted_fmap {A} (le : A → A → bool) (f : A → A) x l :
  (∀ a b, le (f a) (f b) = le a b) →
  insert_sorted le (f x) (f <$> l) = f <$> insert_sorted le x l.
Proof.
  intros Hle. induction l as [|y l IH]; [done|].
  rewrite fmap_cons. cbn [insert_sorted]. rewrite Hle.
  destruct (le x y); [done|]. by rewrite IH.
Qed.

Lemma order_by_fmap {A} (le : A → A → bool) (f : A → A) l :
  (∀ a b, le (f a) (f b) = le a b) →
  order_by le (f <$> l) = f <$> order_by le l.
Proof.
  intros Hle. induction l as [|x l IH]; [done|].
  rewrite fmap_cons. unfold order_by in *. cbn [foldr]. rewrite IH.
  by apply insert_sorted_fmap.
Qed.

Lemma head_fmap {A B} (f : A → B) (l : list A) : head (f <$> l) = f <$> head l.
Proof. by destruct l. Qed.

Lemma head_filter_is_Some {A} (P : A → Prop) `{!∀ x, Decision (P x)}
    (l : list A) (x : A) :
  x ∈ l → P x → is_Some (head (filter P l)).
Proof.
  intros Hx HP. destruct (filter P l) as [|y k] eqn:E; [|by eexists].
  exfalso. by eapply filter_nil_not_elem_of.
Qed.

Lemma UserResponse_save_fmap (r : UserResponse) now rows :
  NoDup (ur_uuid <$> rows) → r ∈ rows →
  UserResponse_save
    (mkUserResponse (ur_uuid r) (ur_survey r) (ur_user r) (ur_created_at r)
       (Some now) COMPLETED) rows
  = completed_row (ur_uuid r) now <$> rows.
Proof.
  induction rows as [|x rows IH]; intros Hnd Hin; [by inversion Hin|].
  simpl in Hnd. apply NoDup_cons in Hnd as [Hni Hnd]. simpl.
  unfold completed_row at 1. case_decide as Heq.
  - assert (x = r) as ->.
    { apply elem_of_cons in Hin as [->|Hin]; [done|]. exfalso. apply Hni.
      rewrite Heq. apply list_elem_of_fmap. by exists r. }
    f_equal. symmetry. rewrite <- (list_fmap_id rows) at 2.
    apply list_fmap_ext. intros i y Hy. unfold completed_row.
    case_decide as Hy'; [|done]. exfalso. apply Hni. rewrite <- Hy'.
    apply list_elem_of_fmap. exists y. split; [done|].
    by eapply list_elem_of_lookup_2.
  - f_equal. apply IH; [done|].
    apply elem_of_cons in Hin as [->|Hin]; [done|done].
Qed.

Lemma get_user_response_completed db survey user cookie pk now :
  get_user_response
    (set_user_responses (completed_row pk now <$> user_responses db) db)
    survey user cookie
  = completed_row pk now <$> get_user_response db survey user cookie.
Proof.
  assert (Hfields : ∀ x, ur_uuid (completed_row pk now x) = ur_uuid x
                         ∧ ur_survey (completed_row pk now x) = ur_survey x
                         ∧ ur_user (completed_row pk now x) = ur_user x
                         ∧ ur_created_at (completed_row pk now x)
                           = ur_created_at x).
  { intros x. unfold completed_row. by case_decide. }
  unfold get_user_response. simpl.
  rewrite filter_fmap_stable
    by (intros x; by destruct (Hfields x) as (_ & -> & _)).
  rewrite order_by_fmap
    by (intros a b; destruct (Hfields a) as (_ & _ & _ & ->);
        by destruct (Hfields b) as (_ & _ & _ & ->)).
  destruct (s_is_anonymous survey).
  - rewrite filter_fmap_stable
      by (intros x; by destruct (Hfields x) as (-> & _)).
    apply head_fmap.
  - rewrite filter_fmap_stable
      by (intros x; by destruct (Hfields x) as (_ & _ & -> & _)).
    apply head_fmap.
Qed.

Lemma get_user_response_elem db survey user cookie r :
  get_user_response db survey user cookie = Some r →
  r ∈ user_responses db ∧ ur_survey r = s_uuid survey.
Proof.
  unfold get_user_response. intros H.
  destruct (s_is_anonymous survey);
    apply head_filter_elem in H as [_ H];
    apply elem_of_order_by in H;
    by apply list_elem_of_filter in H as [? ?].
Qed.

(** X6.  With distinct session keys, [complete_survey] marks exactly
    the session it resolves: that session becomes Completed with
    [completed_at] the current time and keeps its key, survey, user
    and creation time; every other session and every answer stays as
    it was.  Afterwards the same caller is reported as completed, and
    the completion pipeline rejects a further attempt with "survey
    already completed". *)
Theorem complete_survey_marks_session
    (req : UserAnswerRequest) (now : datetime) (db db' : DB) :
  NoDup (ur_uuid <$> user_responses db) →
  CompleteSurveyService.complete_survey (uar_survey req) (uar_user req)
    (uar_user_response_uuid req) now db = Returns db' →
  ∃ r,
    get_user_response db (uar_survey req) (uar_user req)
      (uar_user_response_uuid req) = Some r
    ∧ get_user_response db' (uar_survey req) (uar_user req)
        (uar_user_response_uuid req)
      = Some (mkUserResponse (ur_uuid r) (ur_survey r) (ur_user r)
                (ur_created_at r) (Some now) COMPLETED)
    ∧ user_responses db' = completed_row (ur_uuid r) now <$> user_responses db
    ∧ user_answers db' = user_answers db
    ∧ IsCompletedChecker.check
        (get_user_response db' (uar_survey req) (uar_user req)
           (uar_user_response_uuid req)) = true
    ∧ validate_all CompletedSurveyChecker req db'
      = raise_error "Опрос уже пройден".
Proof.
  intros Hnd Hdone. unfold CompleteSurveyService.complete_survey in Hdone.
  destruct (get_user_response db _ _ _) as [r|] eqn:Hr; [|done].
  injection Hdone as <-. exists r. split; [done|].
  destruct (get_user_response_elem _ _ _ _ _ Hr) as [Hin _].
  rewrite UserResponse_save_fmap by done.
  assert (Hget' : get_user_response
                    (set_user_responses
                       (completed_row (ur_uuid r) now <$> user_responses db) db)
                    (uar_survey req) (uar_user req) (uar_user_response_uuid req)
                  = Some (mkUserResponse (ur_uuid r) (ur_survey r) (ur_user r)
                            (ur_created_at r) (Some now) COMPLETED)).
  { rewrite get_user_response_completed, Hr. simpl.
    unfold completed_row. by rewrite decide_True. }
  split; [done|]. split; [done|]. split; [done|]. split.
  - by rewrite Hget'.
  - unfold validate_all, CompletedSurveyChecker. simpl.
    unfold as_validator. simpl. unfold _is_survey_completed.
    by rewrite Hget'.
Qed.

Lemma complete_survey_marks_session_witness :
  NoDup (ur_uuid <$> user_responses Sample.db_two_texts)
  ∧ (∃ db',
       CompleteSurveyService.complete_survey Sample.survey (Some 7%N) None 300
         Sample.db_two_texts = Returns db')
  ∧ ∃ r, get_user_response Sample.db_two_texts Sample.survey (Some 7%N) None
         = Some r.
Proof.
  assert (Hnd : NoDup (ur_uuid <$> user_responses Sample.db_two_texts)).
  { apply (bool_decide_unpack _). vm_compute. exact I. }
  split; [exact Hnd|]. split; [eexists; reflexivity|].
  destruct (complete_survey_marks_session Sample.complete_request 300
              Sample.db_two_texts _ Hnd eq_refl) as (r & Hr & _).
  exists r. exact Hr.
Defined.

(** X7.  When the caller's identity is chosen as the views choose it
    (no user exactly for anonymous surveys) and the completion
    pipeline passes, [complete_survey] finds the session that the
    pipeline saw: it returns, and never fails on a missing session. *)
Theorem complete_survey_after_validation
    (req : UserAnswerRequest) (now : datetime) (db : DB) :
  (uar_user req = None ↔ s_is_anonymous (uar_survey req) = true) →
  validate_all CompletedSurveyChecker req db = Returns tt →
  ∃ r db',
    get_user_response db (uar_survey req) (uar_user req)
      (uar_user_response_uuid req) = Some r
    ∧ ur_status r ≠ COMPLETED
    ∧ CompleteSurveyService.complete_survey (uar_survey req) (uar_user req)
        (uar_user_response_uuid req) now db = Returns db'.
Proof.
  intros Hident Hpass.
  unfold validate_all, CompletedSurveyChecker in Hpass.
  rewrite for_each_returns in Hpass.
  pose proof (Hpass (as_validator CompletedSurveyValidator) ltac:(left)) as H1.
  pose proof (Hpass SurveyNotStartedValidator ltac:(right; left)) as H2.
  clear Hpass.
  assert (Hsome : is_Some (get_user_response db (uar_survey req) (uar_user req)
                             (uar_user_response_uuid req))).
  { unfold SurveyNotStartedValidator, queryset_get in H2.
    destruct (filter _ _) as [|x [|y l]] eqn:E; try done.
    assert (Hx : x ∈ filter (λ r, session_matches (uar_user req)
                                    (uar_user_response_uuid req) r
                                  ∧ ur_survey r = s_uuid (uar_survey req))
                        (user_responses db)) by (rewrite E; left).
    apply list_elem_of_filter in Hx as [[Hm Hs] Hx].
    assert (Hsorted : x ∈ order_by (λ a b, (ur_created_at b <=? ur_created_at a)%Z)
                            (filter (λ r, ur_survey r = s_uuid (uar_survey req))
                               (user_responses db))).
    { apply elem_of_order_by. by apply list_elem_of_filter. }
    unfold get_user_response. unfold session_matches in Hm.
    destruct (uar_user req) as [u|] eqn:Hu.
    - destruct (s_is_anonymous (uar_survey req)) eqn:Ha.
      + destruct Hident as [_ Hident]. by specialize (Hident eq_refl).
      + eapply head_filter_is_Some; [exact Hsorted|].
        by apply bool_decide_unpack in Hm.
    - destruct Hident as [Hident _]. rewrite (Hident eq_refl).
      eapply head_filter_is_Some; [exact Hsorted|].
      by apply bool_decide_unpack in Hm. }
  destruct Hsome as [r Hr]. exists r.
  unfold CompleteSurveyService.complete_survey. rewrite Hr.
  eexists. split; [done|]. split; [|done].
  unfold as_validator in H1. simpl in H1. unfold _is_survey_completed in H1.
  rewrite Hr in H1. by case_bool_decide.
Qed.

Lemma complete_survey_after_validation_witness :
  (uar_user Sample.complete_request = None
   ↔ s_is_anonymous (uar_survey Sample.complete_request) = true)
  ∧ validate_all CompletedSurveyChecker Sample.complete_request
      Sample.db_two_texts = Returns tt
  ∧ ∃ r db',
      get_user_response Sample.db_two_texts Sample.survey (Some 7%N) None
      = Some r
      ∧ ur_status r ≠ COMPLETED
      ∧ CompleteSurveyService.complete_survey Sample.survey (Some 7%N) None 300
          Sample.db_two_texts = Returns db'.
Proof.
  assert (Hident : uar_user Sample.complete_request = None
                   ↔ s_is_anonymous (uar_survey Sample.complete_request) = true)
    by (split; discriminate).
  assert (Hpass : validate_all CompletedSurveyChecker Sample.complete_request
                    Sample.db_two_texts = Returns tt)
    by (vm_compute; reflexivity).
  split; [exact Hident|]. split; [exact Hpass|].
  exact (complete_survey_after_validation Sample.complete_request 300
           Sample.db_two_texts Hident Hpass).
Defined.

(** ** CanFinishChecker *)

Lemma NoDup_fmap_filter {A B} (f : A → B) (P : A → Prop)
    `{!∀ x, Decision (P x)} (l : list A) :
  NoDup (f <$> l) → NoDup (f <$> filter P l).
Proof.
  induction l as [|x l IH]; [done|]. rewrite fmap_cons, NoDup_cons.
  intros [Hni Hnd]. rewrite filter_cons. case_decide; [|by apply IH].
  rewrite fmap_cons. apply NoDup_cons. split; [|by apply IH].
  intros Hin. apply Hni. apply list_elem_of_fmap in Hin as (y & -> & Hy).
  apply list_elem_of_filter in Hy as [_ Hy]. apply list_elem_of_fmap. eauto.
Qed.

(** X8.  For a session all of whose answers bear on questions of its
    survey, and with distinct question keys, [CanFinishChecker] says
    yes exactly when every question of the survey has at least one
    answer from the session. *)
Theorem can_finish_iff_every_question_answered
    (db : DB) (user_response : UserResponse) :
  NoDup (q_uuid <$> questions db) →
  (∀ a, a ∈ user_answers db →
        ua_user_response a = ur_uuid user_response →
        ∃ q, q ∈ questions db ∧ q_uuid q = ua_question a
             ∧ q_survey q = ur_survey user_response) →
  CanFinishChecker.check db (Some user_response) = true ↔
  ∀ q, q ∈ questions db → q_survey q = ur_survey user_response →
       ∃ a, a ∈ user_answers db
            ∧ ua_user_response a = ur_uuid user_response
            ∧ ua_question a = q_uuid q.
Proof.
  intros Hnd Hown. unfold CanFinishChecker.check.
  rewrite bool_decide_eq_true.
  set (answered := remove_dups
                     (ua_question <$>
                        filter (λ a, ua_user_response a = ur_uuid user_response)
                          (user_answers db))).
  set (asked := filter (λ q, q_survey q = ur_survey user_response)
                  (questions db)).
  rewrite <- (length_fmap q_uuid asked).
  assert (Hnd_answered : NoDup answered) by apply NoDup_remove_dups.
  assert (Hnd_asked : NoDup (q_uuid <$> asked)) by by apply NoDup_fmap_filter.
  assert (Hsub : ∀ x, x ∈ answered → x ∈ q_uuid <$> asked).
  { intros x Hx. unfold answered in Hx. rewrite elem_of_remove_dups in Hx.
    apply list_elem_of_fmap in Hx as (a & -> & Ha).
    apply list_elem_of_filter in Ha as [Hr Ha].
    destruct (Hown a Ha Hr) as (q & Hq & Hk & Hs).
    apply list_elem_of_fmap. exists q. split; [done|].
    by apply list_elem_of_filter. }
  assert (Hanswered : ∀ x, x ∈ answered ↔
            ∃ a, a ∈ user_answers db
                 ∧ ua_user_response a = ur_uuid user_response
                 ∧ ua_question a = x).
  { intros x. unfold answered. rewrite elem_of_remove_dups, list_elem_of_fmap.
    split.
    - intros (a & -> & Ha). apply list_elem_of_filter in Ha as [Hr Ha]. eauto.
    - intros (a & Ha & Hr & <-). exists a. split; [done|].
      by apply list_elem_of_filter. }
  split.
  - intros Hlen q Hq Hs. apply Hanswered.
    assert (Hperm : answered ≡ₚ q_uuid <$> asked).
    { apply submseteq_length_Permutation; [by apply NoDup_submseteq|lia]. }
    rewrite Hperm. apply list_elem_of_fmap. exists q. split; [done|].
    by apply list_elem_of_filter.
  - intros Hall. symmetry. apply Permutation_length.
    apply NoDup_Permutation; [done|done|]. intros x. split; [apply Hsub|].
    intros Hx. apply list_elem_of_fmap in Hx as (q & -> & Hq).
    apply list_elem_of_filter in Hq as [Hs Hq]. apply Hanswered.
    by apply Hall.
Qed.

Lemma can_finish_iff_every_question_answered_witness :
  NoDup (q_uuid <$> questions Sample.db_two_texts)
  ∧ (∀ a, a ∈ user_answers Sample.db_two_texts →
          ua_user_response a = ur_uuid Sample.session →
          ∃ q, q ∈ questions Sample.db_two_texts ∧ q_uuid q = ua_question a
               ∧ q_survey q = ur_survey Sample.session)
  ∧ ∀ q, q ∈ questions Sample.db_two_texts →
         q_survey q = ur_survey Sample.session →
         ∃ a, a ∈ user_answers Sample.db_two_texts
              ∧ ua_user_response a = ur_uuid Sample.session
              ∧ ua_question a = q_uuid q.
Proof.
  assert (Hnd : NoDup (q_uuid <$> questions Sample.db_two_texts)).
  { apply (bool_decide_unpack _). vm_compute. exact I. }
  assert (Hown : ∀ a, a ∈ user_answers Sample.db_two_texts →
                   ua_user_response a = ur_uuid Sample.session →
                   ∃ q, q ∈ questions Sample.db_two_texts
                        ∧ q_uuid q = ua_question a
                        ∧ q_survey q = ur_survey Sample.session).
  { intros a Ha _. simpl in Ha.
    repeat (apply elem_of_cons in Ha as [->|Ha]);
      [exists Sample.text|exists Sample.text|exists Sample.multi
      |exists Sample.single|by inversion Ha];
      (split; [simpl; set_solver|split; reflexivity]). }
  split; [exact Hnd|]. split; [exact Hown|].
  exact (proj1 (can_finish_iff_every_question_answered Sample.db_two_texts
                  Sample.session Hnd Hown) eq_refl).
Defined.

(** ** Aggregate statistics: counts and bounds *)

Lemma insert_sorted_Permutation {A} (le : A → A → bool) x l :
  insert_sorted le x l ≡ₚ x :: l.
Proof.
  induction l as [|y l IH]; simpl; [done|].
  destruct (le x y); [done|]. rewrite IH. apply Permutation_swap.
Qed.

Lemma order_by_Permutation {A} (le : A → A → bool) l : order_by le l ≡ₚ l.
Proof.
  induction l as [|x l IH]; simpl; [done|].
  rewrite insert_sorted_Permutation. unfold order_by in IH. by rewrite IH.
Qed.

Lemma sum_indicator_absent {A} `{EqDecision A} (P : A → Prop)
    `{!∀ x, Decision (P x)} (x : A) (ks : list A) :
  x ∉ ks →
  sum_list ((λ k, if decide (x = k) then 1 else 0) <$> filter P ks) = 0.
Proof.
  induction ks as [|k ks IH]; intros Hx; [done|].
  rewrite filter_cons. apply not_elem_of_cons in Hx as [Hne Hx].
  case_decide; [|by apply IH].
  rewrite fmap_cons. simpl sum_list. rewrite decide_False by done.
  by rewrite IH.
Qed.

Lemma sum_indicator {A} `{EqDecision A} (P : A → Prop)
    `{!∀ x, Decision (P x)} (x : A) (ks : list A) :
  NoDup ks → x ∈ ks →
  sum_list ((λ k, if decide (x = k) then 1 else 0) <$> filter P ks)
  = if decide (P x) then 1 else 0.
Proof.
  induction ks as [|k ks IH]; intros Hnd Hin; [by inversion Hin|].
  apply NoDup_cons in Hnd as [Hni Hnd].
  rewrite filter_cons. destruct (decide (x = k)) as [Heq|Hne].
  - subst k. destruct (decide (P x)) as [HP|HP].
    + rewrite fmap_cons. simpl sum_list. rewrite decide_True by done.
      by rewrite sum_indicator_absent.
    + by apply sum_indicator_absent.
  - apply elem_of_cons in Hin as [?|Hin]; [done|].
    destruct (decide (P k)); [|by apply IH].
    rewrite fmap_cons. simpl sum_list. rewrite decide_False by done.
    by apply IH.
Qed.

Lemma sum_counts_nil {A} `{EqDecision A} (ks : list A) :
  sum_list ((λ k, length (filter (λ k', k' = k) [])) <$> ks) = 0.
Proof. induction ks as [|k ks IH]; [done|]. rewrite fmap_cons. exact IH. Qed.

Lemma sum_counts_cons {A} `{EqDecision A} (x : A) (l ks : list A) :
  sum_list ((λ k, length (filter (λ k', k' = k) (x :: l))) <$> ks)
  = sum_list ((λ k, if decide (x = k) then 1 else 0) <$> ks)
    + sum_list ((λ k, length (filter (λ k', k' = k) l)) <$> ks).
Proof.
  induction ks as [|k ks IH]; [done|].
  rewrite !fmap_cons. simpl sum_list. rewrite IH.
  rewrite filter_cons. case_decide; simpl; lia.
Qed.

Lemma sum_group_counts {A} `{EqDecision A} (P : A → Prop)
    `{!∀ x, Decision (P x)} (ks l : list A) :
  NoDup ks → (∀ x, x ∈ l → x ∈ ks) →
  sum_list ((λ k, length (filter (λ k', k' = k) l)) <$> filter P ks)
  = length (filter P l).
Proof.
  intros Hnd. induction l as [|x l IH]; intros Hsub.
  - apply sum_counts_nil.
  - rewrite sum_counts_cons, IH by (intros y Hy; apply Hsub; by right).
    rewrite sum_indicator by (done || apply Hsub; left).
    rewrite filter_cons. case_decide; simpl; lia.
Qed.

Lemma stat_keys_of_question db (qu : uuid) (l : list UserAnswer) :
  (∀ a, a ∈ l → is_Some (stat_key db a)) →
  length (filter (λ k : StatKey, k.1.1.2.1.1 = qu) (omap (stat_key db) l))
  = length (filter (λ a, ua_question a = qu) l).
Proof.
  induction l as [|a l IH]; intros Hall; [done|].
  destruct (Hall a ltac:(left)) as [k Hk].
  pose proof (stat_key_question db a k Hk) as Hq.
  assert (IH' := IH ltac:(intros y Hy; apply Hall; by right)).
  cbn [omap list_omap]. rewrite Hk. rewrite !filter_cons.
  destruct (decide (k.1.1.2.1.1 = qu)) as [Hd|Hd].
  - rewrite decide_True by congruence. simpl. f_equal. exact IH'.
  - rewrite decide_False by congruence. exact IH'.
Qed.

Lemma stat_row_fields db survey_uuid keys (k : StatKey) :
  question_id__uuid (stat_row db survey_uuid keys k) = k.1.1.2.1.1
  ∧ answer_count (stat_row db survey_uuid keys k)
    = length (filter (λ k', k' = k) keys)
  ∧ total_count (stat_row db survey_uuid keys k)
    = total_counts db survey_uuid k.1.1.2.1.1.
Proof. by destruct k as [[[[[su sn] ss] [[qu qn] qt]] [ou on]] [qs os]]. Qed.

Lemma sum_answer_counts db survey_uuid keys (qu : uuid) (ks : list StatKey) :
  sum_list (answer_count <$>
              filter (λ row, question_id__uuid row = qu)
                (stat_row db survey_uuid keys <$> ks))
  = sum_list ((λ k, length (filter (λ k', k' = k) keys)) <$>
                filter (λ k : StatKey, k.1.1.2.1.1 = qu) ks).
Proof.
  induction ks as [|k ks IH]; [done|].
  destruct (stat_row_fields db survey_uuid keys k) as (Hq & Hc & _).
  rewrite fmap_cons, !filter_cons, Hq.
  case_decide; [|exact IH].
  rewrite !fmap_cons. simpl sum_list. by rewrite Hc, IH.
Qed.

(** X9.  When every answer of a completed session resolves its
    question and the question's survey, the answer counts of the rows
    of one question add up to that question's total count. *)
Theorem survey_stat_counts_add_up (db : DB) (survey_uuid qu : uuid) :
  (∀ a, a ∈ completed_answers db survey_uuid → is_Some (stat_key db a)) →
  sum_list (answer_count <$>
              filter (λ row, question_id__uuid row = qu)
                (get_survey_stat db survey_uuid))
  = total_counts db survey_uuid qu.
Proof.
  intros Hjoin. unfold get_survey_stat.
  set (keys := omap (stat_key db) (completed_answers db survey_uuid)).
  set (ks := order_by stat_key_leb (remove_dups keys)).
  assert (Hnd : NoDup ks).
  { unfold ks. rewrite order_by_Permutation. apply NoDup_remove_dups. }
  assert (Hsub : ∀ k, k ∈ keys → k ∈ ks).
  { intros k Hk. unfold ks. apply elem_of_order_by.
    by rewrite elem_of_remove_dups. }
  rewrite sum_answer_counts, sum_group_counts by done.
  unfold keys, total_counts. by apply stat_keys_of_question.
Qed.

Lemma survey_stat_counts_add_up_witness :
  sum_list (answer_count <$>
              filter (λ row, question_id__uuid row = 2%N)
                (get_survey_stat Sample.db_stat 1))
  = total_counts Sample.db_stat 1 2.
Proof.
  apply survey_stat_counts_add_up.
  intros a Ha. apply (bool_decide_unpack _). revert a Ha.
  apply Forall_forall. apply (bool_decide_unpack _). vm_compute. reflexivity.
Defined.

Lemma Round2_bounds (x : Q) : (0 <= x)%Q → (x <= 100)%Q →
  (0 <= Round2 x)%Q ∧ (Round2 x <= 100)%Q.
Proof.
  intros H0 H100. unfold Round2.
  assert (Hlo : (0 <= Qfloor (x * 100 + (1 # 2)))%Z).
  { change 0%Z with (Qfloor 0). apply Qfloor_resp_le. lra. }
  assert (Hhi : (Qfloor (x * 100 + (1 # 2)) <= 10000)%Z).
  { change 10000%Z with (Qfloor (100 * 100 + (1 # 2))).
    apply Qfloor_resp_le. lra. }
  set (n := Qfloor (x * 100 + (1 # 2))) in *. clearbody n.
  unfold Qle. simpl. lia.
Qed.

(** X10.  Every percentage of the aggregate query lies between 0 and
    100 and is within 1/200 of answer_count * 100 / total_count. *)
Theorem survey_stat_percentage_bounds (db : DB) (survey_uuid : uuid)
    (row : StatRow) :
  row ∈ get_survey_stat db survey_uuid →
  (0 <= percentage row)%Q ∧ (percentage row <= 100)%Q
  ∧ (inject_Z (Z.of_nat (answer_count row)) * 100
       / inject_Z (Z.of_nat (total_count row)) - (1 # 200)
     < percentage row)%Q
  ∧ (percentage row
     <= inject_Z (Z.of_nat (answer_count row)) * 100
          / inject_Z (Z.of_nat (total_count row)) + (1 # 200))%Q.
Proof.
  intros Hrow. apply get_survey_stat_elem in Hrow as (k & Hk & ->).
  pose proof (answer_count_le_total db k (completed_answers db survey_uuid))
    as Hle.
  destruct (stat_row_fields db survey_uuid
              (omap (stat_key db) (completed_answers db survey_uuid)) k)
    as (_ & Hc & Ht).
  assert (Hp : percentage (stat_row db survey_uuid
                 (omap (stat_key db) (completed_answers db survey_uuid)) k)
               = Round2 (inject_Z (Z.of_nat (length (filter (λ k', k' = k)
                   (omap (stat_key db) (completed_answers db survey_uuid)))))
                   * 100
                 / inject_Z (Z.of_nat (total_counts db survey_uuid k.1.1.2.1.1)))%Q).
  { by destruct k as [[[[[su sn] ss] [[qu qn] qt]] [ou on]] [qs os]]. }
  rewrite Hp, Hc, Ht. clear Hp Hc Ht.
  assert (Hpos : 1 ≤ length (filter (λ k', k' = k)
                   (omap (stat_key db) (completed_answers db survey_uuid)))).
  { assert (Hin : k ∈ filter (λ k', k' = k)
                      (omap (stat_key db) (completed_answers db survey_uuid)))
      by (by apply list_elem_of_filter).
    destruct (filter _ _) as [|x l]; [by inversion Hin|simpl; lia]. }
  unfold total_counts.
  set (c := length (filter (λ k', k' = k) _)) in *.
  set (t := length (filter (λ a, ua_question a = k.1.1.2.1.1) _)) in *.
  clearbody c t.
  assert (Ht : (0 < inject_Z (Z.of_nat t))%Q).
  { change 0%Q with (inject_Z 0). rewrite <- Zlt_Qlt. lia. }
  assert (Hc : (0 <= inject_Z (Z.of_nat c))%Q).
  { change 0%Q with (inject_Z 0). rewrite <- Zle_Qle. lia. }
  assert (Hct : (inject_Z (Z.of_nat c) <= inject_Z (Z.of_nat t))%Q).
  { rewrite <- Zle_Qle. lia. }
  assert (Hx0 : (0 <= inject_Z (Z.of_nat c) * 100 / inject_Z (Z.of_nat t))%Q).
  { apply Qle_shift_div_l; [done|]. lra. }
  assert (Hx1 : (inject_Z (Z.of_nat c) * 100 / inject_Z (Z.of_nat t) <= 100)%Q).
  { apply Qle_shift_div_r; [done|]. lra. }
  destruct (Round2_bounds _ Hx0 Hx1) as [? ?].
  destruct (Round2_spec (inject_Z (Z.of_nat c) * 100 / inject_Z (Z.of_nat t)))
    as [? ?].
  done.
Qed.

Lemma survey_stat_percentage_bounds_witness :
  (0 <= (5000 # 100))%Q ∧ ((5000 # 100) <= 100)%Q
  ∧ (inject_Z 2 * 100 / inject_Z 4 - (1 # 200) < (5000 # 100))%Q
  ∧ ((5000 # 100) <= inject_Z 2 * 100 / inject_Z 4 + (1 # 200))%Q.
Proof.
  assert (Hin : mkStatRow 1 "Survey 1" ACTIVE 2 "Вопрос 1" MULTIPLE_CHOICE
                  (Some 21%N) (Some "Option 1") 2 4 (5000 # 100)%Q
                ∈ get_survey_stat Sample.db_stat 1).
  { vm_compute. left. }
  exact (survey_stat_percentage_bounds Sample.db_stat 1 _ Hin).
Defined.

(** ** The fold of [stat_survey] *)

Section DictFacts.
Context {K : Type} `{EqDecision K} {V : Type}.
Implicit Types (d : Dict.t K V) (k : K) (v : V).

Lemma Dict_get_cons k k' v d :
  Dict.get k ((k', v) :: d)
  = if decide (k' = k) then Some v else Dict.get k d.
Proof.
  unfold Dict.get, Dict.t. rewrite filter_cons. simpl. by case_decide.
Qed.

Lemma Dict_get_set k v d : Dict.get k (Dict.set k v d) = Some v.
Proof.
  induction d as [|[k' v'] d IH]; simpl.
  - by rewrite Dict_get_cons, decide_True.
  - case_decide; rewrite Dict_get_cons.
    + by rewrite decide_True.
    + by rewrite decide_False.
Qed.

Lemma Dict_get_set_ne k k' v d :
  k ≠ k' → Dict.get k' (Dict.set k v d) = Dict.get k' d.
Proof.
  intros Hne. induction d as [|[k0 v0] d IH]; simpl.
  - by rewrite Dict_get_cons, decide_False.
  - case_decide; rewrite !Dict_get_cons.
    + subst k0. by rewrite !decide_False.
    + case_decide; [done|exact IH].
Qed.

Lemma Dict_get_is_Some k d : is_Some (Dict.get k d) ↔ k ∈ d.*1.
Proof.
  induction d as [|[k' v'] d IH].
  - split; [by intros [? ?]|by intros ?%elem_of_nil].
  - rewrite Dict_get_cons, fmap_cons, elem_of_cons. cbn [fst].
    destruct (decide (k' = k)) as [->|Hne].
    + split; [by left|by eexists].
    + rewrite IH. split; [by right|]. by intros [?|?].
Qed.

Lemma Dict_keys_set k v d :
  (Dict.set k v d).*1 = if decide (k ∈ d.*1) then d.*1 else d.*1 ++ [k].
Proof.
  induction d as [|[k' v'] d IH].
  - rewrite decide_False; [done|]. by intros ?%elem_of_nil.
  - cbn [Dict.set]. rewrite (fmap_cons fst (k', v') d). cbn [fst].
    destruct (decide (k' = k)) as [->|Hne].
    + rewrite decide_True; [done|]. left.
    + rewrite fmap_cons, IH. cbn [fst].
      destruct (decide (k ∈ d.*1)) as [Hin|Hni].
      * rewrite decide_True; [done|]. by right.
      * rewrite decide_False; [done|]. rewrite elem_of_cons.
        by intros [?|?].
Qed.

Lemma Dict_keys_set_NoDup k v d :
  NoDup d.*1 → NoDup (Dict.set k v d).*1.
Proof.
  intros Hnd. rewrite Dict_keys_set. case_decide; [done|].
  apply NoDup_app. split; [done|]. split; [|apply NoDup_singleton].
  intros x Hx ->%list_elem_of_singleton. done.
Qed.

Lemma Dict_get_elem k v d :
  NoDup d.*1 → (k, v) ∈ d → Dict.get k d = Some v.
Proof.
  induction d as [|[k' v'] d IH]; intros Hnd Hin; [by inversion Hin|].
  rewrite fmap_cons in Hnd. apply NoDup_cons in Hnd as [Hni Hnd].
  rewrite Dict_get_cons. apply elem_of_cons in Hin as [Heq|Hin].
  - injection Heq as -> ->. by rewrite decide_True.
  - rewrite decide_False; [by apply IH|]. simpl in Hni. intros ->.
    apply Hni. apply list_elem_of_fmap. by exists (k, v).
Qed.
End DictFacts.

(** The same facts for [PyDict], the dict with string keys. *)
Section PyDictFacts.
Context {V : Type}.
Implicit Types (d : PyDict.t V) (k : string) (v : V).

Lemma PyDict_get_cons k k' v d :
  PyDict.get k ((k', v) :: d)
  = if decide (k' = k) then Some v else PyDict.get k d.
Proof. exact (Dict_get_cons k k' v d). Qed.

Lemma PyDict_set_Dict k v d : PyDict.set k v d = Dict.set k v d.
Proof.
  induction d as [|[k' v'] d IH]; [done|]. simpl. by rewrite IH.
Qed.

Lemma PyDict_get_set k v d : PyDict.get k (PyDict.set k v d) = Some v.
Proof. rewrite PyDict_set_Dict. exact (Dict_get_set k v d). Qed.

Lemma PyDict_get_set_ne k k' v d :
  k ≠ k' → PyDict.get k' (PyDict.set k v d) = PyDict.get k' d.
Proof. rewrite PyDict_set_Dict. exact (Dict_get_set_ne k k' v d). Qed.

Lemma PyDict_get_is_Some k d : is_Some (PyDict.get k d) ↔ k ∈ d.*1.
Proof. exact (Dict_get_is_Some k d). Qed.

Lemma PyDict_keys_set_NoDup k v d :
  NoDup d.*1 → NoDup (PyDict.set k v d).*1.
Proof. rewrite PyDict_set_Dict. exact (Dict_keys_set_NoDup k v d). Qed.

Lemma PyDict_get_elem k v d :
  NoDup d.*1 → (k, v) ∈ d → PyDict.get k d = Some v.
Proof. exact (Dict_get_elem k v d). Qed.
End PyDictFacts.

Lemma question_entry_snoc_same (rows : list StatRow) (item : StatRow) :
  question_entry (question_id__name item) (rows ++ [item])
  = Some (let question :=
            default StatSurveyFactory._question_factory
              (question_entry (question_id__name item) rows) in
          let question :=
            match qsd_uuid question with
            | None =>
                mkQuestionStatDict (Some (question_id__uuid item))
                  (question_id__name item) (Some (question_id__type item))
                  (total_count item) (qsd_answers question)
            | Some _ => question
            end in
          mkQuestionStatDict (qsd_uuid question) (qsd_name question)
            (qsd_type question) (qsd_total_count question)
            (qsd_answers question ++ [answer_data item])).
Proof.
  unfold question_entry. rewrite filter_app, filter_cons, filter_nil.
  rewrite decide_True by done.
  destruct (filter _ rows) as [|first others]; simpl; [done|].
  by rewrite fmap_app.
Qed.

Lemma question_entry_snoc_other name (rows : list StatRow) (item : StatRow) :
  question_id__name item ≠ name →
  question_entry name (rows ++ [item]) = question_entry name rows.
Proof.
  intros Hne. unfold question_entry.
  rewrite filter_app, filter_cons, filter_nil, decide_False by done.
  by rewrite app_nil_r.
Qed.

Lemma question_entry_is_Some name (rows : list StatRow) :
  is_Some (question_entry name rows) ↔ name ∈ question_id__name <$> rows.
Proof.
  unfold question_entry. rewrite list_elem_of_fmap. split.
  - intros Hsome.
    destruct (filter _ rows) as [|first others] eqn:E; [by destruct Hsome|].
    assert (Hin : first ∈ filter (λ row, question_id__name row = name) rows)
      by (rewrite E; left).
    apply list_elem_of_filter in Hin as [Hname Hin]. by exists first.
  - intros (row & Hname & Hin).
    assert (Hin' : row ∈ filter (λ row, question_id__name row = name) rows)
      by (by apply list_elem_of_filter).
    destruct (filter _ rows); [by inversion Hin'|done].
Qed.

(** The accumulator of [stat_survey] after rows that all carry the
    survey name [n]: empty before the first row, afterwards one survey
    whose question dictionary holds [question_entry] under each name. *)
Lemma accumulate_one_survey (n : string) (rows : list StatRow) :
  (∀ row, row ∈ rows → question_id__survey_id__name row = n) →
  ∃ questions : PyDict.t QuestionStatDict,
    NoDup questions.*1
    ∧ (∀ name, PyDict.get name questions = question_entry name rows)
    ∧ match last rows with
      | None => StatSurveyService.accumulate rows = [] ∧ questions = []
      | Some item =>
          StatSurveyService.accumulate rows
          = [(n, mkSurveyStatDict (Some (question_id__survey_id__uuid item)) n
                   (Some (question_id__survey_id__status item)) questions)]
      end.
Proof.
  induction rows as [|item rows IH] using rev_ind; intros Hn.
  - exists []. split; [constructor|]. done.
  - destruct IH as (questions & Hnd & Hget & Hacc).
    { intros row Hrow. apply Hn. apply elem_of_app. by left. }
    assert (Hitem : question_id__survey_id__name item = n).
    { apply Hn. apply elem_of_app. right. left. }
    assert (Hq : ssd_questions
                   (default StatSurveyFactory.survey_factory
                      (PyDict.get n (StatSurveyService.accumulate rows)))
                 = questions).
    { destruct (last rows).
      - by rewrite Hacc, PyDict_get_cons, decide_True.
      - destruct Hacc as [-> ->]. done. }
    eexists (PyDict.set (question_id__name item) _ questions).
    split; [by apply PyDict_keys_set_NoDup|]. split.
    + intros name. destruct (decide (question_id__name item = name)) as [<-|Hne].
      * rewrite PyDict_get_set, question_entry_snoc_same, <- Hget.
        reflexivity.
      * by rewrite PyDict_get_set_ne, question_entry_snoc_other, Hget.
    + rewrite last_snoc. unfold StatSurveyService.accumulate.
      rewrite foldl_app. simpl.
      change (foldl StatSurveyService.loop_body [] rows)
        with (StatSurveyService.accumulate rows).
      unfold StatSurveyService.loop_body. rewrite Hitem, Hq.
      destruct (last rows).
      * rewrite Hacc. simpl. by rewrite decide_True.
      * destruct Hacc as [-> _]. done.
Qed.

(** X11.  Over a non-empty list of rows that all carry one survey
    name, [stat_survey] returns that survey with one question entry
    per distinct question name: the entry carries the uuid, type and
    total count of the first row bearing the name and one answer for
    every row bearing it, in the rows' order. *)
Theorem stat_survey_groups_by_question_name (n : string)
    (rows : list StatRow) :
  rows ≠ [] →
  (∀ row, row ∈ rows → question_id__survey_id__name row = n) →
  ∃ survey_stat,
    StatSurveyService.stat_survey rows = inr survey_stat
    ∧ st_name survey_stat = n
    ∧ NoDup (qsd_name <$> st_questions survey_stat)
    ∧ (∀ name, name ∈ qsd_name <$> st_questions survey_stat
               ↔ name ∈ question_id__name <$> rows)
    ∧ (∀ question, question ∈ st_questions survey_stat →
         ∃ first others,
           filter (λ row, question_id__name row = qsd_name question) rows
           = first :: others
           ∧ qsd_uuid question = Some (question_id__uuid first)
           ∧ qsd_type question = Some (question_id__type first)
           ∧ qsd_total_count question = total_count first
           ∧ qsd_answers question = answer_data <$> first :: others).
Proof.
  intros Hne Hn.
  destruct (accumulate_one_survey n rows Hn) as (questions & Hnd & Hget & Hacc).
  destruct (last rows) as [item|] eqn:Hlast;
    [|by apply last_None in Hlast].
  assert (Hentry : ∀ k q, (k, q) ∈ questions →
            qsd_name q = k ∧ question_entry k rows = Some q).
  { intros k q Hin. apply (PyDict_get_elem _ _ _ Hnd) in Hin.
    rewrite Hget in Hin. split; [|done].
    unfold question_entry in Hin.
    destruct (filter _ rows); [done|]. by injection Hin as <-. }
  assert (Hnames : qsd_name <$> PyDict.values questions = questions.*1).
  { unfold PyDict.values. rewrite <- list_fmap_compose.
    apply Forall_fmap_ext, Forall_forall. intros [k q] Hin. simpl.
    by apply Hentry. }
  eexists. unfold StatSurveyService.stat_survey. rewrite Hacc. simpl.
  split; [reflexivity|]. simpl. split; [done|].
  rewrite Hnames. split; [done|]. split.
  - intros name.
    by rewrite <- PyDict_get_is_Some, Hget, question_entry_is_Some.
  - intros question Hin. apply list_elem_of_fmap in Hin as ([k q] & -> & Hin).
    simpl. destruct (Hentry k q Hin) as [-> Hq]. unfold question_entry in Hq.
    destruct (filter _ rows) as [|first others]; [done|].
    exists first, others. by injection Hq as <-.
Qed.

Lemma stat_survey_groups_by_question_name_witness :
  ∃ survey_stat,
    StatSurveyService.stat_survey (get_survey_stat Sample.db_stat 1)
    = inr survey_stat
    ∧ st_name survey_stat = "Survey 1"
    ∧ NoDup (qsd_name <$> st_questions survey_stat)
    ∧ (∀ name, name ∈ qsd_name <$> st_questions survey_stat
               ↔ name ∈ question_id__name <$> get_survey_stat Sample.db_stat 1)
    ∧ (∀ question, question ∈ st_questions survey_stat →
         ∃ first others,
           filter (λ row, question_id__name row = qsd_name question)
             (get_survey_stat Sample.db_stat 1)
           = first :: others
           ∧ qsd_uuid question = Some (question_id__uuid first)
           ∧ qsd_type question = Some (question_id__type first)
           ∧ qsd_total_count question = total_count first
           ∧ qsd_answers question = answer_data <$> first :: others).
Proof.
  apply stat_survey_groups_by_question_name.
  - vm_compute. discriminate.
  - intros row Hrow. apply (bool_decide_unpack _). revert row Hrow.
    apply Forall_forall. apply (bool_decide_unpack _). vm_compute. reflexivity.
Defined.

(** ** Filling in the unselected options twice *)

Lemma null_options_after_fill (db : DB) (question : QuestionStatDict) :
  StatSurveyService.null_options db
    (StatSurveyService.add_null_answers db question) = [].
Proof.
  unfold StatSurveyService.null_options at 1.
  cbn [StatSurveyService.add_null_answers qsd_uuid qsd_answers].
  apply filter_none. intros o Ho Hni. apply Hni.
  rewrite omap_app, elem_of_app.
  destruct (decide (ao_uuid o ∈ omap as_uuid (qsd_answers question)))
    as [Hin|Hout]; [by left|right].
  apply list_elem_of_omap. exists (StatSurveyService.null_answer o).
  split; [|done]. apply list_elem_of_fmap. exists o. split; [done|].
  unfold StatSurveyService.null_options. by apply list_elem_of_filter.
Qed.

(** X12.  [add_null_answer_options] is idempotent: after one pass every
    answer option of each question is listed, so a second pass appends
    nothing. *)
Theorem add_null_answer_options_idempotent (db : DB) (survey_stat : SurveyStat) :
  StatSurveyService.add_null_answer_options db
    (StatSurveyService.add_null_answer_options db survey_stat)
  = StatSurveyService.add_null_answer_options db survey_stat.
Proof.
  unfold StatSurveyService.add_null_answer_options. simpl. f_equal.
  rewrite <- list_fmap_compose. apply Forall_fmap_ext, Forall_forall.
  intros question _. simpl.
  unfold StatSurveyService.add_null_answers at 1.
  rewrite null_options_after_fill. simpl. rewrite app_nil_r.
  by destruct question.
Qed.

(** ** The cookie of a respondent without an account *)

Lemma get_or_create_lookup_no_cookie (survey : Survey) (db : DB) :
  get_or_create_lookup None survey None db = [].
Proof.
  unfold get_or_create_lookup.
  rewrite (filter_none (λ r, session_matches None None r)); [done|].
  intros r _. unfold session_matches. by intros ?%bool_decide_unpack.
Qed.

Lemma get_or_create_lookup_new_session (survey : Survey) (now : datetime)
    (db : DB) :
  (∀ r, r ∈ user_responses db → ur_uuid r ≠ next_uuid db) →
  let '(obj, db') := UserResponse_create None survey now db in
  get_or_create_lookup None survey (Some (ur_uuid obj)) db' = [obj].
Proof.
  intros Hfresh. unfold UserResponse_create, get_or_create_lookup. simpl.
  rewrite filter_app.
  rewrite (filter_none _ (user_responses db)).
  - rewrite app_nil_l, filter_cons, filter_nil. simpl.
    rewrite bool_decide_eq_true_2 by done. simpl.
    by rewrite filter_cons, filter_nil, decide_True.
  - intros r Hr. unfold session_matches. intros Heq%bool_decide_unpack.
    injection Heq as Heq. by apply (Hfresh r).
Qed.

(** X13.  When no stored session bears the next primary key, a
    respondent without an account and without a cookie gets a new
    session and a response that sets the cookie to that session's
    uuid; the next submission, sent with that cookie, finds the same
    session, inserts nothing and sets no cookie. *)
Theorem anonymous_cookie_round_trip (survey : Survey) (now now' : datetime)
    (db : DB) :
  (∀ r, r ∈ user_responses db → ur_uuid r ≠ next_uuid db) →
  ∃ obj db',
    _get_or_create_user_response None survey None now db = Got obj true db'
    ∧ obj ∈ user_responses db'
    ∧ set_cookies (_build_response None true obj)
      = [("user_response_uuid", ur_uuid obj)]
    ∧ let cookie := next_cookie None (_build_response None true obj) in
      cookie = Some (ur_uuid obj)
      ∧ _get_or_create_user_response None survey cookie now' db'
        = Got obj false db'
      ∧ set_cookies (_build_response None false obj) = [].
Proof.
  intros Hfresh.
  pose proof (get_or_create_lookup_new_session survey now db Hfresh) as Hnew.
  unfold _get_or_create_user_response at 1.
  rewrite get_or_create_lookup_no_cookie.
  destruct (UserResponse_create None survey now db) as [obj db'] eqn:E.
  exists obj, db'. split; [done|]. split.
  { unfold UserResponse_create in E. injection E as <- <-. simpl.
    apply elem_of_app. right. left. }
  split; [done|].
  change (next_cookie None (_build_response None true obj))
    with (Some (ur_uuid obj)).
  split; [done|]. split; [|done].
  unfold _get_or_create_user_response. by rewrite Hnew.
Qed.

Lemma anonymous_cookie_round_trip_witness :
  ∃ obj db',
    _get_or_create_user_response None Sample.survey None 5 Sample.db
    = Got obj true db'
    ∧ obj ∈ user_responses db'
    ∧ set_cookies (_build_response None true obj)
      = [("user_response_uuid", ur_uuid obj)]
    ∧ let cookie := next_cookie None (_build_response None true obj) in
      cookie = Some (ur_uuid obj)
      ∧ _get_or_create_user_response None Sample.survey cookie 6 db'
        = Got obj false db'
      ∧ set_cookies (_build_response None false obj) = [].
Proof.
  apply anonymous_cookie_round_trip.
  intros r Hr. apply (bool_decide_unpack _). revert r Hr.
  apply Forall_forall. apply (bool_decide_unpack _). vm_compute. reflexivity.
Defined.

(** ** The fold of [stat_user_survey] *)

Lemma append_answer_keys (r : UserStatRow) (qs : list QuestionUserStatDict) :
  qus_uuid <$> append_answer r qs = qus_uuid <$> qs.
Proof.
  induction qs as [|q qs IH]; [done|]. cbn [append_answer].
  case_decide; [done|]. by rewrite !fmap_cons, IH.
Qed.

Lemma append_answer_same (r : UserStatRow) (qs : list QuestionUserStatDict) :
  head (filter (λ q, qus_uuid q = usr_question_uuid r) (append_answer r qs))
  = (λ q, mkQuestionUserStatDict (qus_uuid q) (qus_name q) (qus_type q)
            (qus_answers q ++ [user_answer (qus_type q) r]))
    <$> head (filter (λ q, qus_uuid q = usr_question_uuid r) qs).
Proof.
  induction qs as [|q qs IH]; [done|]. cbn [append_answer].
  destruct (decide (qus_uuid q = usr_question_uuid r)) as [Heq|Hne].
  - by rewrite !filter_cons, !decide_True.
  - by rewrite !filter_cons, !decide_False.
Qed.

Lemma append_answer_other (r : UserStatRow) (qu : uuid)
    (qs : list QuestionUserStatDict) :
  usr_question_uuid r ≠ qu →
  head (filter (λ q, qus_uuid q = qu) (append_answer r qs))
  = head (filter (λ q, qus_uuid q = qu) qs).
Proof.
  intros Hne. induction qs as [|q qs IH]; [done|]. cbn [append_answer].
  destruct (decide (qus_uuid q = usr_question_uuid r)) as [Heq|Hne'].
  - rewrite !filter_cons. cbn [qus_uuid].
    by rewrite !decide_False by congruence.
  - rewrite !filter_cons. case_decide; [done|exact IH].
Qed.

Lemma question_exists_iff (qu : uuid) (qs : list QuestionUserStatDict) :
  existsb (λ q, bool_decide (qus_uuid q = qu)) qs = true
  ↔ qu ∈ qus_uuid <$> qs.
Proof.
  induction qs as [|q qs IH].
  - split; [done|by intros ?%elem_of_nil].
  - cbn [existsb]. rewrite fmap_cons, elem_of_cons, orb_true_iff, IH.
    rewrite bool_decide_eq_true.
    split; (intros [?|?]; [left; congruence|by right]).
Qed.

Lemma head_filter_absent (qu : uuid) (qs : list QuestionUserStatDict) :
  qu ∉ qus_uuid <$> qs → filter (λ q, qus_uuid q = qu) qs = [].
Proof.
  intros Hni. apply filter_none. intros q Hq Heq. apply Hni.
  apply list_elem_of_fmap. by exists q.
Qed.

Lemma question_step_keys (qs : list QuestionUserStatDict) (r : UserStatRow) :
  qus_uuid <$> question_step qs r
  = if decide (usr_question_uuid r ∈ qus_uuid <$> qs) then qus_uuid <$> qs
    else (qus_uuid <$> qs) ++ [usr_question_uuid r].
Proof.
  unfold question_step. rewrite append_answer_keys.
  destruct (existsb _ qs) eqn:E.
  - apply question_exists_iff in E. by rewrite decide_True.
  - rewrite decide_False; [by rewrite fmap_app|].
    intros Hin. apply question_exists_iff in Hin. congruence.
Qed.

Lemma question_step_same (qs : list QuestionUserStatDict) (r : UserStatRow) :
  head (filter (λ q, qus_uuid q = usr_question_uuid r) (question_step qs r))
  = Some match head (filter (λ q, qus_uuid q = usr_question_uuid r) qs) with
         | Some q =>
             mkQuestionUserStatDict (qus_uuid q) (qus_name q) (qus_type q)
               (qus_answers q ++ [user_answer (qus_type q) r])
         | None =>
             mkQuestionUserStatDict (usr_question_uuid r) (usr_question_name r)
               (usr_question_type r) [user_answer (usr_question_type r) r]
         end.
Proof.
  unfold question_step. rewrite append_answer_same.
  destruct (existsb _ qs) eqn:E.
  - apply question_exists_iff in E.
    apply list_elem_of_fmap in E as (q & Hq & Hin).
    assert (Hin' : q ∈ filter (λ q, qus_uuid q = usr_question_uuid r) qs)
      by (by apply list_elem_of_filter).
    destruct (filter _ qs); [by inversion Hin'|done].
  - assert (Hni : usr_question_uuid r ∉ qus_uuid <$> qs).
    { intros Hin. apply question_exists_iff in Hin. congruence. }
    rewrite filter_app, (head_filter_absent _ _ Hni).
    by rewrite filter_cons, decide_True.
Qed.

Lemma question_step_other (qs : list QuestionUserStatDict) (r : UserStatRow)
    (qu : uuid) :
  usr_question_uuid r ≠ qu →
  head (filter (λ q, qus_uuid q = qu) (question_step qs r))
  = head (filter (λ q, qus_uuid q = qu) qs).
Proof.
  intros Hne. unfold question_step. rewrite append_answer_other by done.
  destruct (existsb _ qs); [done|].
  rewrite filter_app, filter_cons, decide_False, filter_nil by done.
  by rewrite app_nil_r.
Qed.

Lemma user_questions_snoc (rows : list UserStatRow) (r : UserStatRow) :
  user_questions (rows ++ [r]) = question_step (user_questions rows) r.
Proof. unfold user_questions. by rewrite foldl_app. Qed.

Lemma user_questions_spec (rows : list UserStatRow) :
  NoDup (qus_uuid <$> user_questions rows)
  ∧ ∀ qu, head (filter (λ q, qus_uuid q = qu) (user_questions rows))
          = user_question_entry qu rows.
Proof.
  induction rows as [|r rows [IHnd IH]] using rev_ind.
  - split; [constructor|done].
  - rewrite user_questions_snoc. split.
    + rewrite question_step_keys. case_decide; [done|].
      apply NoDup_app. split; [done|]. split; [|apply NoDup_singleton].
      by intros x Hx ->%list_elem_of_singleton.
    + intros qu. unfold user_question_entry. rewrite filter_app, filter_cons.
      destruct (decide (usr_question_uuid r = qu)) as [<-|Hne].
      * rewrite question_step_same, IH. unfold user_question_entry.
        rewrite filter_nil.
        destruct (filter _ rows) as [|first others]; [done|].
        simpl. by rewrite fmap_app.
      * rewrite question_step_other, IH by done.
        by rewrite filter_nil, app_nil_r.
Qed.

Section KeyedList.
Context {A K : Type} `{EqDecision K} (key : A → K).

Lemma head_filter_key_is_Some (k : K) (l : list A) :
  is_Some (head (filter (λ x, key x = k) l)) ↔ k ∈ key <$> l.
Proof.
  rewrite list_elem_of_fmap. split.
  - intros Hsome.
    destruct (filter _ l) as [|x l'] eqn:E; [by destruct Hsome|].
    assert (Hin : x ∈ filter (λ x, key x = k) l) by (rewrite E; left).
    apply list_elem_of_filter in Hin as [Hk Hin]. by exists x.
  - intros (x & Hk & Hin).
    assert (Hin' : x ∈ filter (λ x, key x = k) l)
      by (by apply list_elem_of_filter).
    destruct (filter _ l); [by inversion Hin'|done].
Qed.

Lemma head_filter_key_NoDup (x : A) (l : list A) :
  NoDup (key <$> l) → x ∈ l → head (filter (λ y, key y = key x) l) = Some x.
Proof.
  induction l as [|y l IH]; intros Hnd Hin; [by inversion Hin|].
  rewrite fmap_cons in Hnd. apply NoDup_cons in Hnd as [Hni Hnd].
  rewrite filter_cons. apply elem_of_cons in Hin as [->|Hin].
  - by rewrite decide_True.
  - rewrite decide_False; [by apply IH|].
    intros Heq. apply Hni. rewrite Heq. apply list_elem_of_fmap. by exists x.
Qed.
End KeyedList.

Lemma user_entry_snoc_same (rows : list UserStatRow) (item : UserStatRow) :
  usr_user_id item ≠ 0%N →
  user_entry (usr_user_id item) (rows ++ [item])
  = Some (let user :=
            default _users_factory (user_entry (usr_user_id item) rows) in
          let user :=
            if falsy_user_uuid (usd_uuid user) then
              mkUserStatDict (Some (usr_user_id item))
                (usr_first_name item +:+ " " +:+ usr_last_name item)
                (usr_photo item) (usr_completed_at item) (usd_questions user)
            else user in
          mkUserStatDict (usd_uuid user) (usd_name user) (usd_photo user)
            (usd_user_completed_at user)
            (question_step (usd_questions user) item)).
Proof.
  intros Hnz. unfold user_entry. rewrite filter_app, filter_cons, filter_nil.
  rewrite decide_True by done.
  destruct (filter _ rows) as [|first others]; [done|].
  rewrite <- app_comm_cons, app_comm_cons, user_questions_snoc.
  cbv [default from_option id]. cbn [usd_uuid falsy_user_uuid].
  by rewrite bool_decide_eq_false_2.
Qed.

Lemma user_entry_snoc_other (user : user_id) (rows : list UserStatRow)
    (item : UserStatRow) :
  usr_user_id item ≠ user →
  user_entry user (rows ++ [item]) = user_entry user rows.
Proof.
  intros Hne. unfold user_entry.
  rewrite filter_app, filter_cons, filter_nil, decide_False by done.
  by rewrite app_nil_r.
Qed.

Lemma user_entry_is_Some (user : user_id) (rows : list UserStatRow) :
  is_Some (user_entry user rows) ↔ user ∈ usr_user_id <$> rows.
Proof.
  rewrite <- (head_filter_key_is_Some usr_user_id). unfold user_entry.
  destruct (filter _ rows); split; intros [? ?]; done || by eexists.
Qed.

(** The accumulator of [stat_user_survey] after rows that all carry
    the survey name [n] and non-zero user ids. *)
Lemma accumulate_users_one_survey (n : string) (rows : list UserStatRow) :
  (∀ row, row ∈ rows → usr_survey_name row = n) →
  (∀ row, row ∈ rows → usr_user_id row ≠ 0%N) →
  ∃ users : Dict.t user_id UserStatDict,
    NoDup users.*1
    ∧ (∀ user, Dict.get user users = user_entry user rows)
    ∧ match last rows with
      | None => foldl user_loop_body [] rows = [] ∧ users = []
      | Some item =>
          foldl user_loop_body [] rows
          = [(n, mkSurveyUserStatDict (Some (usr_survey_uuid item)) n
                   (Some (usr_survey_status item)) users)]
      end.
Proof.
  induction rows as [|item rows IH] using rev_ind; intros Hn Hnz.
  - exists []. split; [constructor|]. done.
  - destruct IH as (users & Hnd & Hget & Hacc).
    { intros row Hrow. apply Hn. apply elem_of_app. by left. }
    { intros row Hrow. apply Hnz. apply elem_of_app. by left. }
    assert (Hitem : usr_survey_name item = n).
    { apply Hn. apply elem_of_app. right. left. }
    assert (Hid : usr_user_id item ≠ 0%N).
    { apply Hnz. apply elem_of_app. right. left. }
    assert (Hu : susd_users
                   (default survey_user_factory
                      (PyDict.get n (foldl user_loop_body [] rows)))
                 = users).
    { destruct (last rows).
      - by rewrite Hacc, PyDict_get_cons, decide_True.
      - destruct Hacc as [-> ->]. done. }
    eexists (Dict.set (usr_user_id item) _ users).
    split; [by apply Dict_keys_set_NoDup|]. split.
    + intros user. destruct (decide (usr_user_id item = user)) as [<-|Hne].
      * rewrite Dict_get_set, user_entry_snoc_same, <- Hget by done.
        reflexivity.
      * by rewrite Dict_get_set_ne, user_entry_snoc_other, Hget.
    + rewrite last_snoc, foldl_app. cbn [foldl].
      unfold user_loop_body at 1. rewrite Hitem, Hu.
      destruct (last rows).
      * rewrite Hacc. cbn [PyDict.set]. by rewrite decide_True.
      * destruct Hacc as [-> _]. done.
Qed.

(** X15.  Over rows that all carry one survey name and non-zero user
    ids, [stat_user_survey] takes the survey columns from the last
    row and lists one entry per distinct user id, holding the name and
    completion time of the user's first row and one question entry per
    distinct question uuid among the user's rows; a question entry
    holds the name and type of its first row and one answer for each
    of the user's rows on that question, in the rows' order.  Without
    rows it returns an empty user list and no survey columns. *)
Theorem stat_user_survey_groups (n : string) (rows : list UserStatRow) :
  (∀ row, row ∈ rows → usr_survey_name row = n) →
  (∀ row, row ∈ rows → usr_user_id row ≠ 0%N) →
  let survey_stat := stat_user_survey rows in
  sus_survey survey_stat
  = (λ item, (Some (usr_survey_uuid item), n, Some (usr_survey_status item)))
    <$> last rows
  ∧ NoDup (usd_uuid <$> sus_users survey_stat)
  ∧ (∀ user, Some user ∈ usd_uuid <$> sus_users survey_stat
             ↔ user ∈ usr_user_id <$> rows)
  ∧ (∀ user, user ∈ sus_users survey_stat →
       ∃ first others,
         filter (λ row, Some (usr_user_id row) = usd_uuid user) rows
         = first :: others
         ∧ usd_name user = usr_first_name first +:+ " " +:+ usr_last_name first
         ∧ usd_photo user = usr_photo first
         ∧ usd_user_completed_at user = usr_completed_at first
         ∧ NoDup (qus_uuid <$> usd_questions user)
         ∧ (∀ question_uuid,
              question_uuid ∈ qus_uuid <$> usd_questions user
              ↔ question_uuid ∈ usr_question_uuid <$> first :: others)
         ∧ (∀ question, question ∈ usd_questions user →
              ∃ qfirst qothers,
                filter (λ row, usr_question_uuid row = qus_uuid question)
                  (first :: others)
                = qfirst :: qothers
                ∧ qus_name question = usr_question_name qfirst
                ∧ qus_type question = usr_question_type qfirst
                ∧ qus_answers question
                  = user_answer (qus_type question) <$> qfirst :: qothers)).
Proof.
  intros Hn Hnz.
  destruct (accumulate_users_one_survey n rows Hn Hnz)
    as (users & Hnd & Hget & Hacc).
  assert (Hstat : stat_user_survey rows
                  = mkSurveyUserStat
                      ((λ item, (Some (usr_survey_uuid item), n,
                                 Some (usr_survey_status item))) <$> last rows)
                      (Dict.values users)).
  { unfold stat_user_survey. destruct (last rows).
    - by rewrite Hacc.
    - by destruct Hacc as [-> ->]. }
  rewrite Hstat. clear Hstat Hacc. cbn [sus_survey sus_users].
  assert (Hentry : ∀ k u, (k, u) ∈ users → user_entry k rows = Some u).
  { intros k u Hin. rewrite <- Hget. by apply Dict_get_elem. }
  assert (Hkey : ∀ k u, (k, u) ∈ users → usd_uuid u = Some k).
  { intros k u Hin. apply Hentry in Hin. unfold user_entry in Hin.
    destruct (filter _ rows); [done|]. by injection Hin as <-. }
  assert (Hkeys : usd_uuid <$> Dict.values users = Some <$> users.*1).
  { unfold Dict.values. rewrite <- !list_fmap_compose.
    apply Forall_fmap_ext, Forall_forall. intros [k u] Hin. simpl.
    by apply Hkey. }
  split; [done|]. rewrite Hkeys. split.
  { apply NoDup_fmap; [|done]. by intros ?? [= ?]. }
  split.
  { intros user. rewrite <- user_entry_is_Some, <- Hget, Dict_get_is_Some.
    rewrite list_elem_of_fmap. split.
    - by intros (k & [= ->] & ?).
    - intros ?. by eexists. }
  intros user Hin. apply list_elem_of_fmap in Hin as ([k u] & -> & Hin).
  cbn [snd]. pose proof (Hentry k u Hin) as Hu. unfold user_entry in Hu.
  rewrite (Hkey k u Hin).
  assert (Hfilter : filter (λ row, Some (usr_user_id row) = Some k) rows
                    = filter (λ row, usr_user_id row = k) rows).
  { apply list_filter_iff. intros row. split; [by intros [= ?]|by intros ->]. }
  rewrite Hfilter.
  destruct (filter _ rows) as [|first others]; [done|].
  injection Hu as <-. cbn [usd_name usd_photo usd_user_completed_at usd_questions].
  exists first, others.
  destruct (user_questions_spec (first :: others)) as [Hqnd Hq].
  split; [done|]. split; [done|]. split; [done|]. split; [done|]. split; [done|].
  split.
  - intros qu. rewrite <- (head_filter_key_is_Some qus_uuid), Hq.
    rewrite <- (head_filter_key_is_Some usr_question_uuid).
    unfold user_question_entry.
    destruct (filter _ (first :: others)); split; intros [? ?];
      done || by eexists.
  - intros question Hquestion.
    pose proof (head_filter_key_NoDup qus_uuid question _ Hqnd Hquestion)
      as Hhead.
    rewrite Hq in Hhead. unfold user_question_entry in Hhead.
    destruct (filter _ (first :: others)) as [|qfirst qothers]; [done|].
    exists qfirst, qothers. by injection Hhead as <-.
Qed.

Lemma stat_user_survey_groups_witness :
  sus_survey (stat_user_survey Sample.user_rows)
  = Some (Some 1%N, "Survey 1", Some ACTIVE)
  ∧ usd_uuid <$> sus_users (stat_user_survey Sample.user_rows)
    = [Some 7%N; Some 8%N]
  ∧ NoDup (usd_uuid <$> sus_users (stat_user_survey Sample.user_rows)).
Proof.
  assert (Hn : ∀ row, row ∈ Sample.user_rows → usr_survey_name row = "Survey 1").
  { intros row Hrow. apply (bool_decide_unpack _). revert row Hrow.
    apply Forall_forall. apply (bool_decide_unpack _). vm_compute. reflexivity. }
  assert (Hnz : ∀ row, row ∈ Sample.user_rows → usr_user_id row ≠ 0%N).
  { intros row Hrow. apply (bool_decide_unpack _). revert row Hrow.
    apply Forall_forall. apply (bool_decide_unpack _). vm_compute. reflexivity. }
  pose proof (stat_user_survey_groups "Survey 1" Sample.user_rows Hn Hnz) as H.
  split; [exact (proj1 H)|]. split; [reflexivity|exact (proj1 (proj2 H))].
Defined.

(** ** After completion *)

Lemma is_survey_completed_after_complete
    (req : UserAnswerRequest) (now : datetime) (db db' : DB) :
  NoDup (ur_uuid <$> user_responses db) →
  CompleteSurveyService.complete_survey (uar_survey req) (uar_user req)
    (uar_user_response_uuid req) now db = Returns db' →
  _is_survey_completed req db' = true.
Proof.
  intros Hnd Hdone. unfold CompleteSurveyService.complete_survey in Hdone.
  destruct (get_user_response db _ _ _) as [r|] eqn:Hr; [|done].
  injection Hdone as <-.
  destruct (get_user_response_elem _ _ _ _ _ Hr) as [Hin _].
  rewrite UserResponse_save_fmap by done.
  unfold _is_survey_completed.
  rewrite get_user_response_completed, Hr. simpl.
  unfold completed_row. by rewrite decide_True.
Qed.

(** X16.  Once [complete_survey] has returned for a caller, every
    further submission of that caller on the survey is rejected by the
    Submit-Answer pipeline, and the pipeline of the survey page
    rejects the caller with "survey already completed" exactly when
    the caller is identified, the survey is not anonymous and the
    caller is not an owner of it. *)
Theorem completion_closes_session
    (req req' : UserAnswerRequest) (now : datetime) (db db' : DB) :
  NoDup (ur_uuid <$> user_responses db) →
  CompleteSurveyService.complete_survey (uar_survey req) (uar_user req)
    (uar_user_response_uuid req) now db = Returns db' →
  uar_survey req' = uar_survey req →
  uar_user req' = uar_user req →
  uar_user_response_uuid req' = uar_user_response_uuid req →
  (∃ e, validate UserAnswerChecker req' db' = Raise e)
  ∧ validate UserResponseChecker req' db'
    = match uar_user req with
      | Some user =>
          if negb (s_is_anonymous (uar_survey req))
             && negb (is_user_owner (uar_survey req) user)
          then Raise (ValidateAnswerError_msg "Опрос уже пройден")
          else Ok tt
      | None => Ok tt
      end.
Proof.
  intros Hnd Hdone Hs Hu Hc.
  assert (Hcompleted : _is_survey_completed req' db' = true).
  { pose proof (is_survey_completed_after_complete req now db db' Hnd Hdone)
      as H.
    unfold _is_survey_completed in *. by rewrite Hs, Hu, Hc. }
  assert (Hcheck : check CompletedSurveyValidator req' db'
                   = Raise (ValidateAnswerError_msg "Опрос уже пройден")).
  { cbn [check CompletedSurveyValidator]. by rewrite Hcompleted. }
  split.
  - unfold validate, UserAnswerChecker. cbn [run_validators].
    destruct (check IsSurveyActiveValidator req' db') as [[]|e1];
      [|by eexists].
    destruct (check ChoiceAnswerValidator req' db') as [[]|e2];
      [|by eexists].
    rewrite Hcheck. by eexists.
  - unfold validate, UserResponseChecker. cbn [run_validators].
    cbn [check OwnerCompletedSurveyValidator]. rewrite Hs, Hu.
    destruct (uar_user req) as [user|]; [|done].
    destruct (negb _ && negb _); [|done].
    by rewrite Hcheck.
Qed.

Lemma completion_closes_session_witness :
  (∃ e, validate UserAnswerChecker Sample.option_for_text_request
          (set_user_responses
             (UserResponse_save Sample.completed_session
                (user_responses Sample.db_two_texts)) Sample.db_two_texts)
        = Raise e)
  ∧ validate UserResponseChecker Sample.option_for_text_request
      (set_user_responses
         (UserResponse_save Sample.completed_session
            (user_responses Sample.db_two_texts)) Sample.db_two_texts)
    = Ok tt.
Proof.
  assert (Hnd : NoDup (ur_uuid <$> user_responses Sample.db_two_texts)).
  { apply (bool_decide_unpack _). vm_compute. exact I. }
  exact (completion_closes_session Sample.complete_request
           Sample.option_for_text_request 200 Sample.db_two_texts _
           Hnd eq_refl eq_refl eq_refl eq_refl).
Defined.

(** ** The statistics view end to end *)

Lemma stat_key_question_name db a k :
  stat_key db a = Some k →
  q_name <$> find_question db k.1.1.2.1.1 = Some k.1.1.2.1.2.
Proof.
  unfold stat_key. intros H.
  destruct (find_question db (ua_question a)) as [q|] eqn:Eq; [|done].
  simpl in H. destruct (find_survey db (q_survey q)) as [s|]; [|done].
  simpl in H. injection H as <-. simpl.
  destruct (find_question_uuid _ _ _ Eq) as [-> _]. by rewrite Eq.
Qed.

Lemma get_survey_stat_question_name db survey_uuid row :
  row ∈ get_survey_stat db survey_uuid →
  q_name <$> find_question db (question_id__uuid row)
  = Some (question_id__name row).
Proof.
  intros Hrow. apply get_survey_stat_elem in Hrow as (k & Hk & ->).
  apply list_elem_of_omap in Hk as (a & _ & Ha).
  apply stat_key_question_name in Ha.
  by destruct k as [[[[[su sn] ss] [[qu qn] qt]] [ou on]] [qs os]].
Qed.

Lemma get_survey_stat_total_count db survey_uuid row :
  row ∈ get_survey_stat db survey_uuid →
  total_count row = total_counts db survey_uuid (question_id__uuid row).
Proof.
  intros Hrow. apply get_survey_stat_elem in Hrow as (k & Hk & ->).
  by destruct k as [[[[[su sn] ss] [[qu qn] qt]] [ou on]] [qs os]].
Qed.

Lemma get_survey_stat_sum db survey_uuid (qu : uuid) :
  (∀ a, a ∈ completed_answers db survey_uuid → is_Some (stat_key db a)) →
  sum_list (answer_count <$>
              filter (λ row, question_id__uuid row = qu)
                (get_survey_stat db survey_uuid))
  = total_counts db survey_uuid qu.
Proof.
  intros Hjoin. unfold get_survey_stat.
  rewrite sum_answer_counts, sum_group_counts.
  - unfold total_counts. by apply stat_keys_of_question.
  - rewrite order_by_Permutation. apply NoDup_remove_dups.
  - intros k Hk. apply elem_of_order_by. by rewrite elem_of_remove_dups.
Qed.

Lemma filter_ext_in {A} (P Q : A → Prop) `{!∀ x, Decision (P x)}
    `{!∀ x, Decision (Q x)} (l : list A) :
  (∀ x, x ∈ l → P x ↔ Q x) → filter P l = filter Q l.
Proof.
  induction l as [|x l IH]; intros Hext; [done|].
  rewrite !filter_cons.
  assert (IH' : filter P l = filter Q l)
    by (apply IH; intros y Hy; apply Hext; by right).
  destruct (decide (P x)) as [HP|HP].
  - rewrite decide_True by (apply Hext; [left|done]). by rewrite IH'.
  - rewrite decide_False; [done|]. intros HQ. apply HP. apply Hext; [left|done].
Qed.

Lemma sum_null_answers (os : list AnswerOption) :
  sum_list (as_count <$> (StatSurveyService.null_answer <$> os)) = 0.
Proof. induction os as [|o os IH]; [done|]. rewrite !fmap_cons. exact IH. Qed.

(** X17.  Suppose every answer of a completed session resolves its
    question and the question's survey, all rows of the aggregate
    query carry one survey name, and no two rows of different
    questions carry the same question name.  Then in the statistics
    the view returns, the counts listed under each question,
    unselected options included, add up to the question's total
    count. *)
Theorem stat_view_counts_add_up (db : DB) (survey_uuid : uuid) (n : string)
    (survey_stat : SurveyStat) :
  (∀ a, a ∈ completed_answers db survey_uuid → is_Some (stat_key db a)) →
  (∀ row, row ∈ get_survey_stat db survey_uuid →
          question_id__survey_id__name row = n) →
  (∀ row1 row2,
     row1 ∈ get_survey_stat db survey_uuid →
     row2 ∈ get_survey_stat db survey_uuid →
     question_id__name row1 = question_id__name row2 →
     question_id__uuid row1 = question_id__uuid row2) →
  stat_view db survey_uuid = inr survey_stat →
  ∀ question, question ∈ st_questions survey_stat →
    sum_list (as_count <$> qsd_answers question) = qsd_total_count question.
Proof.
  intros Hjoin Hn Hnames Hview question Hquestion.
  set (rows := get_survey_stat db survey_uuid) in *.
  destruct (accumulate_one_survey n rows Hn) as (questions & Hnd & Hget & Hacc).
  unfold stat_view, StatSurveyService.stat_survey in Hview.
  fold rows in Hview.
  destruct (last rows) as [item|].
  2: { destruct Hacc as [Hacc _]. by rewrite Hacc in Hview. }
  rewrite Hacc in Hview. simpl in Hview. injection Hview as <-.
  simpl in Hquestion.
  apply list_elem_of_fmap in Hquestion as (q & -> & Hq).
  apply list_elem_of_fmap in Hq as ([k q'] & -> & Hin).
  apply (PyDict_get_elem _ _ _ Hnd) in Hin. rewrite Hget in Hin.
  unfold question_entry in Hin.
  destruct (filter (λ row, question_id__name row = k) rows)
    as [|first others] eqn:Hrows; [done|].
  injection Hin as <-. cbn [snd StatSurveyService.add_null_answers qsd_answers
                              qsd_total_count].
  rewrite fmap_app, sum_list_with_app, sum_null_answers, Nat.add_0_r.
  change (sum_list (as_count <$> (answer_data <$> first :: others))
          = total_count first).
  rewrite <- list_fmap_compose.
  change (as_count ∘ answer_data) with answer_count.
  rewrite <- Hrows.
  assert (Hfirst : first ∈ rows ∧ question_id__name first = k).
  { assert (H : first ∈ filter (λ row, question_id__name row = k) rows)
      by (rewrite Hrows; left).
    apply list_elem_of_filter in H as [? ?]. done. }
  destruct Hfirst as [Hfirst Hk].
  assert (Hsame : filter (λ row, question_id__name row = k) rows
                  = filter (λ row, question_id__uuid row
                                   = question_id__uuid first) rows).
  { apply filter_ext_in. intros row Hrow. split.
    - intros Hrk. apply Hnames; [done|done|congruence].
    - intros Hu.
      pose proof (get_survey_stat_question_name db survey_uuid row Hrow) as H1.
      pose proof (get_survey_stat_question_name db survey_uuid first Hfirst)
        as H2.
      rewrite Hu, H2 in H1. congruence. }
  rewrite Hsame.
  unfold rows. rewrite get_survey_stat_sum by done.
  symmetry. by apply get_survey_stat_total_count.
Qed.

Lemma stat_view_counts_add_up_witness :
  ∃ survey_stat,
    stat_view Sample.db_stat 1 = inr survey_stat
    ∧ ∀ question, question ∈ st_questions survey_stat →
        sum_list (as_count <$> qsd_answers question) = qsd_total_count question.
Proof.
  eexists. split; [vm_compute; reflexivity|].
  apply (stat_view_counts_add_up Sample.db_stat 1 "Survey 1").
  - intros a Ha. apply (bool_decide_unpack _). revert a Ha.
    apply Forall_forall. apply (bool_decide_unpack _). vm_compute. reflexivity.
  - intros row Hrow. apply (bool_decide_unpack _). revert row Hrow.
    apply Forall_forall. apply (bool_decide_unpack _). vm_compute. reflexivity.
  - intros row1 row2 Hrow1 Hrow2. apply (bool_decide_unpack _).
    revert row2 Hrow2. apply Forall_forall.
    revert row1 Hrow1. apply Forall_forall.
    apply (bool_decide_unpack _). vm_compute. reflexivity.
  - vm_compute. reflexivity.
Defined.

(** ** Survey.save *)

Section ModelSave.
Variables (args : SaveArgs) (self : Survey).

Let pk := s_uuid self.

Lemma Model_save_cases adding rows adding' rows' :
  Model_save args self adding rows = inr (adding', rows') →
  (update_fields args = Some [] ∧ adding' = adding ∧ rows' = rows)
  ∨ (update_fields args ≠ Some [] ∧ adding' = false
     ∧ (((pk ∉ (s_uuid <$> rows)) ∧ rows' = insert_row self rows)
        ∨ (pk ∈ s_uuid <$> rows ∧ force_insert args = false
           ∧ rows' = update_rows (update_fields args) self rows))).
Proof.
  unfold Model_save. intros H.
  destruct (force_insert args && _); [done|].
  case_bool_decide as Hempty; [injection H as <- <-; by left|].
  case_bool_decide as Hbad; [done|].
  right. split; [done|].
  destruct (force_insert args); simpl in H.
  - case_bool_decide; [done|]. injection H as <- <-. split; [done|]. by left.
  - destruct (adding && negb (force_update args)).
    + case_bool_decide; [done|]. injection H as <- <-. split; [done|]. by left.
    + case_bool_decide.
      * injection H as <- <-. split; [done|]. by right.
      * destruct (force_update args || _); [done|].
        injection H as <- <-. split; [done|]. by left.
Qed.

Lemma update_rows_keys uf rows :
  s_uuid <$> update_rows uf self rows = s_uuid <$> rows.
Proof.
  unfold update_rows. rewrite <- list_fmap_compose.
  apply Forall_fmap_ext, Forall_forall. intros row _. simpl.
  by case_decide.
Qed.

Lemma update_rows_frame uf rows :
  filter (λ s, s_uuid s ≠ pk) (update_rows uf self rows)
  = filter (λ s, s_uuid s ≠ pk) rows.
Proof.
  unfold update_rows. induction rows as [|row rows IH]; [done|].
  rewrite fmap_cons, !filter_cons, IH.
  destruct (decide (s_uuid row = s_uuid self)) as [Heq|Hne].
  - by rewrite !decide_False by (intros H; by apply H).
  - by rewrite !decide_True.
Qed.

Lemma update_rows_stored uf rows :
  stored_survey (update_rows uf self rows) pk
  = updated_row uf self <$> stored_survey rows pk.
Proof.
  unfold stored_survey, update_rows.
  rewrite filter_fmap_stable by (intros row; by case_decide).
  induction rows as [|row rows IH]; [done|].
  rewrite filter_cons. case_decide; [|exact IH].
  simpl. by rewrite decide_True.
Qed.

Lemma insert_row_frame rows :
  filter (λ s, s_uuid s ≠ pk) (insert_row self rows)
  = filter (λ s, s_uuid s ≠ pk) rows.
Proof.
  unfold insert_row. rewrite filter_app, filter_cons, decide_False, filter_nil.
  - by rewrite app_nil_r.
  - by intros H.
Qed.

Lemma stored_survey_is_Some rows k :
  is_Some (stored_survey rows k) ↔ k ∈ s_uuid <$> rows.
Proof. apply (head_filter_key_is_Some s_uuid). Qed.



(** What one write leaves alone. *)
Lemma Model_save_frame adding rows adding' rows' :
  NoDup (s_uuid <$> rows) →
  Model_save args self adding rows = inr (adding', rows') →
  NoDup (s_uuid <$> rows')
  ∧ filter (λ s, s_uuid s ≠ pk) rows' = filter (λ s, s_uuid s ≠ pk) rows
  ∧ (∀ row, stored_survey rows pk = Some row →
       ∃ row', stored_survey rows' pk = Some row'
               ∧ s_owner_user_ids row' = s_owner_user_ids row)
  ∧ (pk ∈ s_uuid <$> rows → pk ∈ s_uuid <$> rows')
  ∧ (length rows' = length rows
     ∨ ((pk ∉ (s_uuid <$> rows)) ∧ pk ∈ s_uuid <$> rows'
        ∧ length rows' = S (length rows))).
Proof.
  intros Hnd H. apply Model_save_cases in H
    as [(Hempty & _ & ->)|(Hne & _ & [[Hni ->]|(Hin & _ & ->)])].
  - split; [done|]. split; [done|]. split; [by eauto|]. split; [done|by left].
  - split.
    { unfold insert_row. rewrite fmap_app. apply NoDup_app. split; [done|].
      split; [|apply NoDup_singleton].
      by intros x Hx ->%list_elem_of_singleton. }
    split; [apply insert_row_frame|]. split.
    { intros row Hrow. exfalso. apply Hni. apply stored_survey_is_Some.
      by rewrite Hrow. }
    split; [done|]. right. split; [done|]. split.
    + unfold insert_row. rewrite fmap_app. apply elem_of_app. right. left.
    + unfold insert_row. rewrite length_app. simpl. lia.
  - rewrite update_rows_keys. split; [done|].
    split; [apply update_rows_frame|]. split.
    { intros row Hrow. rewrite update_rows_stored, Hrow. by eexists. }
    split; [done|]. left. unfold update_rows. by rewrite length_fmap.
Qed.
End ModelSave.





(** ** Survey.save and the other rows of the table *)

(** X14.  Over a table with distinct keys, whatever the arguments and
    however the call ends, [Survey.save] keeps the keys distinct,
    leaves the rows of all other surveys in place and unchanged, keeps
    a stored row of the saved key stored and with the owners it had,
    and adds at most one row, and none when the key was stored. *)
Theorem survey_save_frame (args : SaveArgs) (self : Survey) (adding : bool)
    (now : datetime) (rows : list Survey) :
  NoDup (s_uuid <$> rows) →
  let rows' := outcome_rows (Survey_save args self adding now rows) in
  NoDup (s_uuid <$> rows')
  ∧ filter (λ s, s_uuid s ≠ s_uuid self) rows'
    = filter (λ s, s_uuid s ≠ s_uuid self) rows
  ∧ (∀ row, stored_survey rows (s_uuid self) = Some row →
       ∃ row', stored_survey rows' (s_uuid self) = Some row'
               ∧ s_owner_user_ids row' = s_owner_user_ids row)
  ∧ (s_uuid self ∈ s_uuid <$> rows → length rows' = length rows)
  ∧ length rows ≤ length rows' ≤ S (length rows).
Proof.
  intros Hnd rows'.
  assert (Hgoal : ∀ l : list Survey,
            NoDup (s_uuid <$> l)
            ∧ filter (λ s, s_uuid s ≠ s_uuid self) l
              = filter (λ s, s_uuid s ≠ s_uuid self) rows
            ∧ (∀ row, stored_survey rows (s_uuid self) = Some row →
                 ∃ row', stored_survey l (s_uuid self) = Some row'
                         ∧ s_owner_user_ids row' = s_owner_user_ids row)
            ∧ (s_uuid self ∈ s_uuid <$> rows → s_uuid self ∈ s_uuid <$> l)
            ∧ (length l = length rows
               ∨ ((s_uuid self ∉ (s_uuid <$> rows)) ∧ s_uuid self ∈ s_uuid <$> l
                  ∧ length l = S (length rows))) →
            NoDup (s_uuid <$> l)
            ∧ filter (λ s, s_uuid s ≠ s_uuid self) l
              = filter (λ s, s_uuid s ≠ s_uuid self) rows
            ∧ (∀ row, stored_survey rows (s_uuid self) = Some row →
                 ∃ row', stored_survey l (s_uuid self) = Some row'
                         ∧ s_owner_user_ids row' = s_owner_user_ids row)
            ∧ (s_uuid self ∈ s_uuid <$> rows → length l = length rows)
            ∧ length rows ≤ length l ≤ S (length rows)).
  { intros l (H1 & H2 & H3 & H4 & H5).
    split; [done|]. split; [done|]. split; [done|]. split.
    - intros Hin. destruct H5 as [?|(Hni & _)]; [done|by destruct Hni].
    - destruct H5 as [->|(_ & _ & ->)]; lia. }
  apply Hgoal. unfold rows', Survey_save.
  assert (Hrefl : NoDup (s_uuid <$> rows)
            ∧ filter (λ s, s_uuid s ≠ s_uuid self) rows
              = filter (λ s, s_uuid s ≠ s_uuid self) rows
            ∧ (∀ row, stored_survey rows (s_uuid self) = Some row →
                 ∃ row', stored_survey rows (s_uuid self) = Some row'
                         ∧ s_owner_user_ids row' = s_owner_user_ids row)
            ∧ (s_uuid self ∈ s_uuid <$> rows → s_uuid self ∈ s_uuid <$> rows)
            ∧ (length rows = length rows
               ∨ ((s_uuid self ∉ (s_uuid <$> rows))
                  ∧ s_uuid self ∈ s_uuid <$> rows
                  ∧ length rows = S (length rows)))).
  { split; [done|]. split; [done|]. split; [by eauto|]. split; [done|by left]. }
  destruct (Model_save args self adding rows) as [e1|[a1 rows1]] eqn:E1;
    [exact Hrefl|].
  pose proof (Model_save_frame args self adding rows a1 rows1 Hnd E1)
    as (Hnd1 & Hf1 & Ho1 & Hk1 & Hl1).
  assert (Hone : NoDup (s_uuid <$> rows1)
            ∧ filter (λ s, s_uuid s ≠ s_uuid self) rows1
              = filter (λ s, s_uuid s ≠ s_uuid self) rows
            ∧ (∀ row, stored_survey rows (s_uuid self) = Some row →
                 ∃ row', stored_survey rows1 (s_uuid self) = Some row'
                         ∧ s_owner_user_ids row' = s_owner_user_ids row)
            ∧ (s_uuid self ∈ s_uuid <$> rows → s_uuid self ∈ s_uuid <$> rows1)
            ∧ (length rows1 = length rows
               ∨ ((s_uuid self ∉ (s_uuid <$> rows))
                  ∧ s_uuid self ∈ s_uuid <$> rows1
                  ∧ length rows1 = S (length rows)))) by done.
  destruct (decide (s_status self = CLOSED)); [|exact Hone].
  destruct (Model_save args (set_end_date (Some now) self) a1 rows1)
    as [e2|[a2 rows2]] eqn:E2; [exact Hone|].
  pose proof (Model_save_frame args (set_end_date (Some now) self) a1 rows1
                a2 rows2 Hnd1 E2) as (Hnd2 & Hf2 & Ho2 & Hk2 & Hl2).
  change (s_uuid (set_end_date (Some now) self)) with (s_uuid self) in *.
  simpl. split; [done|]. split; [by rewrite Hf2|]. split.
  { intros row Hrow. destruct (Ho1 row Hrow) as (r1 & Hr1 & Hown1).
    destruct (Ho2 r1 Hr1) as (r2 & Hr2 & Hown2).
    exists r2. split; [done|]. by rewrite Hown2. }
  split; [by auto|].
  destruct Hl1 as [Hl1|(Hni & Hin1 & Hl1)].
  - destruct Hl2 as [Hl2|(Hni2 & Hin2 & Hl2)].
    + left. by rewrite Hl2.
    + destruct (decide (s_uuid self ∈ s_uuid <$> rows)) as [Hin|Hni'].
      * by destruct Hni2; apply Hk1.
      * right. split; [done|]. split; [done|]. by rewrite Hl2, Hl1.
  - right. split; [done|]. split; [by apply Hk2|].
    destruct Hl2 as [Hl2|(Hni2 & _)]; [by rewrite Hl2|by destruct Hni2].
Qed.

Lemma survey_save_frame_witness :
  let rows' :=
    outcome_rows
      (Survey_save plain_save (set_status CLOSED Sample.draft) false 10
         [Sample.other_survey; Sample.draft]) in
  NoDup (s_uuid <$> rows')
  ∧ filter (λ s, s_uuid s ≠ s_uuid Sample.draft) rows' = [Sample.other_survey]
  ∧ length rows' = 2.
Proof.
  assert (Hnd : NoDup (s_uuid <$> [Sample.other_survey; Sample.draft])).
  { apply (bool_decide_unpack _). vm_compute. reflexivity. }
  pose proof (survey_save_frame plain_save (set_status CLOSED Sample.draft)
                false 10 [Sample.other_survey; Sample.draft] Hnd) as H.
  split; [exact (proj1 H)|]. split; [exact (proj1 (proj2 H))|].
  apply (proj1 (proj2 (proj2 (proj2 H)))).
  apply (bool_decide_unpack _). vm_compute. reflexivity.
Defined.

(** ** Answer engine: an accepted answer and the completion check *)

Section EngineAndCheck.
Variables (question : Question) (user_response : UserResponse).

Let r := ur_uuid user_response.
Let q := q_uuid question.

Lemma handle_answer_user_responses o t db :
  user_responses (_handle_answer question o t user_response db)
  = user_responses db.
Proof.
  destruct (handle_answer_cases question user_response o t db)
    as [(o' & t' & ->)|[->|(a & _ & [->|[(o' & ->)|(t' & ->)]])]]; done.
Qed.

(** Every answer row after a submission is a row of (session,
    question), or carries the session and question of a row that was
    there before. *)
Lemma handle_answer_rows o t db a' :
  a' ∈ user_answers (_handle_answer question o t user_response db) →
  (ua_user_response a' = r ∧ ua_question a' = q)
  ∨ ∃ a, a ∈ user_answers db
         ∧ ua_user_response a' = ua_user_response a
         ∧ ua_question a' = ua_question a.
Proof.
  destruct (handle_answer_cases question user_response o t db)
    as [(o' & t' & ->)|[->|(a & _ & [->|[(o' & ->)|(t' & ->)]])]];
    simpl; intros Hin.
  - apply elem_of_app in Hin as [Hin|Hin]; [right; by exists a'|].
    apply list_elem_of_singleton in Hin as ->. by left.
  - right. by exists a'.
  - apply list_elem_of_filter in Hin as [_ Hin]. right. by exists a'.
  - apply list_elem_of_fmap in Hin as (x & -> & Hx). right. exists x.
    split; [done|]. by case_decide.
  - apply list_elem_of_fmap in Hin as (x & -> & Hx). right. exists x.
    split; [done|]. by case_decide.
Qed.

(** When the session is the caller's and the caller's other sessions
    hold no answer to the question, the answers that the completion
    check prefetches for the question are those of the session. *)
Lemma prefetch_answers_of_session user cookie db :
  find_user_response db r = Some user_response →
  session_matches user cookie user_response = true →
  (∀ a s, a ∈ user_answers db → ua_question a = q →
          find_user_response db (ua_user_response a) = Some s →
          session_matches user cookie s = true →
          ua_user_response a = r) →
  prefetch_answers db user cookie question = answers_of db r q.
Proof.
  intros Hfind Hmatch Honly. unfold prefetch_answers, answers_of.
  apply filter_ext_in. intros a Ha. split.
  - intros H. apply andb_prop_elim in H as [Hq Hs].
    apply bool_decide_unpack in Hq. split; [|done].
    destruct (find_user_response db (ua_user_response a)) as [s|] eqn:E;
      [|done].
    apply (Honly a s); [done|done|done|by apply Is_true_true].
  - intros [Hr Hq]. apply andb_prop_intro. split.
    + by apply bool_decide_pack.
    + rewrite Hr, Hfind. by apply Is_true_true.
Qed.
End EngineAndCheck.

(** X3.  Suppose the session is stored and is the caller's, and the
    caller's other sessions hold no answer to the question.  Then
    after an accepted answer is handled, the question passes the
    per-question completion check on the answers that the check
    prefetches for the caller: non-empty text for a text question, any
    option for a single-choice question to which the session holds at
    most one answer, and an option not yet selected for a
    multiple-choice question. *)
Theorem accepted_answer_is_sufficient
    (question : Question) (answer_option : option AnswerOption)
    (text_answer : option string) (user_response : UserResponse)
    (user : option user_id) (cookie : option uuid) (db : DB) :
  find_user_response db (ur_uuid user_response) = Some user_response →
  session_matches user cookie user_response = true →
  (∀ a s, a ∈ user_answers db → ua_question a = q_uuid question →
          find_user_response db (ua_user_response a) = Some s →
          session_matches user cookie s = true →
          ua_user_response a = ur_uuid user_response) →
  match q_type question with
  | TEXT => truthy text_answer = true
  | SINGLE_CHOICE =>
      length (answers_of db (ur_uuid user_response) (q_uuid question)) ≤ 1
  | MULTIPLE_CHOICE =>
      answers_of_option db (ur_uuid user_response) (q_uuid question)
        (ao_uuid <$> answer_option) = []
  end →
  let db' :=
    _handle_answer question answer_option text_answer user_response db in
  question_check
    (mkPrefetchedQuestion question
       (prefetch_answers db' user cookie question)) = Ok tt
  ∧ ∀ survey pq,
      pq ∈ get_survey_questions db' survey user cookie →
      pq_question pq = question →
      question_check pq = Ok tt.
Proof.
  intros Hfind Hmatch Honly Hpre db'.
  assert (Hresp : user_responses db' = user_responses db)
    by apply handle_answer_user_responses.
  assert (Hfind' : ∀ pk, find_user_response db' pk = find_user_response db pk).
  { intros pk. unfold find_user_response. by rewrite Hresp. }
  assert (Hprefetch : prefetch_answers db' user cookie question
                      = answers_of db' (ur_uuid user_response)
                          (q_uuid question)).
  { apply prefetch_answers_of_session; [by rewrite Hfind'|done|].
    intros a s Ha Hq Hs Hm. rewrite Hfind' in Hs.
    destruct (handle_answer_rows question user_response _ _ _ _ Ha)
      as [[? _]|(a0 & Ha0 & Hr0 & Hq0)]; [done|].
    rewrite Hr0. rewrite Hr0 in Hs. rewrite Hq0 in Hq.
    by apply (Honly a0 s). }
  assert (Hcheck : question_check
                     (mkPrefetchedQuestion question
                        (prefetch_answers db' user cookie question)) = Ok tt).
  { rewrite Hprefetch. unfold db'.
    rewrite question_check_outcome. unfold sufficiency_error. simpl.
    destruct (q_type question) eqn:Htype.
    - destruct (single_handle_one question user_response answer_option
                  text_answer db Htype Hpre) as (a & -> & _). done.
    - rewrite (multiple_handle_unfold question user_response Htype).
      rewrite Hpre. simpl. rewrite answers_of_create.
      by destruct (answers_of db _ _).
    - unfold _handle_answer. rewrite Htype. simpl.
      unfold TextQuestionStrategy.handle_answer. simpl.
      destruct (answers_of db _ _) as [|a l] eqn:E; simpl.
      + unfold TextQuestionStrategy._perform_answer_create. simpl.
        rewrite Hpre, answers_of_create, E. simpl. by rewrite Hpre.
      + unfold TextQuestionStrategy._perform_answer_update.
        rewrite Hpre, answers_of_save_text_answer, E. simpl.
        rewrite decide_True by done. simpl. by rewrite Hpre. }
  split; [exact Hcheck|].
  intros survey pq Hpq Hquestion.
  apply get_survey_questions_elem in Hpq as (x & s & -> & _).
  simpl in Hquestion. by subst x.
Qed.

Lemma accepted_answer_is_sufficient_witness :
  question_check
    (mkPrefetchedQuestion Sample.single
       (prefetch_answers
          (_handle_answer Sample.single (Some Sample.single_B) None
             Sample.session Sample.db_two_texts)
          (Some 7%N) None Sample.single)) = Ok tt.
Proof.
  apply (accepted_answer_is_sufficient Sample.single (Some Sample.single_B)
           None Sample.session (Some 7%N) None Sample.db_two_texts).
  - reflexivity.
  - reflexivity.
  - intros a s Ha Hq Hs Hm.
    assert (Hall : Forall (λ a, ua_user_response a = ur_uuid Sample.session)
                     (user_answers Sample.db_two_texts)).
    { apply (bool_decide_unpack _). vm_compute. reflexivity. }
    by apply (proj1 (Forall_forall _ _) Hall).
  - simpl. lia.
Defined.
